(** * A shallow embedding of [file_storage.py]

    The storage engine keeps notes and documents as text files, their
    metadata in one JSON index and their attachments in upload
    directories.  The state every method of [FileStorage] works on is the
    file system under its configured paths together with the sources of
    the values the methods obtain from outside (the clock read by
    [datetime.utcnow], the random names of [uuid.uuid4]).

    Modelling choices, all stated where they are made:
    - integers are [Z]; timestamps are [Z] (microseconds), the ISO string
      written by [isoformat] and parsed back by [fromisoformat] being the
      same instant;
    - strings are [string], the UTF-8 bytes of the Python [str]; a byte
      string occurs in another exactly when the text does;
    - [str.lower] is the one of the Python runtime, with its Unicode
      tables: the state carries it, as it carries the line separator;
    - a directory is a finite map from file names to what the file holds;
    - a record of the index is a dict whose optional keys may be absent,
      as the code reads them with [dict.get] and a default;
    - [os.remove] may fail on a file (the code of [delete_note_attachment]
      catches that failure); every other file operation succeeds. *)

From Stdlib Require Import ZArith String Ascii List Lia Sorting Permutation DecimalString.
From Stdlib Require OrderedTypeEx DecimalPos DecimalZ.
From stdpp Require Import base decidable option list gmap strings.

Local Open Scope string_scope.
Local Open Scope Z_scope.

(** ** Strings as the code uses them *)

(** [str(n)] for an integer, as the f-strings of the code print it. *)
Definition str_of_int (n : Z) : string := NilZero.string_of_int (Z.to_int n).

(** [str.lower] on ASCII text: the letters A to Z are folded, every other
    byte is kept.  This is the case mapping given to the example stores,
    whose titles, contents and queries are ASCII. *)
Definition ascii_lower_char (c : ascii) : ascii :=
  let n := nat_of_ascii c in
  if (Nat.leb 65 n && Nat.leb n 90)%bool then ascii_of_nat (n + 32) else c.

Fixpoint ascii_lower (s : string) : string :=
  match s with
  | EmptyString => EmptyString
  | String c rest => String (ascii_lower_char c) (ascii_lower rest)
  end.

(** [needle in hay] on strings: [needle] occurs as a substring. *)
Fixpoint str_in (needle hay : string) : bool :=
  (String.prefix needle hay ||
   match hay with
   | EmptyString => false
   | String _ rest => str_in needle rest
   end)%bool.

Definition CR : ascii := ascii_of_nat 13.
Definition LF : ascii := ascii_of_nat 10.

(** Text written through [open(path, 'w')]: every line feed becomes the
    platform's line separator [os.linesep]. *)
Fixpoint write_newlines (linesep : string) (s : string) : string :=
  match s with
  | EmptyString => EmptyString
  | String c rest =>
      if Ascii.eqb c LF then linesep ++ write_newlines linesep rest
      else String c (write_newlines linesep rest)
  end.

(** Text read through [open(path, 'r')]: universal newlines, a carriage
    return with or without its line feed is read as one line feed. *)
Fixpoint read_newlines (s : string) : string :=
  match s with
  | EmptyString => EmptyString
  | String c rest =>
      if Ascii.eqb c CR then
        String LF
          match rest with
          | EmptyString => EmptyString
          | String c' rest' =>
              if Ascii.eqb c' LF then read_newlines rest' else read_newlines rest
          end
      else String c (read_newlines rest)
  end.

(** [os.path.splitext(name)[1]] for a name without directory part: the
    extension starts at the last dot, unless only dots precede it. *)
Fixpoint splitext_from (seen_other : bool) (s : string) : string :=
  match s with
  | EmptyString => EmptyString
  | String c rest =>
      let later := splitext_from (seen_other || negb (Ascii.eqb c "."))%bool rest in
      if String.eqb later EmptyString then
        if (Ascii.eqb c "." && seen_other)%bool then s else EmptyString
      else later
  end.

Definition splitext_ext (name : string) : string := splitext_from false name.

(** ** The data model *)

(** An entry of a record's ['attachments'] list. *)
Record Attachment := mkAttachment {
  att_filename : string;
  att_original_filename : string;
  att_uploaded_at : Z
}.

(** A record of the index, a dict in the code.  A key the code reads with
    [.get] may be absent ([None] here); ['updated_by'] is absent until a
    note is updated by an editor and ['view_count'] is never written for a
    document. *)
Record Meta := mkMeta {
  meta_id : Z;
  meta_title : string;
  meta_filename : string;
  meta_category : option string;
  meta_user_id : option Z;
  meta_attachments : option (list Attachment);
  meta_view_count : option Z;
  meta_created_at : Z;
  meta_updated_at : option Z;
  meta_updated_by : option Z
}.

#[global] Instance Attachment_eq_dec : EqDecision Attachment.
Proof. solve_decision. Defined.

#[global] Instance Meta_eq_dec : EqDecision Meta.
Proof. solve_decision. Defined.

(** The parsed content of [metadata.json]. *)
Record MetadataIndex := mkIndex {
  notes : list Meta;
  docs : list Meta
}.

Definition empty_index : MetadataIndex := {| notes := []; docs := [] |}.

(** What [metadata.json] holds: nothing (no such file), bytes that
    [json.load] rejects, or the serialisation of an index. *)
Inductive MetadataFile :=
  | NoFile
  | InvalidJson (raw : string)
  | JsonOf (index : MetadataIndex).

(** The objects handed back to callers. *)
Record Note := mkNote {
  note_id : Z;
  note_title : string;
  note_content : string;
  note_category : string;
  note_user_id : option Z;
  note_attachments : list Attachment;
  note_view_count : Z;
  note_created_at : Z;
  note_updated_at : Z;
  note_updated_by : option Z
}.

Record Document := mkDocument {
  doc_id : Z;
  doc_title : string;
  doc_content : string;
  doc_category : string;
  doc_user_id : option Z;
  doc_attachments : list Attachment;
  doc_created_at : Z;
  doc_updated_at : Z
}.

(** The directories [os.remove] is called on. *)
Inductive Dir := NotesDir | DocsDir | NotesUploadsDir | DocsUploadsDir.

(** The state of the store and of its surroundings.  A text file holds
    the characters written to it, an uploaded file is kept by its size in
    bytes.  [uploads_dir] holds the files below the uploads root that are
    in neither of its two subdirectories. *)
Record World := mkWorld {
  notes_dir : gmap string string;
  docs_dir : gmap string string;
  uploads_dir : gmap string Z;
  notes_uploads_dir : gmap string Z;
  docs_uploads_dir : gmap string Z;
  metadata_file : MetadataFile;
  (* datetime.utcnow(): the readings of the clock, and how many were taken *)
  clock : nat -> Z;
  ticks : nat;
  (* uuid.uuid4().hex[:8]: the names drawn, and how many were *)
  uuid_hex8 : nat -> string;
  draws : nat;
  (* os.linesep *)
  linesep : string;
  (* the files on which os.remove raises OSError *)
  remove_fails : Dir -> string -> bool;
  (* str.lower of the runtime *)
  str_lower : string -> string
}.

Definition with_notes_dir (d : gmap string string) (w : World) : World :=
  mkWorld d (docs_dir w) (uploads_dir w) (notes_uploads_dir w) (docs_uploads_dir w)
    (metadata_file w) (clock w) (ticks w) (uuid_hex8 w) (draws w) (linesep w) (remove_fails w)
    (str_lower w).

Definition with_docs_dir (d : gmap string string) (w : World) : World :=
  mkWorld (notes_dir w) d (uploads_dir w) (notes_uploads_dir w) (docs_uploads_dir w)
    (metadata_file w) (clock w) (ticks w) (uuid_hex8 w) (draws w) (linesep w) (remove_fails w)
    (str_lower w).

Definition with_notes_uploads_dir (d : gmap string Z) (w : World) : World :=
  mkWorld (notes_dir w) (docs_dir w) (uploads_dir w) d (docs_uploads_dir w)
    (metadata_file w) (clock w) (ticks w) (uuid_hex8 w) (draws w) (linesep w) (remove_fails w)
    (str_lower w).

Definition with_docs_uploads_dir (d : gmap string Z) (w : World) : World :=
  mkWorld (notes_dir w) (docs_dir w) (uploads_dir w) (notes_uploads_dir w) d
    (metadata_file w) (clock w) (ticks w) (uuid_hex8 w) (draws w) (linesep w) (remove_fails w)
    (str_lower w).

Definition with_metadata_file (f : MetadataFile) (w : World) : World :=
  mkWorld (notes_dir w) (docs_dir w) (uploads_dir w) (notes_uploads_dir w) (docs_uploads_dir w)
    f (clock w) (ticks w) (uuid_hex8 w) (draws w) (linesep w) (remove_fails w)
    (str_lower w).

(** [datetime.utcnow().isoformat()]: one reading of the clock. *)
Definition utcnow (w : World) : Z * World :=
  (clock w (ticks w),
   mkWorld (notes_dir w) (docs_dir w) (uploads_dir w) (notes_uploads_dir w) (docs_uploads_dir w)
     (metadata_file w) (clock w) (S (ticks w)) (uuid_hex8 w) (draws w) (linesep w) (remove_fails w)
    (str_lower w)).

(** [uuid.uuid4().hex[:8]]: one draw. *)
Definition uuid4_hex8 (w : World) : string * World :=
  (uuid_hex8 w (draws w),
   mkWorld (notes_dir w) (docs_dir w) (uploads_dir w) (notes_uploads_dir w) (docs_uploads_dir w)
     (metadata_file w) (clock w) (ticks w) (uuid_hex8 w) (S (draws w)) (linesep w) (remove_fails w)
    (str_lower w)).

(** The outcome of a method that may let an exception escape. *)
Inductive Exn := OSError (d : Dir) (name : string).

Inductive Res (A : Type) :=
  | Ok (a : A)
  | Raise (e : Exn).
Arguments Ok {A} a.
Arguments Raise {A} e.

(** ** The metadata store *)

(** [_load_metadata]: the bare [except] turns a missing file and every
    failure of [json.load] into the empty index. *)
Definition _load_metadata (w : World) : MetadataIndex :=
  match metadata_file w with
  | JsonOf index => index
  | NoFile | InvalidJson _ => empty_index
  end.

(** [_save_metadata]: the file is replaced by the serialised index. *)
Definition _save_metadata (metadata : MetadataIndex) (w : World) : World :=
  with_metadata_file (JsonOf metadata) w.

(** [max(int(item['id']) for item in items)] on a list known not to be
    empty. *)
Fixpoint max_id (first : Meta) (rest : list Meta) : Z :=
  match rest with
  | [] => meta_id first
  | m :: rest' => Z.max (meta_id first) (max_id m rest')
  end.

Inductive ItemType := note | doc.

Definition items_of (item_type : ItemType) (metadata : MetadataIndex) : list Meta :=
  match item_type with
  | note => notes metadata
  | doc => docs metadata
  end.

(** [get_next_id]. *)
Definition get_next_id (item_type : ItemType) (w : World) : Z :=
  match items_of item_type (_load_metadata w) with
  | [] => 1
  | m :: rest => max_id m rest + 1
  end.

(** ** Content files *)

(** [with open(path, 'w', encoding='utf-8') as f: f.write(content)]. *)
Definition write_text (name content : string) (w : World) (files : gmap string string)
  : gmap string string :=
  <[name := write_newlines (linesep w) content]> files.

(** [os.path.exists(path)] followed by [f.read()]: the text of the file,
    or [None] when there is no such file. *)
Definition read_text (name : string) (files : gmap string string) : option string :=
  read_newlines <$> files !! name.

(** [if os.path.exists(path): os.remove(path)]; [None] when [os.remove]
    raises. *)
Definition remove_if_exists {V} (fails : string -> bool) (name : string)
    (files : gmap string V) : option (gmap string V) :=
  match files !! name with
  | None => Some files
  | Some _ => if fails name then None else Some (delete name files)
  end.

(** [items.remove(x)]: the first element equal to [x] goes. *)
Fixpoint list_remove_first {A} `{EqDecision A} (x : A) (l : list A) : list A :=
  match l with
  | [] => []
  | y :: rest => if decide (y = x) then rest else y :: list_remove_first x rest
  end.

(** ** Notes *)

Definition Note_of (m : Meta) (content : string) : Note :=
  {| note_id := meta_id m;
     note_title := meta_title m;
     note_content := content;
     note_category := default "general" (meta_category m);
     note_user_id := meta_user_id m;
     note_attachments := default [] (meta_attachments m);
     note_view_count := default 0 (meta_view_count m);
     note_created_at := meta_created_at m;
     note_updated_at := default (meta_created_at m) (meta_updated_at m);
     note_updated_by := meta_updated_by m |}.

(** The loop of [get_note]: the first record with the identifier whose
    content file exists; a record whose file is missing does not end the
    loop. *)
Fixpoint get_note_in (files : gmap string string) (note_id : Z) (metas : list Meta)
  : option Note :=
  match metas with
  | [] => None
  | note_meta :: rest =>
      if decide (meta_id note_meta = note_id) then
        match read_text (meta_filename note_meta) files with
        | Some content => Some (Note_of note_meta content)
        | None => get_note_in files note_id rest
        end
      else get_note_in files note_id rest
  end.

Definition get_note (note_id : Z) (w : World) : option Note :=
  get_note_in (notes_dir w) note_id (notes (_load_metadata w)).

(** [create_note].  The two timestamps of the new record are two
    readings of the clock, ['created_at'] first. *)
Definition create_note (title content category : string) (user_id : option Z) (w : World)
  : option Note * World :=
  let note_id := get_next_id note w in
  let filename := str_of_int note_id ++ ".txt" in
  let w := with_notes_dir (write_text filename content w (notes_dir w)) w in
  let metadata := _load_metadata w in
  let '(created_at, w) := utcnow w in
  let '(updated_at, w) := utcnow w in
  let note_meta :=
    {| meta_id := note_id;
       meta_title := title;
       meta_filename := filename;
       meta_category := Some category;
       meta_user_id := user_id;
       meta_attachments := Some [];
       meta_view_count := Some 0;
       meta_created_at := created_at;
       meta_updated_at := Some updated_at;
       meta_updated_by := None |} in
  let w := _save_metadata {| notes := (notes metadata ++ [note_meta])%list; docs := docs metadata |} w in
  (get_note note_id w, w).

(** A Python value used as a condition: [None] and the empty string are
    false. *)
Definition truthy (s : option string) : bool :=
  match s with
  | None => false
  | Some s => negb (String.eqb s "")
  end.

(** The first condition of the listing loop:
    [category and category != 'all' and meta.get('category') != category]. *)
Definition category_skips (category : option string) (m : Meta) : bool :=
  truthy category
  && negb (bool_decide (category = Some "all"))
  && negb (bool_decide (meta_category m = category)).

(** The second one:
    [search_query and q.lower() not in title.lower() and q.lower() not in content.lower()],
    [lower] being the [str.lower] of the runtime. *)
Definition search_skips (lower : string -> string) (search_query : option string)
    (title content : string) : bool :=
  match search_query with
  | None => false
  | Some q =>
      negb (String.eqb q "")
      && negb (str_in (lower q) (lower title))
      && negb (str_in (lower q) (lower content))
  end.

(** [items.sort(key=..., reverse=True)]: a stable sort, largest key
    first; elements with equal keys keep their order. *)
Fixpoint insert_desc {A} (key : A -> Z) (x : A) (sorted : list A) : list A :=
  match sorted with
  | [] => [x]
  | y :: rest => if key y <=? key x then x :: sorted else y :: insert_desc key x rest
  end.

Fixpoint sort_desc {A} (key : A -> Z) (l : list A) : list A :=
  match l with
  | [] => []
  | x :: rest => insert_desc key x (sort_desc key rest)
  end.

(** The loop of [get_all_notes], in the order of the index. *)
Fixpoint collect_notes (lower : string -> string) (files : gmap string string)
    (category search_query : option string) (metas : list Meta) : list Note :=
  match metas with
  | [] => []
  | note_meta :: rest =>
      if category_skips category note_meta then
        collect_notes lower files category search_query rest
      else
        match read_text (meta_filename note_meta) files with
        | Some content =>
            if search_skips lower search_query (meta_title note_meta) content then
              collect_notes lower files category search_query rest
            else
              Note_of note_meta content
              :: collect_notes lower files category search_query rest
        | None => collect_notes lower files category search_query rest
        end
  end.

Definition get_all_notes (category search_query : option string) (w : World) : list Note :=
  sort_desc note_updated_at
    (collect_notes (str_lower w) (notes_dir w) category search_query
       (notes (_load_metadata w))).

Definition set_view_count (v : Z) (m : Meta) : Meta :=
  mkMeta (meta_id m) (meta_title m) (meta_filename m) (meta_category m) (meta_user_id m)
    (meta_attachments m) (Some v) (meta_created_at m) (meta_updated_at m) (meta_updated_by m).

Definition set_title (t : string) (m : Meta) : Meta :=
  mkMeta (meta_id m) t (meta_filename m) (meta_category m) (meta_user_id m)
    (meta_attachments m) (meta_view_count m) (meta_created_at m) (meta_updated_at m)
    (meta_updated_by m).

Definition set_category (c : string) (m : Meta) : Meta :=
  mkMeta (meta_id m) (meta_title m) (meta_filename m) (Some c) (meta_user_id m)
    (meta_attachments m) (meta_view_count m) (meta_created_at m) (meta_updated_at m)
    (meta_updated_by m).

Definition set_updated_at (t : Z) (m : Meta) : Meta :=
  mkMeta (meta_id m) (meta_title m) (meta_filename m) (meta_category m) (meta_user_id m)
    (meta_attachments m) (meta_view_count m) (meta_created_at m) (Some t) (meta_updated_by m).

Definition set_updated_by (u : Z) (m : Meta) : Meta :=
  mkMeta (meta_id m) (meta_title m) (meta_filename m) (meta_category m) (meta_user_id m)
    (meta_attachments m) (meta_view_count m) (meta_created_at m) (meta_updated_at m) (Some u).

Definition set_attachments (l : list Attachment) (m : Meta) : Meta :=
  mkMeta (meta_id m) (meta_title m) (meta_filename m) (meta_category m) (meta_user_id m)
    (Some l) (meta_view_count m) (meta_created_at m) (meta_updated_at m) (meta_updated_by m).

(** [for meta in items: if meta['id'] == int(item_id): ...] where the body
    leaves the loop: the first record with the identifier and its place. *)
Definition find_by_id (item_id : Z) (metas : list Meta) : option (nat * Meta) :=
  list_find (λ m, meta_id m = item_id) metas.

(** [increment_note_view_count]. *)
Definition increment_note_view_count (note_id : Z) (w : World) : bool * World :=
  let metadata := _load_metadata w in
  match find_by_id note_id (notes metadata) with
  | Some (i, note_meta) =>
      let note_meta := set_view_count (default 0 (meta_view_count note_meta) + 1) note_meta in
      (true, _save_metadata {| notes := <[i := note_meta]> (notes metadata);
                               docs := docs metadata |} w)
  | None => (false, w)
  end.

(** The assignments of [update_note] and [update_doc] that precede the
    test of [updated]: the record, the content directory and the flag. *)
Definition apply_fields (title content category : option string) (w : World)
    (files : gmap string string) (m : Meta) : Meta * gmap string string * bool :=
  let '(m, updated) :=
    match title with Some t => (set_title t m, true) | None => (m, false) end in
  let '(m, updated) :=
    match category with Some c => (set_category c m, true) | None => (m, updated) end in
  let '(files, updated) :=
    match content with
    | Some c => (write_text (meta_filename m) c w files, true)
    | None => (files, updated)
    end in
  (m, files, updated).

(** [update_note]. *)
Definition update_note (note_id : Z) (title content category : option string)
    (user_id : option Z) (w : World) : bool * World :=
  let metadata := _load_metadata w in
  match find_by_id note_id (notes metadata) with
  | Some (i, note_meta) =>
      let '(note_meta, files, updated) :=
        apply_fields title content category w (notes_dir w) note_meta in
      if updated then
        let w := with_notes_dir files w in
        let '(now, w) := utcnow w in
        let note_meta := set_updated_at now note_meta in
        let note_meta :=
          match user_id with Some u => set_updated_by u note_meta | None => note_meta end in
        (true, _save_metadata {| notes := <[i := note_meta]> (notes metadata);
                                 docs := docs metadata |} w)
      else (false, w)
  | None => (false, w)
  end.

(** The loop over the attachments of a deleted record:
    [if os.path.exists(path): os.remove(path)] for each of them, in order.
    The second component names the file whose removal raised, after which
    the loop is left. *)
Fixpoint remove_attachments (fails : string -> bool) (attachments : list Attachment)
    (files : gmap string Z) : gmap string Z * option string :=
  match attachments with
  | [] => (files, None)
  | attachment :: rest =>
      match remove_if_exists fails (att_filename attachment) files with
      | Some files => remove_attachments fails rest files
      | None => (files, Some (att_filename attachment))
      end
  end.

(** [delete_note].  [os.remove] is not guarded here: its failure leaves
    the method with the files removed so far gone and the index as it
    was. *)
Definition delete_note (note_id : Z) (w : World) : Res bool * World :=
  let metadata := _load_metadata w in
  match find_by_id note_id (notes metadata) with
  | Some (_, note_meta) =>
      match remove_if_exists (remove_fails w NotesDir) (meta_filename note_meta) (notes_dir w) with
      | None => (Raise (OSError NotesDir (meta_filename note_meta)), w)
      | Some files =>
          let w := with_notes_dir files w in
          match remove_attachments (remove_fails w NotesUploadsDir)
                  (default [] (meta_attachments note_meta)) (notes_uploads_dir w) with
          | (uploads, Some name) =>
              (Raise (OSError NotesUploadsDir name), with_notes_uploads_dir uploads w)
          | (uploads, None) =>
              let w := with_notes_uploads_dir uploads w in
              (Ok true,
               _save_metadata {| notes := list_remove_first note_meta (notes metadata);
                                 docs := docs metadata |} w)
          end
      end
  | None => (Ok false, w)
  end.

(** ** Storage accounting *)

(** [os.path.getsize] of a content file: the bytes of the text it holds,
    one for each character of a [string]. *)
Definition text_size (stored : string) : Z := Z.of_nat (String.length stored).

(** The sum of [os.path.getsize] over the files of a directory. *)
Definition dir_size {V} (size : V -> Z) (files : gmap string V) : Z :=
  map_fold (λ _ v total, total + size v) 0 files.

(** [get_total_storage_size]: the walk of the uploads root meets the
    files of its two subdirectories too. *)
Definition get_total_storage_size (w : World) : Z :=
  let total_size := 0 in
  let total_size :=
    total_size + (dir_size id (uploads_dir w) + dir_size id (notes_uploads_dir w)
                  + dir_size id (docs_uploads_dir w)) in
  let total_size := total_size + dir_size text_size (notes_dir w) in
  let total_size := total_size + dir_size text_size (docs_dir w) in
  total_size.

(** What the methods tell the caller.  The text of the quota message
    prints the two figures in megabytes; the figures are kept in bytes
    here. *)
Inductive Message :=
  | MsgOK
  | MsgQuota (used_bytes max_bytes : Z)
  | MsgInvalidName
  | MsgUploaded
  | MsgNoteNotFound.

Definition default_max_storage : Z := 2 * 1024 * 1024 * 1024.

(** [check_storage_available]. *)
Definition check_storage_available (file_size max_storage : Z) (w : World) : bool * Message :=
  let current_size := get_total_storage_size w in
  if current_size + file_size >? max_storage then (false, MsgQuota current_size max_storage)
  else (true, MsgOK).

(** ** Attachments *)

(** The file object of an upload: the name the client gave and the
    number of bytes of the stream. *)
Record Upload := mkUpload {
  upload_filename : string;
  upload_size : Z
}.

Definition append_attachment (a : Attachment) (m : Meta) : Meta :=
  set_attachments (default [] (meta_attachments m) ++ [a])%list m.

(** The nested loops of [delete_note_attachment] and
    [delete_doc_attachment]: the first record with the identifier that
    has an attachment of that stored name, its place, and the first such
    attachment.  A record with the identifier but without the attachment
    does not end the search. *)
Fixpoint locate_attachment (item_id : Z) (attachment_filename : string) (metas : list Meta)
  : option (nat * Meta * Attachment) :=
  match metas with
  | [] => None
  | m :: rest =>
      let later :=
        match locate_attachment item_id attachment_filename rest with
        | Some (i, m', a) => Some (S i, m', a)
        | None => None
        end in
      if decide (meta_id m = item_id) then
        match list_find (λ a, att_filename a = attachment_filename)
                (default [] (meta_attachments m)) with
        | Some (_, attachment) => Some (0%nat, m, attachment)
        | None => later
        end
      else later
  end.

(** The record after [attachments.remove(attachment)] and the new
    ['updated_at']. *)
Definition without_attachment (attachment : Attachment) (now : Z) (m : Meta) : Meta :=
  set_updated_at now
    (set_attachments (list_remove_first attachment (default [] (meta_attachments m))) m).

(** [delete_note_attachment]: a failure of [os.remove] is caught and
    printed, the entry leaves the index in every case. *)
Definition delete_note_attachment (note_id : Z) (attachment_filename : string) (w : World)
  : bool * World :=
  let metadata := _load_metadata w in
  match locate_attachment note_id attachment_filename (notes metadata) with
  | Some (i, note_meta, attachment) =>
      let w :=
        match remove_if_exists (remove_fails w NotesUploadsDir) attachment_filename
                (notes_uploads_dir w) with
        | Some uploads => with_notes_uploads_dir uploads w
        | None => w
        end in
      let '(now, w) := utcnow w in
      (true,
       _save_metadata {| notes := <[i := without_attachment attachment now note_meta]>
                                    (notes metadata);
                         docs := docs metadata |} w)
  | None => (false, w)
  end.

Section Attachments.

(** [werkzeug.utils.secure_filename], a function of the web framework. *)
Variable secure_filename : string -> string.

(** [add_note_attachment]. *)
Definition add_note_attachment (note_id : Z) (uploaded_file : Upload) (w : World)
  : (bool * Message) * World :=
  let file_size := upload_size uploaded_file in
  let '(can_upload, message) := check_storage_available file_size default_max_storage w in
  if negb can_upload then ((false, message), w)
  else
    let metadata := _load_metadata w in
    match find_by_id note_id (notes metadata) with
    | Some (i, note_meta) =>
        let original_filename := secure_filename (upload_filename uploaded_file) in
        if String.eqb original_filename "" then ((false, MsgInvalidName), w)
        else
          let file_ext := splitext_ext original_filename in
          let '(hex, w) := uuid4_hex8 w in
          let unique_filename := str_of_int note_id ++ "_" ++ hex ++ file_ext in
          let w := with_notes_uploads_dir
                     (<[unique_filename := file_size]> (notes_uploads_dir w)) w in
          let '(uploaded_at, w) := utcnow w in
          let note_meta :=
            append_attachment (mkAttachment unique_filename original_filename uploaded_at)
              note_meta in
          let '(now, w) := utcnow w in
          let note_meta := set_updated_at now note_meta in
          ((true, MsgUploaded),
           _save_metadata {| notes := <[i := note_meta]> (notes metadata);
                             docs := docs metadata |} w)
    | None => ((false, MsgNoteNotFound), w)
    end.

(** [add_doc_attachment]: no storage check precedes the upload. *)
Definition add_doc_attachment (doc_id : Z) (uploaded_file : Upload) (w : World)
  : bool * World :=
  let metadata := _load_metadata w in
  match find_by_id doc_id (docs metadata) with
  | Some (i, doc_meta) =>
      let original_filename := secure_filename (upload_filename uploaded_file) in
      if String.eqb original_filename "" then (false, w)
      else
        let file_ext := splitext_ext original_filename in
        let '(hex, w) := uuid4_hex8 w in
        let unique_filename := str_of_int doc_id ++ "_" ++ hex ++ file_ext in
        let w := with_docs_uploads_dir
                   (<[unique_filename := upload_size uploaded_file]> (docs_uploads_dir w)) w in
        let '(uploaded_at, w) := utcnow w in
        let doc_meta :=
          append_attachment (mkAttachment unique_filename original_filename uploaded_at)
            doc_meta in
        let '(now, w) := utcnow w in
        let doc_meta := set_updated_at now doc_meta in
        (true,
         _save_metadata {| notes := notes metadata;
                           docs := <[i := doc_meta]> (docs metadata) |} w)
  | None => (false, w)
  end.

End Attachments.

(** [sorted(list(categories))] for the set built by the loop: each
    category once, in ascending order. *)
Fixpoint insert_category (c : string) (sorted : list string) : list string :=
  match sorted with
  | [] => [c]
  | d :: rest =>
      match String.compare c d with
      | Lt => c :: sorted
      | Eq => sorted
      | Gt => d :: insert_category c rest
      end
  end.

Definition categories_of (metas : list Meta) : list string :=
  foldr (λ m sorted, insert_category (default "general" (meta_category m)) sorted) [] metas.

(** [get_note_categories]. *)
Definition get_note_categories (w : World) : list string :=
  categories_of (notes (_load_metadata w)).

(** ** Documents *)

Definition Document_of (m : Meta) (content : string) : Document :=
  {| doc_id := meta_id m;
     doc_title := meta_title m;
     doc_content := content;
     doc_category := default "general" (meta_category m);
     doc_user_id := meta_user_id m;
     doc_attachments := default [] (meta_attachments m);
     doc_created_at := meta_created_at m;
     doc_updated_at := default (meta_created_at m) (meta_updated_at m) |}.

(** The loop of [get_doc]. *)
Fixpoint get_doc_in (files : gmap string string) (doc_id : Z) (metas : list Meta)
  : option Document :=
  match metas with
  | [] => None
  | doc_meta :: rest =>
      if decide (meta_id doc_meta = doc_id) then
        match read_text (meta_filename doc_meta) files with
        | Some content => Some (Document_of doc_meta content)
        | None => get_doc_in files doc_id rest
        end
      else get_doc_in files doc_id rest
  end.

Definition get_doc (doc_id : Z) (w : World) : option Document :=
  get_doc_in (docs_dir w) doc_id (docs (_load_metadata w)).

(** [create_doc]: the record of a document has no ['view_count']. *)
Definition create_doc (title content category : string) (user_id : option Z) (w : World)
  : option Document * World :=
  let doc_id := get_next_id doc w in
  let filename := str_of_int doc_id ++ ".txt" in
  let w := with_docs_dir (write_text filename content w (docs_dir w)) w in
  let metadata := _load_metadata w in
  let '(created_at, w) := utcnow w in
  let '(updated_at, w) := utcnow w in
  let doc_meta :=
    {| meta_id := doc_id;
       meta_title := title;
       meta_filename := filename;
       meta_category := Some category;
       meta_user_id := user_id;
       meta_attachments := Some [];
       meta_view_count := None;
       meta_created_at := created_at;
       meta_updated_at := Some updated_at;
       meta_updated_by := None |} in
  let w := _save_metadata {| notes := notes metadata; docs := (docs metadata ++ [doc_meta])%list |} w in
  (get_doc doc_id w, w).

(** The loop of [get_all_docs]. *)
Fixpoint collect_docs (lower : string -> string) (files : gmap string string)
    (category search_query : option string) (metas : list Meta) : list Document :=
  match metas with
  | [] => []
  | doc_meta :: rest =>
      if category_skips category doc_meta then
        collect_docs lower files category search_query rest
      else
        match read_text (meta_filename doc_meta) files with
        | Some content =>
            if search_skips lower search_query (meta_title doc_meta) content then
              collect_docs lower files category search_query rest
            else
              Document_of doc_meta content
              :: collect_docs lower files category search_query rest
        | None => collect_docs lower files category search_query rest
        end
  end.

Definition get_all_docs (category search_query : option string) (w : World) : list Document :=
  sort_desc doc_updated_at
    (collect_docs (str_lower w) (docs_dir w) category search_query
       (docs (_load_metadata w))).

(** [update_doc]: no editor is recorded. *)
Definition update_doc (doc_id : Z) (title content category : option string) (w : World)
  : bool * World :=
  let metadata := _load_metadata w in
  match find_by_id doc_id (docs metadata) with
  | Some (i, doc_meta) =>
      let '(doc_meta, files, updated) :=
        apply_fields title content category w (docs_dir w) doc_meta in
      if updated then
        let w := with_docs_dir files w in
        let '(now, w) := utcnow w in
        let doc_meta := set_updated_at now doc_meta in
        (true, _save_metadata {| notes := notes metadata;
                                 docs := <[i := doc_meta]> (docs metadata) |} w)
      else (false, w)
  | None => (false, w)
  end.

(** [delete_doc]. *)
Definition delete_doc (doc_id : Z) (w : World) : Res bool * World :=
  let metadata := _load_metadata w in
  match find_by_id doc_id (docs metadata) with
  | Some (_, doc_meta) =>
      match remove_if_exists (remove_fails w DocsDir) (meta_filename doc_meta) (docs_dir w) with
      | None => (Raise (OSError DocsDir (meta_filename doc_meta)), w)
      | Some files =>
          let w := with_docs_dir files w in
          match remove_attachments (remove_fails w DocsUploadsDir)
                  (default [] (meta_attachments doc_meta)) (docs_uploads_dir w) with
          | (uploads, Some name) =>
              (Raise (OSError DocsUploadsDir name), with_docs_uploads_dir uploads w)
          | (uploads, None) =>
              let w := with_docs_uploads_dir uploads w in
              (Ok true,
               _save_metadata {| notes := notes metadata;
                                 docs := list_remove_first doc_meta (docs metadata) |} w)
          end
      end
  | None => (Ok false, w)
  end.

(** [delete_doc_attachment]: [os.remove] is called without a guard, its
    failure leaves the method before the entry is taken out of the
    index. *)
Definition delete_doc_attachment (doc_id : Z) (attachment_filename : string) (w : World)
  : Res bool * World :=
  let metadata := _load_metadata w in
  match locate_attachment doc_id attachment_filename (docs metadata) with
  | Some (i, doc_meta, attachment) =>
      match remove_if_exists (remove_fails w DocsUploadsDir) attachment_filename
              (docs_uploads_dir w) with
      | None => (Raise (OSError DocsUploadsDir attachment_filename), w)
      | Some uploads =>
          let w := with_docs_uploads_dir uploads w in
          let '(now, w) := utcnow w in
          (Ok true,
           _save_metadata {| notes := notes metadata;
                             docs := <[i := without_attachment attachment now doc_meta]>
                                       (docs metadata) |} w)
      end
  | None => (Ok false, w)
  end.

(** [get_doc_categories]. *)
Definition get_doc_categories (w : World) : list string :=
  categories_of (docs (_load_metadata w)).

(** ** The methods as steps on the state *)

Section Steps.

Variable secure_filename : string -> string.

(** A call of a method on notes, with its arguments. *)
Inductive NoteOp :=
  | CreateNote (title content category : string) (user_id : option Z)
  | GetNote (note_id : Z)
  | GetAllNotes (category search_query : option string)
  | IncrementNoteViewCount (note_id : Z)
  | UpdateNote (note_id : Z) (title content category : option string) (user_id : option Z)
  | DeleteNote (note_id : Z)
  | AddNoteAttachment (note_id : Z) (uploaded_file : Upload)
  | DeleteNoteAttachment (note_id : Z) (attachment_filename : string)
  | GetNoteCategories.

(** A call of a method on documents. *)
Inductive DocOp :=
  | CreateDoc (title content category : string) (user_id : option Z)
  | GetDoc (doc_id : Z)
  | GetAllDocs (category search_query : option string)
  | UpdateDoc (doc_id : Z) (title content category : option string)
  | DeleteDoc (doc_id : Z)
  | AddDocAttachment (doc_id : Z) (uploaded_file : Upload)
  | DeleteDocAttachment (doc_id : Z) (attachment_filename : string)
  | GetDocCategories.

(** The state a call leaves behind, whether it returns or raises; the
    methods that only read leave the state they found. *)
Definition note_step (op : NoteOp) (w : World) : World :=
  match op with
  | CreateNote title content category user_id =>
      snd (create_note title content category user_id w)
  | GetNote _ | GetAllNotes _ _ | GetNoteCategories => w
  | IncrementNoteViewCount note_id => snd (increment_note_view_count note_id w)
  | UpdateNote note_id title content category user_id =>
      snd (update_note note_id title content category user_id w)
  | DeleteNote note_id => snd (delete_note note_id w)
  | AddNoteAttachment note_id uploaded_file =>
      snd (add_note_attachment secure_filename note_id uploaded_file w)
  | DeleteNoteAttachment note_id attachment_filename =>
      snd (delete_note_attachment note_id attachment_filename w)
  end.

Definition doc_step (op : DocOp) (w : World) : World :=
  match op with
  | CreateDoc title content category user_id =>
      snd (create_doc title content category user_id w)
  | GetDoc _ | GetAllDocs _ _ | GetDocCategories => w
  | UpdateDoc doc_id title content category =>
      snd (update_doc doc_id title content category w)
  | DeleteDoc doc_id => snd (delete_doc doc_id w)
  | AddDocAttachment doc_id uploaded_file =>
      snd (add_doc_attachment secure_filename doc_id uploaded_file w)
  | DeleteDocAttachment doc_id attachment_filename =>
      snd (delete_doc_attachment doc_id attachment_filename w)
  end.

End Steps.

(** ** Sequences of creations *)

(** A call of [create_note] or [create_doc]. *)
Record CreateCall := mkCreateCall {
  call_type : ItemType;
  call_title : string;
  call_content : string;
  call_category : string;
  call_user_id : option Z
}.

#[global] Instance ItemType_eq_dec : EqDecision ItemType.
Proof. solve_decision. Defined.

(** The calls made one after the other; each yields the kind created and
    the identifier of the object the call returned. *)
Fixpoint run_creates (calls : list CreateCall) (w : World) : list (ItemType * option Z) :=
  match calls with
  | [] => []
  | c :: rest =>
      match call_type c with
      | note =>
          let '(created, w) :=
            create_note (call_title c) (call_content c) (call_category c) (call_user_id c) w in
          (note, note_id <$> created) :: run_creates rest w
      | doc =>
          let '(created, w) :=
            create_doc (call_title c) (call_content c) (call_category c) (call_user_id c) w in
          (doc, doc_id <$> created) :: run_creates rest w
      end
  end.

(** The identifiers handed out for one kind, in call order. *)
Definition ids_of (item_type : ItemType) (results : list (ItemType * option Z))
  : list (option Z) :=
  snd <$> filter (λ r, fst r = item_type) results.

(** The number of calls for one kind. *)
Definition count_calls (item_type : ItemType) (calls : list CreateCall) : nat :=
  length (filter (λ c, call_type c = item_type) calls).

(** ** Specification-side definitions and concrete stores *)

(** The record [create_note] appends. *)
Definition created_note_meta (title category : string) (user_id : option Z) (w : World) : Meta :=
  let note_id := get_next_id note w in
  mkMeta note_id title (str_of_int note_id ++ ".txt") (Some category) user_id (Some [])
    (Some 0) (clock w (ticks w)) (Some (clock w (S (ticks w)))) None.

(** The record [create_doc] appends. *)
Definition created_doc_meta (title category : string) (user_id : option Z) (w : World) : Meta :=
  let doc_id := get_next_id doc w in
  mkMeta doc_id title (str_of_int doc_id ++ ".txt") (Some category) user_id (Some [])
    None (clock w (ticks w)) (Some (clock w (S (ticks w)))) None.

(** A fresh store: an empty index, a clock that advances at every
    reading, and no file that resists removal. *)
Definition store0 : World :=
  mkWorld ∅ ∅ ∅ ∅ ∅ (JsonOf empty_index) (λ n, 1000 + Z.of_nat n) 0 (λ _, "deadbeef") 0
    (String LF EmptyString) (λ _ _, false)
    ascii_lower.

Definition calls0 : list CreateCall :=
  [mkCreateCall note "Meeting Notes" "Discuss Q1 roadmap" "work" None;
   mkCreateCall doc "Handbook" "Welcome" "general" (Some 7);
   mkCreateCall note "Shopping" "Milk, eggs" "personal" None].

(** Whether a character occurs in a string. *)
Fixpoint has_char (c : ascii) (s : string) : bool :=
  match s with
  | EmptyString => false
  | String c' rest => (Ascii.eqb c' c || has_char c rest)%bool
  end.

(** A metadata file that [json.load] cannot read: missing, or corrupt. *)
Definition unreadable (f : MetadataFile) : Prop :=
  match f with
  | NoFile | InvalidJson _ => True
  | JsonOf _ => False
  end.

(** A store whose index was overwritten with bytes that are not JSON,
    its content files still in place. *)
Definition corrupt_store : World :=
  mkWorld {[ "1.txt" := "Discuss Q1 roadmap" ]} {[ "1.txt" := "Welcome" ]} ∅ ∅ ∅
    (InvalidJson "{notes: [") (λ n, 1000 + Z.of_nat n) 0 (λ _, "deadbeef") 0
    (String LF EmptyString) (λ _ _, false)
    ascii_lower.

(** [m] is the record the loops over the index stop at for [item_id]: the
    first one, at place [i], that carries the identifier. *)
Definition first_with_id (item_id : Z) (metas : list Meta) (i : nat) (m : Meta) : Prop :=
  metas !! i = Some m
  ∧ meta_id m = item_id
  ∧ ∀ j y, metas !! j = Some y → (j < i)%nat → meta_id y ≠ item_id.

(** Two records that agree on every key but ['view_count']. *)
Definition same_but_view_count (m m' : Meta) : Prop :=
  meta_id m' = meta_id m
  ∧ meta_title m' = meta_title m
  ∧ meta_filename m' = meta_filename m
  ∧ meta_category m' = meta_category m
  ∧ meta_user_id m' = meta_user_id m
  ∧ meta_attachments m' = meta_attachments m
  ∧ meta_created_at m' = meta_created_at m
  ∧ meta_updated_at m' = meta_updated_at m
  ∧ meta_updated_by m' = meta_updated_by m.

(** Two states with the same files, clock and random source: they differ
    at most in the metadata file. *)
Definition same_outside_index (w w' : World) : Prop :=
  notes_dir w' = notes_dir w
  ∧ docs_dir w' = docs_dir w
  ∧ uploads_dir w' = uploads_dir w
  ∧ notes_uploads_dir w' = notes_uploads_dir w
  ∧ docs_uploads_dir w' = docs_uploads_dir w
  ∧ ticks w' = ticks w
  ∧ draws w' = draws w.

(** A store with two notes, the first one seen three times, and one
    document. *)
Definition store2 : World :=
  mkWorld {[ "1.txt" := "Discuss Q1 roadmap"; "2.txt" := "Milk, eggs" ]}
    {[ "1.txt" := "Welcome" ]} ∅ ∅ ∅
    (JsonOf {| notes := [mkMeta 1 "Meeting Notes" "1.txt" (Some "work") None (Some [])
                           (Some 3) 10 (Some 10) None;
                         mkMeta 2 "Shopping" "2.txt" (Some "personal") None (Some [])
                           (Some 0) 20 (Some 25) None];
               docs := [mkMeta 1 "Handbook" "1.txt" (Some "general") (Some 7) (Some [])
                          None 30 (Some 30) None] |})
    (λ n, 1000 + Z.of_nat n) 0 (λ _, "deadbeef") 0 (String LF EmptyString) (λ _ _, false)
    ascii_lower.

(** The record an update leaves at the place of [m]: the supplied title
    and category, the new ['updated_at'], every other key as [m] has it but
    ['updated_by'], which [update_note] sets when an editor is given. *)
Definition updated_from (m : Meta) (title category : option string) (now : Z) (m' : Meta)
  : Prop :=
  meta_updated_at m' = Some now
  ∧ meta_title m' = default (meta_title m) title
  ∧ meta_category m' = match category with Some c => Some c | None => meta_category m end
  ∧ meta_id m' = meta_id m
  ∧ meta_filename m' = meta_filename m
  ∧ meta_user_id m' = meta_user_id m
  ∧ meta_attachments m' = meta_attachments m
  ∧ meta_view_count m' = meta_view_count m
  ∧ meta_created_at m' = meta_created_at m.

(** The content directory after an update of the record [m]: rewritten in
    full at the record's file when a content is given, untouched
    otherwise. *)
Definition content_after (content : option string) (m : Meta) (w : World)
    (files files' : gmap string string) : Prop :=
  match content with
  | Some c => files' = <[meta_filename m := write_newlines (linesep w) c]> files
  | None => files' = files
  end.

(** A store ten bytes below the default quota, with one note and one
    document. *)
Definition nearly_full_store : World :=
  mkWorld {[ "1.txt" := "abc" ]} {[ "1.txt" := "hello" ]}
    {[ "archive.zip" := 2147483630 ]} ∅ ∅
    (JsonOf {| notes := [mkMeta 1 "Meeting Notes" "1.txt" (Some "work") None (Some [])
                           (Some 0) 10 (Some 10) None];
               docs := [mkMeta 1 "Handbook" "1.txt" (Some "general") None (Some [])
                          None 30 (Some 30) None] |})
    (λ n, 1000 + Z.of_nat n) 0 (λ _, "deadbeef") 0 (String LF EmptyString) (λ _ _, false)
    ascii_lower.

(** A store in which a note and a document each have one attachment whose
    file the operating system refuses to remove. *)
Definition locked_store : World :=
  mkWorld {[ "1.txt" := "abc" ]} {[ "1.txt" := "hello" ]} ∅
    {[ "1_cafebabe.pdf" := 20 ]} {[ "1_deadbeef.pdf" := 20 ]}
    (JsonOf {| notes := [mkMeta 1 "Meeting Notes" "1.txt" (Some "work") None
                           (Some [mkAttachment "1_cafebabe.pdf" "agenda.pdf" 12])
                           (Some 0) 10 (Some 12) None];
               docs := [mkMeta 1 "Handbook" "1.txt" (Some "general") None
                          (Some [mkAttachment "1_deadbeef.pdf" "report.pdf" 32])
                          None 30 (Some 32) None] |})
    (λ n, 1000 + Z.of_nat n) 0 (λ _, "deadbeef") 0 (String LF EmptyString) (λ _ _, true)
    ascii_lower.

(** The same store when the operating system refuses to remove the files
    of the upload directories only. *)
Definition locked_uploads_store : World :=
  mkWorld {[ "1.txt" := "abc" ]} {[ "1.txt" := "hello" ]} ∅
    {[ "1_cafebabe.pdf" := 20 ]} {[ "1_deadbeef.pdf" := 20 ]}
    (JsonOf {| notes := [mkMeta 1 "Meeting Notes" "1.txt" (Some "work") None
                           (Some [mkAttachment "1_cafebabe.pdf" "agenda.pdf" 12])
                           (Some 0) 10 (Some 12) None];
               docs := [mkMeta 1 "Handbook" "1.txt" (Some "general") None
                          (Some [mkAttachment "1_deadbeef.pdf" "report.pdf" 32])
                          None 30 (Some 32) None] |})
    (λ n, 1000 + Z.of_nat n) 0 (λ _, "deadbeef") 0 (String LF EmptyString)
    (λ d _, match d with NotesUploadsDir | DocsUploadsDir => true | _ => false end)
    ascii_lower.

(** A store in which the note 1 has two attachments, the file of the
    second one already missing, and the document 1 has one. *)
Definition store_with_attachments : World :=
  mkWorld {[ "1.txt" := "abc"; "2.txt" := "Milk, eggs" ]} {[ "1.txt" := "hello" ]} ∅
    {[ "1_cafebabe.pdf" := 20 ]} {[ "1_deadbeef.pdf" := 20 ]}
    (JsonOf {| notes := [mkMeta 1 "Meeting Notes" "1.txt" (Some "work") None
                           (Some [mkAttachment "1_cafebabe.pdf" "agenda.pdf" 12;
                                  mkAttachment "1_0badf00d.png" "chart.png" 14])
                           (Some 0) 10 (Some 14) None;
                         mkMeta 2 "Shopping" "2.txt" (Some "personal") None (Some [])
                           (Some 0) 20 (Some 25) None];
               docs := [mkMeta 1 "Handbook" "1.txt" (Some "general") None
                          (Some [mkAttachment "1_deadbeef.pdf" "report.pdf" 32])
                          None 30 (Some 32) None] |})
    (λ n, 1000 + Z.of_nat n) 0 (λ _, "deadbeef") 0 (String LF EmptyString) (λ _ _, false)
    ascii_lower.

(** ** What a listing is claimed to return *)

(** [needle] occurs in [hay]. *)
Definition contains (needle hay : string) : Prop :=
  ∃ before after, hay = before ++ needle ++ after.

(** The category arguments for which the listing does not filter: none
    given, the empty string, or the sentinel. *)
Definition no_category_filter (category : option string) : Prop :=
  category = None ∨ category = Some "" ∨ category = Some "all".

(** The title or the content contains the search query, letter case
    aside ([lower] is the [str.lower] of the runtime); no query or an empty
    one is contained in everything. *)
Definition query_matches (lower : string → string) (search_query : option string)
    (title content : string) : Prop :=
  match search_query with
  | None => True
  | Some q =>
      q = "" ∨ contains (lower q) (lower title) ∨ contains (lower q) (lower content)
  end.

(** The record [m] is one the loop of a listing keeps: the category it
    stores is the one asked for, its content file exists, and its title or
    the text of the file matches the query. *)
Definition listed (lower : string → string) (files : gmap string string)
    (category search_query : option string) (m : Meta) : Prop :=
  (no_category_filter category ∨ meta_category m = category)
  ∧ ∃ content, read_text (meta_filename m) files = Some content
               ∧ query_matches lower search_query (meta_title m) content.

(** The category of the object built from a record. *)
Definition category_of (m : Meta) : string := default "general" (meta_category m).

(** The record [m] is to be listed: the category of its object is the one
    asked for, its content file exists, and its title or the text of the
    file matches the query. *)
Definition to_be_listed (lower : string → string) (files : gmap string string)
    (category search_query : option string) (m : Meta) : Prop :=
  (no_category_filter category ∨ Some (category_of m) = category)
  ∧ ∃ content, read_text (meta_filename m) files = Some content
               ∧ query_matches lower search_query (meta_title m) content.

(** The one case left open: the category ["general"] is asked for and the
    record has no category of its own, its object showing the default. *)
Definition category_defaulted (category : option string) (m : Meta) : Prop :=
  category = Some "general" ∧ meta_category m = None.

(** The text of the content file of a record that has one. *)
Definition content_of (files : gmap string string) (m : Meta) : string :=
  default "" (read_text (meta_filename m) files).

(** [kept] is what remains of [l] when exactly the elements that satisfy
    [P] are kept, in the order of [l]. *)
Inductive selection {A} (P : A → Prop) : list A → list A → Prop :=
  | selection_nil : selection P [] []
  | selection_keep x l kept : P x → selection P l kept → selection P (x :: l) (x :: kept)
  | selection_skip x l kept : ¬ P x → selection P l kept → selection P (x :: l) kept.

(** The same, with nothing said of the elements that satisfy [open]:
    each of them may be kept or not. *)
Inductive selection_but {A} (P open : A → Prop) : list A → list A → Prop :=
  | selection_but_nil : selection_but P open [] []
  | selection_but_keep x l kept :
      P x → selection_but P open l kept → selection_but P open (x :: l) (x :: kept)
  | selection_but_skip x l kept :
      ¬ P x → selection_but P open l kept → selection_but P open (x :: l) kept
  | selection_but_open_keep x l kept :
      open x → selection_but P open l kept → selection_but P open (x :: l) (x :: kept)
  | selection_but_open_skip x l kept :
      open x → selection_but P open l kept → selection_but P open (x :: l) kept.

(** [l'] is [l] ordered by decreasing key, elements of equal key staying
    in the order they have in [l]. *)
Definition stably_sorted_desc {A} (key : A → Z) (l l' : list A) : Prop :=
  l' ≡ₚ l
  ∧ StronglySorted (λ a b, key b ≤ key a) l'
  ∧ ∀ t, filter (λ x, key x = t) l' = filter (λ x, key x = t) l.

(** [to_be_listed] with the category filter read as the claim words it:
    only the absence of a category and the sentinel ["all"] ask for no
    filtering. *)
Definition listed_as_stated (lower : string → string) (files : gmap string string)
    (category search_query : option string) (m : Meta) : Prop :=
  (category = None ∨ category = Some "all" ∨ Some (category_of m) = category)
  ∧ ∃ content, read_text (meta_filename m) files = Some content
               ∧ query_matches lower search_query (meta_title m) content.

(** ** Construction of the store *)

(** [FileStorage.__init__]: the directories are made if they are missing
    (they always exist here) and the index is written, empty, when there is
    no metadata file. *)
Definition __init__ (w : World) : World :=
  match metadata_file w with
  | NoFile => _save_metadata {| notes := []; docs := [] |} w
  | InvalidJson _ | JsonOf _ => w
  end.

(** ** Sequences of calls *)

(** A call of any method of the store. *)
Inductive Call :=
  | OnNotes (op : NoteOp)
  | OnDocs (op : DocOp).

(** The state after the calls made one after the other. *)
Fixpoint run_calls (secure_filename : string → string) (calls : list Call) (w : World)
  : World :=
  match calls with
  | [] => w
  | OnNotes op :: rest => run_calls secure_filename rest (note_step secure_filename op w)
  | OnDocs op :: rest => run_calls secure_filename rest (doc_step secure_filename op w)
  end.

(** The identifier a call on notes is made for, if it takes one. *)
Definition note_op_id (op : NoteOp) : option Z :=
  match op with
  | GetNote note_id | IncrementNoteViewCount note_id | UpdateNote note_id _ _ _ _
  | DeleteNote note_id | AddNoteAttachment note_id _ | DeleteNoteAttachment note_id _ =>
      Some note_id
  | CreateNote _ _ _ _ | GetAllNotes _ _ | GetNoteCategories => None
  end.

Definition doc_op_id (op : DocOp) : option Z :=
  match op with
  | GetDoc doc_id | UpdateDoc doc_id _ _ _ | DeleteDoc doc_id
  | AddDocAttachment doc_id _ | DeleteDocAttachment doc_id _ => Some doc_id
  | CreateDoc _ _ _ _ | GetAllDocs _ _ | GetDocCategories => None
  end.

(** ** Configuration ([config.py]) *)

(** [s[n:]]. *)
Fixpoint str_drop (n : nat) (s : string) : string :=
  match n, s with
  | O, _ => s
  | S n, String _ rest => str_drop n rest
  | S _, EmptyString => EmptyString
  end.

(** [s.replace(old, new, 1)]: the first occurrence of [old], from the
    left, is replaced. *)
Fixpoint replace_first (old new s : string) : string :=
  if String.prefix old s then new ++ str_drop (String.length old) s
  else
    match s with
    | EmptyString => EmptyString
    | String c rest => String c (replace_first old new rest)
    end.

(** [Config.SQLALCHEMY_DATABASE_URI] from the environment variable
    [DATABASE_URL] and the path [os.path.join(DATA_DIR, "database.db")]. *)
Definition SQLALCHEMY_DATABASE_URI (DATABASE_URL : option string) (database_path : string)
  : string :=
  let database_url :=
    if (truthy DATABASE_URL
        && String.prefix "postgres://" (default "" DATABASE_URL))%bool
    then Some (replace_first "postgres://" "postgresql://" (default "" DATABASE_URL))
    else DATABASE_URL in
  if truthy database_url then default "" database_url
  else "sqlite:///" ++ database_path.

(** The configuration classes, and their [DEBUG] and [TESTING] flags. *)
Inductive ConfigClass := DevelopmentConfig | ProductionConfig | TestingConfig.

Definition DEBUG (c : ConfigClass) : bool :=
  match c with
  | DevelopmentConfig | TestingConfig => true
  | ProductionConfig => false
  end.

Definition TESTING (c : ConfigClass) : bool :=
  match c with
  | DevelopmentConfig | ProductionConfig => false
  | TestingConfig => true
  end.

#[global] Instance ConfigClass_inhabited : Inhabited ConfigClass := populate DevelopmentConfig.

(** The dict [config]. *)
Definition config : gmap string ConfigClass :=
  {[ "development" := DevelopmentConfig;
     "production" := ProductionConfig;
     "testing" := TestingConfig;
     "default" := DevelopmentConfig ]}.

(** [get_config(env)], [FLASK_ENV] being the environment variable read
    when [env] is [None]. *)
Definition get_config (env : option string) (FLASK_ENV : option string) : ConfigClass :=
  let env :=
    match env with
    | None => default "development" FLASK_ENV
    | Some env => env
    end in
  default (config !!! "default") (config !! env).

(** ** Stores for the examples *)

(** The stored name [add_note_attachment] and [add_doc_attachment] give
    the next upload for [item_id]. *)
Definition next_stored_name (secure_filename : string → string) (item_id : Z)
    (uploaded_file : Upload) (w : World) : string :=
  str_of_int item_id ++ "_" ++ uuid_hex8 w (draws w)
  ++ splitext_ext (secure_filename (upload_filename uploaded_file)).

(** The attachment the next upload for [item_id] is recorded as. *)
Definition next_attachment (secure_filename : string → string) (item_id : Z)
    (uploaded_file : Upload) (w : World) : Attachment :=
  mkAttachment (next_stored_name secure_filename item_id uploaded_file w)
    (secure_filename (upload_filename uploaded_file)) (clock w (ticks w)).

(** A run of calls of both kinds on a fresh store. *)
Definition calls1 : list Call :=
  [OnNotes (CreateNote "Meeting Notes" "Discuss Q1 roadmap" "work" None);
   OnDocs (CreateDoc "Handbook" "Welcome" "general" (Some 7));
   OnNotes (CreateNote "Shopping" "Milk, eggs" "personal" None);
   OnNotes (DeleteNote 1);
   OnNotes (CreateNote "Agenda" "Budget" "work" None);
   OnDocs (UpdateDoc 1 (Some "Staff handbook") None None);
   OnNotes (AddNoteAttachment 3 (mkUpload "budget.xlsx" 2048))].

(** A store whose note 1 has lost its content file. *)
Definition store_missing_file : World :=
  mkWorld {[ "2.txt" := "Milk, eggs" ]} ∅ ∅ ∅ ∅
    (JsonOf {| notes := [mkMeta 1 "Meeting Notes" "1.txt" (Some "work") None (Some [])
                           (Some 3) 10 (Some 10) None;
                         mkMeta 2 "Shopping" "2.txt" (Some "personal") None (Some [])
                           (Some 0) 20 (Some 25) None];
               docs := [] |})
    (λ n, 1000 + Z.of_nat n) 0 (λ _, "deadbeef") 0 (String LF EmptyString) (λ _ _, false)
    ascii_lower.

(** A store in which a record has no category, two share one, and letter
    case differs. *)
Definition store_categories : World :=
  mkWorld {[ "1.txt" := "a"; "2.txt" := "b"; "3.txt" := "c"; "4.txt" := "d" ]} ∅ ∅ ∅ ∅
    (JsonOf {| notes := [mkMeta 1 "One" "1.txt" (Some "work") None (Some []) (Some 0) 10
                           (Some 10) None;
                         mkMeta 2 "Two" "2.txt" None None None None 20 None None;
                         mkMeta 3 "Three" "3.txt" (Some "Work") None (Some []) (Some 0) 30
                           (Some 30) None;
                         mkMeta 4 "Four" "4.txt" (Some "work") None (Some []) (Some 0) 40
                           (Some 40) None];
               docs := [] |})
    (λ n, 1000 + Z.of_nat n) 0 (λ _, "deadbeef") 0 (String LF EmptyString) (λ _ _, false)
    ascii_lower.

(** The content file of every record is named after its identifier, as
    [create_note] and [create_doc] name it. *)
Definition named_by_id (metas : list Meta) : Prop :=
  ∀ m, m ∈ metas → meta_filename m = str_of_int (meta_id m) ++ ".txt".

(** The identifier a call on notes acts on: the one given, or the one
    [create_note] allocates. *)
Definition note_op_target (op : NoteOp) (w : World) : option Z :=
  match op with
  | CreateNote _ _ _ _ => Some (get_next_id note w)
  | _ => note_op_id op
  end.

Definition doc_op_target (op : DocOp) (w : World) : option Z :=
  match op with
  | CreateDoc _ _ _ _ => Some (get_next_id doc w)
  | _ => doc_op_id op
  end.

(** * Properties *)

(** ** Identifier allocation *)

Section Allocation.

Lemma max_id_upper m rest x : x ∈ m :: rest → meta_id x ≤ max_id m rest.
Proof.
  revert m x. induction rest as [|m' rest IH]; intros m x Hx; simpl.
  - apply list_elem_of_singleton in Hx. subst. lia.
  - apply elem_of_cons in Hx as [->|Hx]; [lia|].
    specialize (IH _ _ Hx). lia.
Qed.

Lemma max_id_attained m rest : ∃ x, x ∈ m :: rest ∧ meta_id x = max_id m rest.
Proof.
  revert m. induction rest as [|m' rest IH]; intros m; simpl.
  - exists m. split; [left|done].
  - destruct (IH m') as (x & Hx & Hmax).
    destruct (Z.max_spec (meta_id m) (max_id m' rest)) as [[_ ->]|[_ ->]].
    + exists x. split; [by right|done].
    + exists m. split; [left|done].
Qed.

Lemma next_id_above item_type w x :
  x ∈ items_of item_type (_load_metadata w) → meta_id x < get_next_id item_type w.
Proof.
  unfold get_next_id. destruct (items_of _ _) as [|m rest]; [by intros ?%elem_of_nil|].
  intros Hx%max_id_upper. lia.
Qed.

Lemma next_id_seq item_type w k :
  meta_id <$> items_of item_type (_load_metadata w) = Z.of_nat <$> seq 1 k →
  get_next_id item_type w = Z.of_nat k + 1.
Proof.
  unfold get_next_id. intros Hids.
  destruct (items_of _ _) as [|m rest] eqn:Hitems.
  - destruct k; [done|discriminate].
  - destruct (max_id_attained m rest) as (x & Hx & Hmax).
    assert (Hin : ∀ y, y ∈ m :: rest → 1 ≤ meta_id y ≤ Z.of_nat k).
    { intros y Hy. apply (list_elem_of_fmap_2 meta_id) in Hy. rewrite Hids in Hy.
      apply list_elem_of_fmap in Hy as (n & -> & Hn%elem_of_seq). lia. }
    assert (Hk : Z.of_nat k ∈ meta_id <$> m :: rest).
    { rewrite Hids. apply list_elem_of_fmap. exists k. split; [done|].
      apply elem_of_seq. destruct k; [discriminate|lia]. }
    apply list_elem_of_fmap in Hk as (y & Hy & Hyin).
    pose proof (max_id_upper _ _ _ Hyin). pose proof (Hin x Hx). lia.
Qed.

End Allocation.
Section Creation.

Lemma get_note_in_fresh files note_id l rest :
  (∀ x, x ∈ l → meta_id x ≠ note_id) →
  get_note_in files note_id (l ++ rest)%list = get_note_in files note_id rest.
Proof.
  induction l as [|m l IH]; intros Hfresh; [done|]. simpl.
  destruct (decide (meta_id m = note_id)) as [Heq|_].
  - exfalso. apply (Hfresh m); [left|done].
  - apply IH. intros x Hx. apply Hfresh. by right.
Qed.

Lemma get_doc_in_fresh files doc_id l rest :
  (∀ x, x ∈ l → meta_id x ≠ doc_id) →
  get_doc_in files doc_id (l ++ rest)%list = get_doc_in files doc_id rest.
Proof.
  induction l as [|m l IH]; intros Hfresh; [done|]. simpl.
  destruct (decide (meta_id m = doc_id)) as [Heq|_].
  - exfalso. apply (Hfresh m); [left|done].
  - apply IH. intros x Hx. apply Hfresh. by right.
Qed.

Lemma read_text_written name content w files :
  read_text name (write_text name content w files)
  = Some (read_newlines (write_newlines (linesep w) content)).
Proof. unfold read_text, write_text. by rewrite lookup_insert_eq. Qed.

Lemma create_note_spec title content category user_id w :
  fst (create_note title content category user_id w)
  = Some (Note_of (created_note_meta title category user_id w)
            (read_newlines (write_newlines (linesep w) content)))
  ∧ _load_metadata (snd (create_note title content category user_id w))
      = {| notes := (notes (_load_metadata w) ++ [created_note_meta title category user_id w])%list;
           docs := docs (_load_metadata w) |}.
Proof.
  split; [|reflexivity].
  unfold create_note. simpl.
  unfold get_note. simpl.
  rewrite get_note_in_fresh.
  - simpl. rewrite decide_True by done. by rewrite read_text_written.
  - intros x Hx. pose proof (next_id_above note w x Hx). lia.
Qed.

Lemma create_doc_spec title content category user_id w :
  fst (create_doc title content category user_id w)
  = Some (Document_of (created_doc_meta title category user_id w)
            (read_newlines (write_newlines (linesep w) content)))
  ∧ _load_metadata (snd (create_doc title content category user_id w))
      = {| notes := notes (_load_metadata w);
           docs := (docs (_load_metadata w) ++ [created_doc_meta title category user_id w])%list |}.
Proof.
  split; [|reflexivity].
  unfold create_doc. simpl.
  unfold get_doc. simpl.
  rewrite get_doc_in_fresh.
  - simpl. rewrite decide_True by done. by rewrite read_text_written.
  - intros x Hx. pose proof (next_id_above doc w x Hx). lia.
Qed.

End Creation.

Section Sequences.

Lemma ids_extend (l : list Meta) (m : Meta) k :
  meta_id <$> l = Z.of_nat <$> seq 1 k →
  meta_id m = Z.of_nat k + 1 →
  meta_id <$> (l ++ [m])%list = Z.of_nat <$> seq 1 (S k).
Proof.
  intros Hl Hm. rewrite fmap_app, Hl, seq_S, fmap_app. simpl.
  do 2 f_equal. rewrite Hm. lia.
Qed.

Lemma run_creates_ids calls : ∀ w kn kd,
  meta_id <$> notes (_load_metadata w) = Z.of_nat <$> seq 1 kn →
  meta_id <$> docs (_load_metadata w) = Z.of_nat <$> seq 1 kd →
  ids_of note (run_creates calls w)
  = (λ k, Some (Z.of_nat k)) <$> seq (S kn) (count_calls note calls)
  ∧ ids_of doc (run_creates calls w)
    = (λ k, Some (Z.of_nat k)) <$> seq (S kd) (count_calls doc calls).
Proof.
  induction calls as [|c calls IH]; intros w kn kd Hn Hd; [done|].
  unfold count_calls, ids_of in *. cbn [run_creates]. destruct (call_type c) eqn:Hc.
  - destruct (create_note_spec (call_title c) (call_content c) (call_category c)
                (call_user_id c) w) as [Hr Hw].
    destruct (create_note _ _ _ _ w) as [r w']. simpl in Hr, Hw. subst r.
    pose proof (next_id_seq note w kn Hn) as Hnext.
    destruct (IH w' (S kn) kd) as [IHn IHd].
    { rewrite Hw. simpl. by apply ids_extend. }
    { rewrite Hw. exact Hd. }
    rewrite !filter_cons. cbn [fst]. rewrite Hc.
    rewrite (decide_True (P := note = note)) by done.
    rewrite (decide_False (P := note = doc)) by done.
    split; [|exact IHd]. simpl.
    f_equal; [rewrite Hnext; f_equal; lia|exact IHn].
  - destruct (create_doc_spec (call_title c) (call_content c) (call_category c)
                (call_user_id c) w) as [Hr Hw].
    destruct (create_doc _ _ _ _ w) as [r w']. simpl in Hr, Hw. subst r.
    pose proof (next_id_seq doc w kd Hd) as Hnext.
    destruct (IH w' kn (S kd)) as [IHn IHd].
    { rewrite Hw. exact Hn. }
    { rewrite Hw. simpl. by apply ids_extend. }
    rewrite !filter_cons. cbn [fst]. rewrite Hc.
    rewrite (decide_True (P := doc = doc)) by done.
    rewrite (decide_False (P := doc = note)) by done.
    split; [exact IHn|]. simpl.
    f_equal; [rewrite Hnext; f_equal; lia|exact IHd].
Qed.

End Sequences.

(** C4.  [get_next_id] returns 1 for a kind without records and otherwise
    one more than the largest identifier of the kind; and the calls of
    [create_note] and [create_doc] made on a store whose index is empty,
    in any interleaving, return objects numbered 1, 2, 3, ... within each
    kind, in call order. *)
Theorem get_next_id_allocates_in_call_order (w : World) (calls : list CreateCall) :
  (∀ item_type,
     match items_of item_type (_load_metadata w) with
     | [] => get_next_id item_type w = 1
     | items =>
         (∀ x, x ∈ items → meta_id x ≤ get_next_id item_type w - 1)
         ∧ ∃ x, x ∈ items ∧ get_next_id item_type w = meta_id x + 1
     end)
  ∧ (_load_metadata w = empty_index →
     ∀ item_type,
       ids_of item_type (run_creates calls w)
       = (λ k, Some (Z.of_nat k)) <$> seq 1 (count_calls item_type calls)).
Proof.
  split.
  - intros item_type. unfold get_next_id.
    destruct (items_of item_type (_load_metadata w)) as [|m rest] eqn:Hitems; [done|].
    split.
    + intros x Hx%max_id_upper. lia.
    + destruct (max_id_attained m rest) as (x & Hx & Hmax). exists x. split; [done|lia].
  - intros Hempty item_type.
    destruct (run_creates_ids calls w 0 0) as [Hn Hd]; [by rewrite Hempty..|].
    by destruct item_type.
Qed.

Lemma get_next_id_allocates_in_call_order_witness :
  ids_of note (run_creates calls0 store0) = [Some 1; Some 2]
  ∧ ids_of doc (run_creates calls0 store0) = [Some 1].
Proof.
  pose proof (proj2 (get_next_id_allocates_in_call_order store0 calls0) eq_refl) as H.
  split; [exact (H note)|exact (H doc)].
Defined.

(** ** Creation followed by a read *)

Section RoundTrip.

(** Text without carriage returns is read back as it was written, on a
    platform whose line separator is a line feed or a carriage return
    followed by one. *)
Lemma newlines_round_trip sep s :
  sep = String LF EmptyString ∨ sep = String CR (String LF EmptyString) →
  has_char CR s = false →
  read_newlines (write_newlines sep s) = s.
Proof.
  intros Hsep. induction s as [|c s IH]; intros Hcr; [done|].
  simpl in Hcr. apply orb_false_elim in Hcr as [Hc Hs]. specialize (IH Hs).
  simpl. destruct (Ascii.eqb c LF) eqn:Hlf.
  - apply Ascii.eqb_eq in Hlf as ->.
    destruct Hsep as [-> | ->].
    + change (read_newlines (String LF (write_newlines (String LF EmptyString) s))
              = String LF s).
      change (String LF (read_newlines (write_newlines (String LF EmptyString) s))
              = String LF s).
      by rewrite IH.
    + change (String LF (read_newlines
                (write_newlines (String CR (String LF EmptyString)) s)) = String LF s).
      by rewrite IH.
  - cbn [read_newlines]. rewrite Hc. by rewrite IH.
Qed.

(** X24.  What [create_note] hands back, whatever the store: the object
    [get_note] builds for the new identifier, carrying the title, the
    text as it is read back from the content file, no attachment, no
    view, and the two readings of the clock. *)
Lemma create_note_returns title content category user_id w :
  fst (create_note title content category user_id w)
  = get_note (get_next_id note w) (snd (create_note title content category user_id w))
  ∧ fst (create_note title content category user_id w)
    = Some {| note_id := get_next_id note w;
              note_title := title;
              note_content := read_newlines (write_newlines (linesep w) content);
              note_category := category;
              note_user_id := user_id;
              note_attachments := [];
              note_view_count := 0;
              note_created_at := clock w (ticks w);
              note_updated_at := clock w (S (ticks w));
              note_updated_by := None |}.
Proof.
  split; [reflexivity|]. by destruct (create_note_spec title content category user_id w) as [-> _].
Qed.

(** X25.  What [create_doc] hands back, whatever the store: the object
    [get_doc] builds for the new identifier, with the same attributes as a
    note but no view count. *)
Lemma create_doc_returns title content category user_id w :
  fst (create_doc title content category user_id w)
  = get_doc (get_next_id doc w) (snd (create_doc title content category user_id w))
  ∧ fst (create_doc title content category user_id w)
    = Some {| doc_id := get_next_id doc w;
              doc_title := title;
              doc_content := read_newlines (write_newlines (linesep w) content);
              doc_category := category;
              doc_user_id := user_id;
              doc_attachments := [];
              doc_created_at := clock w (ticks w);
              doc_updated_at := clock w (S (ticks w)) |}.
Proof.
  split; [reflexivity|]. by destruct (create_doc_spec title content category user_id w) as [-> _].
Qed.

End RoundTrip.

(** C2.  On a store whose clock advances between two readings, the note
    and the document that [create_note] and [create_doc] return, which are
    the ones [get_note] and [get_doc] read back, carry the title and the
    content given, no attachment and no view, but an ['updated_at'] later
    than their ['created_at']: the two timestamps of the new record are
    two calls of [datetime.utcnow]. *)
Theorem create_reads_clock_twice :
  (∃ n, get_note 1 (snd (create_note "Meeting Notes" "Discuss Q1 roadmap" "work" None store0))
        = Some n
        ∧ fst (create_note "Meeting Notes" "Discuss Q1 roadmap" "work" None store0) = Some n
        ∧ note_title n = "Meeting Notes" ∧ note_content n = "Discuss Q1 roadmap"
        ∧ note_attachments n = [] ∧ note_view_count n = 0
        ∧ note_created_at n = 1000 ∧ note_updated_at n = 1001)
  ∧ (∃ d, get_doc 1 (snd (create_doc "Handbook" "Welcome" "general" None store0)) = Some d
        ∧ fst (create_doc "Handbook" "Welcome" "general" None store0) = Some d
        ∧ doc_title d = "Handbook" ∧ doc_content d = "Welcome"
        ∧ doc_attachments d = []
        ∧ doc_created_at d = 1000 ∧ doc_updated_at d = 1001).
Proof.
  split; eexists; (split; [vm_compute; reflexivity|]); repeat split.
Qed.

(** A line ending written by a browser does not survive the round trip
    through the content file. *)
Example create_note_reads_line_feeds :
  note_content <$>
    fst (create_note "Todo" (String "a" (String CR (String LF "b"))) "general" None store0)
  = Some (String "a" (String LF "b")).
Proof. vm_compute. reflexivity. Qed.

(** ** Recovery from an unreadable index *)

(** C3.  [_load_metadata] is total: it yields an index for every state of
    the metadata file, and the empty index when the file is missing or is
    not JSON; every method that only reads then finds nothing: no note, no
    document, empty listings for every filter, no category. *)
Theorem load_metadata_recovers_empty (w : World) :
  unreadable (metadata_file w) →
  _load_metadata w = {| notes := []; docs := [] |}
  ∧ (∀ note_id, get_note note_id w = None)
  ∧ (∀ doc_id, get_doc doc_id w = None)
  ∧ (∀ category search_query, get_all_notes category search_query w = [])
  ∧ (∀ category search_query, get_all_docs category search_query w = [])
  ∧ get_note_categories w = []
  ∧ get_doc_categories w = [].
Proof.
  intros Hbad.
  assert (Hload : _load_metadata w = empty_index).
  { unfold _load_metadata. by destruct (metadata_file w). }
  unfold get_note, get_doc, get_all_notes, get_all_docs, get_note_categories,
    get_doc_categories.
  rewrite Hload. by repeat split.
Qed.

Lemma load_metadata_recovers_empty_witness :
  unreadable (metadata_file corrupt_store)
  ∧ get_all_notes (Some "all") None corrupt_store = []
  ∧ get_note 1 corrupt_store = None.
Proof.
  split; [exact I|].
  pose proof (load_metadata_recovers_empty corrupt_store I) as (_ & Hget & _ & Hall & _).
  split; [apply Hall|apply Hget].
Defined.

(** ** Kind isolation *)

Ltac step_frame :=
  repeat match goal with
  | |- context [match ?x with _ => _ end] => destruct x eqn:?; simpl
  | |- context [let '(_, _) := ?x in _] => destruct x eqn:?; simpl
  end; try reflexivity.

(** C10.  Whatever method is called on notes, with whatever arguments and
    whether it returns or raises, the documents of the index are afterwards
    what they were; and the notes of the index are untouched by every
    method called on documents. *)
Theorem kind_isolation (secure_filename : string -> string) (w : World) :
  (∀ op : NoteOp,
     docs (_load_metadata (note_step secure_filename op w)) = docs (_load_metadata w))
  ∧ (∀ op : DocOp,
     notes (_load_metadata (doc_step secure_filename op w)) = notes (_load_metadata w)).
Proof.
  split; intros []; simpl; try reflexivity.
  all: cbv [create_note create_doc increment_note_view_count update_note update_doc
            delete_note delete_doc add_note_attachment add_doc_attachment
            delete_note_attachment delete_doc_attachment check_storage_available
            utcnow uuid4_hex8].
  all: step_frame.
Qed.

(** ** Lookups by identifier *)

Section Lookup.

Lemma find_by_id_first item_id metas i m :
  find_by_id item_id metas = Some (i, m) ↔ first_with_id item_id metas i m.
Proof.
  unfold find_by_id, first_with_id. rewrite list_find_Some.
  split; intros (Hi & Hid & Hbefore); repeat split; try done;
    intros j y Hj Hlt Heq; by apply (Hbefore j y).
Qed.

Lemma find_by_id_absent item_id metas :
  find_by_id item_id metas = None ↔ ∀ x, x ∈ metas → meta_id x ≠ item_id.
Proof. unfold find_by_id. rewrite list_find_None, Forall_forall. done. Qed.

End Lookup.

(** ** View counts *)

(** C8.  [increment_note_view_count] returns [False] and changes nothing
    when no note has the identifier.  Otherwise it returns [True] and saves
    an index in which the first note with the identifier has its view count
    (0 when the key is absent) raised by exactly one and every other key as
    before, ['updated_at'] included; every other note, the documents, the
    files and the clock are as before. *)
Theorem increment_note_view_count_frame (note_id : Z) (w : World) :
  let metadata := _load_metadata w in
  let result := fst (increment_note_view_count note_id w) in
  let w' := snd (increment_note_view_count note_id w) in
  ((∀ m, m ∈ notes metadata → meta_id m ≠ note_id) → result = false ∧ w' = w)
  ∧ (∀ i m, first_with_id note_id (notes metadata) i m →
       result = true
       ∧ metadata_file w' = JsonOf (_load_metadata w')
       ∧ same_outside_index w w'
       ∧ docs (_load_metadata w') = docs metadata
       ∧ length (notes (_load_metadata w')) = length (notes metadata)
       ∧ (∀ j, j ≠ i → notes (_load_metadata w') !! j = notes metadata !! j)
       ∧ ∃ m', notes (_load_metadata w') !! i = Some m'
               ∧ meta_view_count m' = Some (default 0 (meta_view_count m) + 1)
               ∧ same_but_view_count m m').
Proof.
  simpl. unfold increment_note_view_count. split.
  - intros Habsent%find_by_id_absent. by rewrite Habsent.
  - intros i m Hfirst. pose proof Hfirst as (Hi & _ & _).
    apply find_by_id_first in Hfirst. rewrite Hfirst. simpl.
    repeat split.
    + apply length_insert.
    + intros j Hj. by apply list_lookup_insert_ne.
    + eexists. split; [apply list_lookup_insert_eq; by eapply lookup_lt_Some|].
      by repeat split.
Qed.

Lemma increment_note_view_count_frame_witness :
  fst (increment_note_view_count 1 store2) = true
  ∧ (∃ m', notes (_load_metadata (snd (increment_note_view_count 1 store2))) !! 0%nat = Some m'
           ∧ meta_view_count m' = Some 4
           ∧ meta_updated_at m' = Some 10)
  ∧ fst (increment_note_view_count 9 store2) = false.
Proof.
  pose proof (increment_note_view_count_frame 1 store2) as [_ Hfound].
  pose proof (increment_note_view_count_frame 9 store2) as [Habsent _].
  simpl in Hfound, Habsent.
  destruct (Hfound 0%nat (mkMeta 1 "Meeting Notes" "1.txt" (Some "work") None (Some [])
                            (Some 3) 10 (Some 10) None))
    as (Hres & _ & _ & _ & _ & _ & m' & Hm' & Hcount & Hsame).
  { repeat split. intros j y _ Hj. lia. }
  split; [exact Hres|]. split.
  - exists m'. split; [exact Hm'|]. split; [exact Hcount|].
    destruct Hsame as (_ & _ & _ & _ & _ & _ & _ & Hupd & _). exact Hupd.
  - apply Habsent. intros m Hm.
    apply elem_of_cons in Hm as [->|Hm]; [done|].
    apply list_elem_of_singleton in Hm as ->. done.
Defined.

(** ** Updates *)

Section Updates.

Lemma apply_fields_absent w files m : apply_fields None None None w files m = (m, files, false).
Proof. reflexivity. Qed.

Lemma apply_fields_supplied title content category w files m :
  title ≠ None ∨ content ≠ None ∨ category ≠ None →
  ∃ m' files',
    apply_fields title content category w files m = (m', files', true)
    ∧ content_after content m w files files'
    ∧ ∀ now, updated_from m title category now (set_updated_at now m')
             ∧ meta_updated_by (set_updated_at now m') = meta_updated_by m.
Proof.
  intros Hsome. unfold apply_fields.
  destruct title as [t|], category as [c|], content as [x|]; simpl;
    try (destruct Hsome as [?|[?|?]]; congruence);
    eexists _, _; (split; [reflexivity|]); split; try reflexivity;
    intros now; by repeat split.
Qed.

End Updates.

(** C6.  [update_note] and [update_doc] called without title, content and
    category return [False] and leave the state as it is, ['updated_at']
    included; called for an identifier that no record carries they return
    [False] and leave the state as it is; called with at least one of the
    three for an identifier that a record carries they return [True], give
    the first such record the fields supplied and the current reading of
    the clock as ['updated_at'], rewrite the content file when a content is
    given, and save the index, in which nothing else has changed. *)
Theorem update_changes_only_what_is_supplied
    (item_id : Z) (title content category : option string) (user_id : option Z) (w : World) :
  let metadata := _load_metadata w in
  let note_result := update_note item_id title content category user_id w in
  let doc_result := update_doc item_id title content category w in
  (update_note item_id None None None user_id w = (false, w)
   ∧ update_doc item_id None None None w = (false, w))
  ∧ ((∀ m, m ∈ notes metadata → meta_id m ≠ item_id) → note_result = (false, w))
  ∧ ((∀ m, m ∈ docs metadata → meta_id m ≠ item_id) → doc_result = (false, w))
  ∧ (title ≠ None ∨ content ≠ None ∨ category ≠ None →
     (∀ i m, first_with_id item_id (notes metadata) i m →
        fst note_result = true
        ∧ metadata_file (snd note_result) = JsonOf (_load_metadata (snd note_result))
        ∧ docs (_load_metadata (snd note_result)) = docs metadata
        ∧ length (notes (_load_metadata (snd note_result))) = length (notes metadata)
        ∧ (∀ j, j ≠ i → notes (_load_metadata (snd note_result)) !! j = notes metadata !! j)
        ∧ content_after content m w (notes_dir w) (notes_dir (snd note_result))
        ∧ ∃ m', notes (_load_metadata (snd note_result)) !! i = Some m'
                ∧ updated_from m title category (clock w (ticks w)) m'
                ∧ meta_updated_by m'
                  = match user_id with Some u => Some u | None => meta_updated_by m end)
     ∧ (∀ i m, first_with_id item_id (docs metadata) i m →
        fst doc_result = true
        ∧ metadata_file (snd doc_result) = JsonOf (_load_metadata (snd doc_result))
        ∧ notes (_load_metadata (snd doc_result)) = notes metadata
        ∧ length (docs (_load_metadata (snd doc_result))) = length (docs metadata)
        ∧ (∀ j, j ≠ i → docs (_load_metadata (snd doc_result)) !! j = docs metadata !! j)
        ∧ content_after content m w (docs_dir w) (docs_dir (snd doc_result))
        ∧ ∃ m', docs (_load_metadata (snd doc_result)) !! i = Some m'
                ∧ updated_from m title category (clock w (ticks w)) m'
                ∧ meta_updated_by m' = meta_updated_by m)).
Proof.
  simpl. split; [|split; [|split]].
  - unfold update_note, update_doc. split.
    + destruct (find_by_id item_id (notes (_load_metadata w))) as [[i m]|]; reflexivity.
    + destruct (find_by_id item_id (docs (_load_metadata w))) as [[i m]|]; reflexivity.
  - intros Habsent%find_by_id_absent. unfold update_note. by rewrite Habsent.
  - intros Habsent%find_by_id_absent. unfold update_doc. by rewrite Habsent.
  - intros Hsome. split; intros i m Hfirst; pose proof Hfirst as (Hi & _ & _);
      apply find_by_id_first in Hfirst.
    + unfold update_note. rewrite Hfirst.
      destruct (apply_fields_supplied title content category w (notes_dir w) m Hsome)
        as (m1 & files' & -> & Hfiles & Hm1).
      simpl. split; [done|]. split; [done|]. split; [done|].
      split; [apply length_insert|].
      split; [intros j Hj; by apply list_lookup_insert_ne|].
      split; [done|].
      eexists. split; [apply list_lookup_insert_eq; by eapply lookup_lt_Some|].
      destruct (Hm1 (clock w (ticks w))) as [Hupd Hby].
      destruct user_id as [u|]; [|done].
      split; [|done]. exact Hupd.
    + unfold update_doc. rewrite Hfirst.
      destruct (apply_fields_supplied title content category w (docs_dir w) m Hsome)
        as (m1 & files' & -> & Hfiles & Hm1).
      simpl. split; [done|]. split; [done|]. split; [done|].
      split; [apply length_insert|].
      split; [intros j Hj; by apply list_lookup_insert_ne|].
      split; [done|].
      eexists. split; [apply list_lookup_insert_eq; by eapply lookup_lt_Some|].
      exact (Hm1 (clock w (ticks w))).
Qed.

Lemma update_changes_only_what_is_supplied_witness :
  update_note 1 None None None (Some 5) store2 = (false, store2)
  ∧ update_note 9 (Some "Agenda") None None None store2 = (false, store2)
  ∧ fst (update_note 1 None (Some "New agenda") None (Some 5) store2) = true
  ∧ ∃ m', notes (_load_metadata (snd (update_note 1 None (Some "New agenda") None (Some 5)
                                        store2))) !! 0%nat = Some m'
          ∧ meta_updated_at m' = Some 1000.
Proof.
  pose proof (update_changes_only_what_is_supplied 1 None None None (Some 5) store2)
    as [[Hnone _] _].
  pose proof (update_changes_only_what_is_supplied 9 (Some "Agenda") None None None store2)
    as (_ & Habsent & _).
  pose proof (update_changes_only_what_is_supplied 1 None (Some "New agenda") None (Some 5)
                store2) as (_ & _ & _ & Hsupplied).
  simpl in Habsent, Hsupplied.
  split; [exact Hnone|]. split.
  { apply Habsent. intros m Hm.
    apply elem_of_cons in Hm as [->|Hm]; [done|].
    apply list_elem_of_singleton in Hm as ->. done. }
  destruct Hsupplied as [Hnotes _]; [right; left; discriminate|].
  destruct (Hnotes 0%nat (mkMeta 1 "Meeting Notes" "1.txt" (Some "work") None (Some [])
                            (Some 3) 10 (Some 10) None))
    as (Hres & _ & _ & _ & _ & _ & m' & Hm' & Hupd & _).
  { repeat split. intros j y _ Hj. lia. }
  split; [exact Hres|]. exists m'. split; [exact Hm'|]. by destruct Hupd as [-> _].
Defined.

(** ** The storage quota *)

(** An upload to a note that would pass the quota is refused before
    anything is read or written: the state is the one found. *)
Lemma add_note_attachment_over_quota secure_filename note_id uploaded_file w :
  get_total_storage_size w + upload_size uploaded_file > default_max_storage →
  add_note_attachment secure_filename note_id uploaded_file w
  = ((false, MsgQuota (get_total_storage_size w) default_max_storage), w).
Proof.
  intros Hover. unfold add_note_attachment, check_storage_available.
  destruct (_ >? _) eqn:Hgt; [done|]. rewrite Z.gtb_ltb in Hgt. apply Z.ltb_ge in Hgt. lia.
Qed.

(** C1.  On a store ten bytes below the quota, an upload of twenty bytes
    to a note is refused with the used and allowed figures and the state is
    untouched, while the same upload to a document is accepted:
    [add_doc_attachment] does not call [check_storage_available], the file
    is written, the index gets the attachment and the usage ends ten bytes
    above the quota. *)
Theorem add_doc_attachment_ignores_quota :
  get_total_storage_size nearly_full_store = default_max_storage - 10
  ∧ add_note_attachment (λ name, name) 1 (mkUpload "report.pdf" 20) nearly_full_store
    = ((false, MsgQuota 2147483638 2147483648), nearly_full_store)
  ∧ fst (add_doc_attachment (λ name, name) 1 (mkUpload "report.pdf" 20) nearly_full_store)
    = true
  ∧ docs_uploads_dir
      (snd (add_doc_attachment (λ name, name) 1 (mkUpload "report.pdf" 20) nearly_full_store))
    !! "1_deadbeef.pdf" = Some 20
  ∧ (meta_attachments <$>
     docs (_load_metadata
             (snd (add_doc_attachment (λ name, name) 1 (mkUpload "report.pdf" 20)
                     nearly_full_store))))
    = [Some [mkAttachment "1_deadbeef.pdf" "report.pdf" 1000]]
  ∧ get_total_storage_size
      (snd (add_doc_attachment (λ name, name) 1 (mkUpload "report.pdf" 20) nearly_full_store))
    = default_max_storage + 10.
Proof.
  split; [by vm_compute|].
  split; [by apply add_note_attachment_over_quota|].
  repeat split; by vm_compute.
Qed.

(** ** Removal of attachments *)

Section AttachmentRemoval.

Lemma locate_attachment_None item_id name metas :
  locate_attachment item_id name metas = None ↔
  ∀ m, m ∈ metas → meta_id m = item_id →
       ∀ a, a ∈ default [] (meta_attachments m) → att_filename a ≠ name.
Proof.
  induction metas as [|m metas IH]; simpl.
  - split; [intros _ m Hm; by apply elem_of_nil in Hm|done].
  - destruct (decide (meta_id m = item_id)) as [Hid|Hid].
    + destruct (list_find _ _) as [[k a]|] eqn:Hfind.
      * split; [done|]. intros Hnone. exfalso.
        apply list_find_Some in Hfind as (Hk & Ha & _).
        apply (Hnone m) with (a := a); [left|done| |done].
        by eapply list_elem_of_lookup_2.
      * apply list_find_None in Hfind. rewrite Forall_forall in Hfind.
        destruct (locate_attachment item_id name metas) as [[[i m'] a]|].
        -- split; [done|]. intros Hnone.
           assert (Some (i, m', a) = @None (nat * Meta * Attachment)) as Hbad; [|done].
           apply IH. intros x Hx. apply Hnone. by right.
        -- split; [|done]. intros _ x Hx Hxid a Ha.
           apply elem_of_cons in Hx as [->|Hx]; [by apply Hfind|].
           by apply (proj1 IH eq_refl x).
    + destruct (locate_attachment item_id name metas) as [[[i m'] a]|].
      * split; [done|]. intros Hnone.
        assert (Some (i, m', a) = @None (nat * Meta * Attachment)) as Hbad; [|done].
        apply IH. intros x Hx. apply Hnone. by right.
      * split; [|done]. intros _ x Hx Hxid a Ha.
        apply elem_of_cons in Hx as [->|Hx]; [done|].
        by apply (proj1 IH eq_refl x).
Qed.

Lemma locate_attachment_Some item_id name metas i m a :
  locate_attachment item_id name metas = Some (i, m, a) →
  metas !! i = Some m ∧ meta_id m = item_id
  ∧ a ∈ default [] (meta_attachments m) ∧ att_filename a = name.
Proof.
  revert i. induction metas as [|m0 metas IH]; intros i; simpl; [done|].
  assert (Hlater :
    match locate_attachment item_id name metas with
    | Some (i0, m', a0) => Some (S i0, m', a0)
    | None => None
    end = Some (i, m, a) →
    (m0 :: metas) !! i = Some m ∧ meta_id m = item_id
    ∧ a ∈ default [] (meta_attachments m) ∧ att_filename a = name).
  { destruct (locate_attachment item_id name metas) as [[[i0 m'] a0]|]; [|done].
    intros [= <- <- <-]. by apply IH. }
  destruct (decide (meta_id m0 = item_id)) as [Hid|Hid]; [|done].
  destruct (list_find _ _) as [[k a0]|] eqn:Hfind; [|done].
  intros [= <- <- <-]. apply list_find_Some in Hfind as (Hk & Ha & _).
  repeat split; try done. by eapply list_elem_of_lookup_2.
Qed.

(** X23.  [delete_note_attachment] never raises; it returns [False], leaving the
    state as it is, exactly when no note with the identifier has an
    attachment of that stored name; otherwise the entry leaves the index
    whether its file is present, absent or not removable. *)
Lemma delete_note_attachment_spec note_id name w :
  (fst (delete_note_attachment note_id name w) = false ↔
   ∀ m, m ∈ notes (_load_metadata w) → meta_id m = note_id →
        ∀ a, a ∈ default [] (meta_attachments m) → att_filename a ≠ name)
  ∧ (fst (delete_note_attachment note_id name w) = false →
     snd (delete_note_attachment note_id name w) = w)
  ∧ (∀ i m a, locate_attachment note_id name (notes (_load_metadata w)) = Some (i, m, a) →
       fst (delete_note_attachment note_id name w) = true
       ∧ ∃ m', notes (_load_metadata (snd (delete_note_attachment note_id name w))) !! i
               = Some m'
               ∧ meta_attachments m'
                 = Some (list_remove_first a (default [] (meta_attachments m)))).
Proof.
  unfold delete_note_attachment. rewrite <- locate_attachment_None.
  destruct (locate_attachment _ _ _) as [[[i m] a]|] eqn:Hloc; simpl.
  - split; [done|]. split; [done|]. intros ? ? ? [= <- <- <-]. split; [done|].
    apply locate_attachment_Some in Hloc as (Hi & _).
    eexists. split; [apply list_lookup_insert_eq; by eapply lookup_lt_Some|done].
  - split; [done|]. split; [done|]. done.
Qed.

End AttachmentRemoval.

(** C7.  On a store where the operating system refuses to remove the
    attachment files, [delete_note_attachment] returns [True] and takes the
    entry out of the index, its file staying behind, whereas
    [delete_doc_attachment] lets the [OSError] of [os.remove] escape: it
    returns nothing and the entry is still in the index. *)
Theorem delete_doc_attachment_fails_with_the_file :
  fst (delete_note_attachment 1 "1_cafebabe.pdf" locked_store) = true
  ∧ (meta_attachments <$>
     notes (_load_metadata (snd (delete_note_attachment 1 "1_cafebabe.pdf" locked_store))))
    = [Some []]
  ∧ notes_uploads_dir (snd (delete_note_attachment 1 "1_cafebabe.pdf" locked_store))
    !! "1_cafebabe.pdf" = Some 20
  ∧ delete_doc_attachment 1 "1_deadbeef.pdf" locked_store
    = (Raise (OSError DocsUploadsDir "1_deadbeef.pdf"), locked_store)
  ∧ (meta_attachments <$>
     docs (_load_metadata (snd (delete_doc_attachment 1 "1_deadbeef.pdf" locked_store))))
    = [Some [mkAttachment "1_deadbeef.pdf" "report.pdf" 32]].
Proof. repeat split; by vm_compute. Qed.

(** ** Deletion *)

Section Deletion.

Lemma remove_if_exists_ok {V} (fails : string → bool) name (files : gmap string V) :
  fails name = false → remove_if_exists fails name files = Some (delete name files).
Proof.
  intros Hok. unfold remove_if_exists. destruct (files !! name) eqn:Hname.
  - by rewrite Hok.
  - by rewrite delete_id.
Qed.

Lemma remove_attachments_ok fails attachments : ∀ files,
  (∀ a, a ∈ attachments → fails (att_filename a) = false) →
  ∃ files',
    remove_attachments fails attachments files = (files', None)
    ∧ (∀ name, files !! name = None → files' !! name = None)
    ∧ (∀ a, a ∈ attachments → files' !! att_filename a = None).
Proof.
  induction attachments as [|a attachments IH]; intros files Hok; simpl.
  - exists files. split; [done|]. split; [done|]. by intros a ?%elem_of_nil.
  - rewrite remove_if_exists_ok by (apply Hok; left).
    destruct (IH (delete (att_filename a) files)) as (files' & -> & Hkeep & Hgone).
    { intros b Hb. apply Hok. by right. }
    exists files'. split; [done|]. split.
    + intros name Hname. apply Hkeep. rewrite lookup_delete. by case_decide.
    + intros b [->|Hb]%elem_of_cons; [|by apply Hgone].
      apply Hkeep, lookup_delete_eq.
Qed.

(** [items.remove(meta)] for the record the loop stopped at takes out
    that very entry. *)
Lemma list_remove_first_at item_id metas : ∀ i m,
  first_with_id item_id metas i m → list_remove_first m metas = delete i metas.
Proof.
  induction metas as [|y metas IH]; intros i m (Hi & Hid & Hbefore); [done|].
  simpl. destruct (decide (y = m)) as [->|Hne].
  - destruct i as [|i]; [done|]. exfalso.
    apply (Hbefore 0%nat m); [done|lia|done].
  - destruct i as [|i]; [simpl in Hi; congruence|].
    simpl. f_equal. apply IH. repeat split; [done|done|].
    intros j x Hj Hlt. apply (Hbefore (S j) x); [done|lia].
Qed.

Lemma unique_id_deleted item_id metas i m :
  first_with_id item_id metas i m →
  NoDup (meta_id <$> metas) →
  ∀ x, x ∈ delete i metas → meta_id x ≠ item_id.
Proof.
  revert i. induction metas as [|y metas IH]; intros i (Hi & Hid & Hbefore) Hnodup x Hx;
    [done|].
  rewrite fmap_cons in Hnodup. apply NoDup_cons in Hnodup as [Hy Hnodup].
  destruct i as [|i]; simpl in *.
  - injection Hi as ->. intros Heq. apply Hy. rewrite Hid, <- Heq.
    by apply list_elem_of_fmap_2.
  - apply elem_of_cons in Hx as [->|Hx].
    + apply (Hbefore 0%nat y); [done|lia].
    + apply (IH i); [|done|done]. repeat split; [done|done|].
      intros j z Hj Hlt. apply (Hbefore (S j) z); [done|lia].
Qed.

Lemma get_note_in_absent files note_id metas :
  (∀ x, x ∈ metas → meta_id x ≠ note_id) → get_note_in files note_id metas = None.
Proof.
  intros Habsent. rewrite <- (app_nil_r metas). by rewrite get_note_in_fresh.
Qed.

Lemma get_doc_in_absent files doc_id metas :
  (∀ x, x ∈ metas → meta_id x ≠ doc_id) → get_doc_in files doc_id metas = None.
Proof.
  intros Habsent. rewrite <- (app_nil_r metas). by rewrite get_doc_in_fresh.
Qed.

Lemma delete_note_absent note_id w :
  (∀ x, x ∈ notes (_load_metadata w) → meta_id x ≠ note_id) →
  delete_note note_id w = (Ok false, w).
Proof. intros Habsent%find_by_id_absent. unfold delete_note. by rewrite Habsent. Qed.

Lemma delete_doc_absent doc_id w :
  (∀ x, x ∈ docs (_load_metadata w) → meta_id x ≠ doc_id) →
  delete_doc doc_id w = (Ok false, w).
Proof. intros Habsent%find_by_id_absent. unfold delete_doc. by rewrite Habsent. Qed.

Lemma delete_note_found note_id w i m :
  first_with_id note_id (notes (_load_metadata w)) i m →
  remove_fails w NotesDir (meta_filename m) = false →
  (∀ a, a ∈ default [] (meta_attachments m) →
        remove_fails w NotesUploadsDir (att_filename a) = false) →
  ∃ uploads,
    delete_note note_id w
    = (Ok true,
       _save_metadata {| notes := delete i (notes (_load_metadata w));
                         docs := docs (_load_metadata w) |}
         (with_notes_uploads_dir uploads
            (with_notes_dir (delete (meta_filename m) (notes_dir w)) w)))
    ∧ ∀ a, a ∈ default [] (meta_attachments m) → uploads !! att_filename a = None.
Proof.
  intros Hfirst Hfile Hatts.
  pose proof (list_remove_first_at _ _ _ _ Hfirst) as Hremove.
  apply find_by_id_first in Hfirst.
  unfold delete_note. rewrite Hfirst, (remove_if_exists_ok _ _ _ Hfile). simpl.
  destruct (remove_attachments_ok _ _ (notes_uploads_dir w) Hatts)
    as (uploads & -> & _ & Huploads).
  rewrite Hremove. by exists uploads.
Qed.

Lemma delete_doc_found doc_id w i m :
  first_with_id doc_id (docs (_load_metadata w)) i m →
  remove_fails w DocsDir (meta_filename m) = false →
  (∀ a, a ∈ default [] (meta_attachments m) →
        remove_fails w DocsUploadsDir (att_filename a) = false) →
  ∃ uploads,
    delete_doc doc_id w
    = (Ok true,
       _save_metadata {| notes := notes (_load_metadata w);
                         docs := delete i (docs (_load_metadata w)) |}
         (with_docs_uploads_dir uploads
            (with_docs_dir (delete (meta_filename m) (docs_dir w)) w)))
    ∧ ∀ a, a ∈ default [] (meta_attachments m) → uploads !! att_filename a = None.
Proof.
  intros Hfirst Hfile Hatts.
  pose proof (list_remove_first_at _ _ _ _ Hfirst) as Hremove.
  apply find_by_id_first in Hfirst.
  unfold delete_doc. rewrite Hfirst, (remove_if_exists_ok _ _ _ Hfile). simpl.
  destruct (remove_attachments_ok _ _ (docs_uploads_dir w) Hatts)
    as (uploads & -> & _ & Huploads).
  rewrite Hremove. by exists uploads.
Qed.

End Deletion.

(** X26.  In a store whose identifiers are unique within the kind,
    [delete_note] and [delete_doc] called for the identifier of a record,
    when [os.remove] does not fail on the files concerned, return [True];
    afterwards the content file is gone (it need not have been there), so
    is the file of every attachment of the record (none need have been
    there), the index is saved without the record and with every other
    record in place, the read of that identifier finds nothing and a second
    deletion returns [False] and changes nothing. *)
Theorem delete_removes_files_and_record (item_id : Z) (w : World) :
  let metadata := _load_metadata w in
  (∀ i m,
     first_with_id item_id (notes metadata) i m →
     NoDup (meta_id <$> notes metadata) →
     remove_fails w NotesDir (meta_filename m) = false →
     (∀ a, a ∈ default [] (meta_attachments m) →
           remove_fails w NotesUploadsDir (att_filename a) = false) →
     let w' := snd (delete_note item_id w) in
     fst (delete_note item_id w) = Ok true
     ∧ notes_dir w' !! meta_filename m = None
     ∧ (∀ a, a ∈ default [] (meta_attachments m) →
             notes_uploads_dir w' !! att_filename a = None)
     ∧ metadata_file w' = JsonOf {| notes := delete i (notes metadata);
                                    docs := docs metadata |}
     ∧ (∀ x, x ∈ notes (_load_metadata w') → meta_id x ≠ item_id)
     ∧ get_note item_id w' = None
     ∧ delete_note item_id w' = (Ok false, w'))
  ∧ (∀ i m,
     first_with_id item_id (docs metadata) i m →
     NoDup (meta_id <$> docs metadata) →
     remove_fails w DocsDir (meta_filename m) = false →
     (∀ a, a ∈ default [] (meta_attachments m) →
           remove_fails w DocsUploadsDir (att_filename a) = false) →
     let w' := snd (delete_doc item_id w) in
     fst (delete_doc item_id w) = Ok true
     ∧ docs_dir w' !! meta_filename m = None
     ∧ (∀ a, a ∈ default [] (meta_attachments m) →
             docs_uploads_dir w' !! att_filename a = None)
     ∧ metadata_file w' = JsonOf {| notes := notes metadata;
                                    docs := delete i (docs metadata) |}
     ∧ (∀ x, x ∈ docs (_load_metadata w') → meta_id x ≠ item_id)
     ∧ get_doc item_id w' = None
     ∧ delete_doc item_id w' = (Ok false, w')).
Proof.
  simpl. split; intros i m Hfirst Hnodup Hfile Hatts.
  - pose proof (unique_id_deleted _ _ _ _ Hfirst Hnodup) as Hgone.
    destruct (delete_note_found _ _ _ _ Hfirst Hfile Hatts) as (uploads & -> & Huploads).
    simpl. split; [done|]. split; [apply lookup_delete_eq|]. split; [done|].
    split; [done|]. split; [done|]. split.
    + unfold get_note. by apply get_note_in_absent.
    + by apply delete_note_absent.
  - pose proof (unique_id_deleted _ _ _ _ Hfirst Hnodup) as Hgone.
    destruct (delete_doc_found _ _ _ _ Hfirst Hfile Hatts) as (uploads & -> & Huploads).
    simpl. split; [done|]. split; [apply lookup_delete_eq|]. split; [done|].
    split; [done|]. split; [done|]. split.
    + unfold get_doc. by apply get_doc_in_absent.
    + by apply delete_doc_absent.
Qed.

Lemma delete_removes_files_and_record_witness :
  fst (delete_note 1 store_with_attachments) = Ok true
  ∧ get_note 1 (snd (delete_note 1 store_with_attachments)) = None
  ∧ fst (delete_note 1 (snd (delete_note 1 store_with_attachments))) = Ok false
  ∧ fst (delete_doc 1 store_with_attachments) = Ok true
  ∧ get_doc 1 (snd (delete_doc 1 store_with_attachments)) = None.
Proof.
  pose proof (delete_removes_files_and_record 1 store_with_attachments) as [Hnote Hdoc].
  simpl in Hnote, Hdoc.
  destruct (Hnote 0%nat (mkMeta 1 "Meeting Notes" "1.txt" (Some "work") None
                           (Some [mkAttachment "1_cafebabe.pdf" "agenda.pdf" 12;
                                  mkAttachment "1_0badf00d.png" "chart.png" 14])
                           (Some 0) 10 (Some 14) None))
    as (Hres & _ & _ & _ & _ & Hget & Hagain).
  { repeat split. intros j y _ Hj. lia. }
  { apply (bool_decide_unpack _). by vm_compute. }
  { reflexivity. }
  { intros a _. reflexivity. }
  destruct (Hdoc 0%nat (mkMeta 1 "Handbook" "1.txt" (Some "general") None
                          (Some [mkAttachment "1_deadbeef.pdf" "report.pdf" 32])
                          None 30 (Some 32) None))
    as (Hres' & _ & _ & _ & _ & Hget' & _).
  { repeat split. intros j y _ Hj. lia. }
  { apply (bool_decide_unpack _). by vm_compute. }
  { reflexivity. }
  { intros a _. reflexivity. }
  split; [exact Hres|]. split; [exact Hget|]. split; [by rewrite Hagain|].
  split; [exact Hres'|exact Hget'].
Defined.

(** C9.  Where the operating system refuses to remove a file, [delete_note]
    and [delete_doc] called for the identifier of a record let the [OSError]
    of [os.remove] escape.  On the content file: nothing is returned, the
    store is what it was, the record is still in the index and the read of
    the identifier still finds the item.  On an attachment file: nothing is
    returned, the content file is already gone and the record is still in
    the index.  [delete_note_attachment] on the same store returns [True]
    and takes its entry out of the index. *)
Theorem delete_fails_with_the_file :
  delete_note 1 locked_store = (Raise (OSError NotesDir "1.txt"), locked_store)
  ∧ (meta_id <$> notes (_load_metadata (snd (delete_note 1 locked_store)))) = [1]
  ∧ (note_title <$> get_note 1 (snd (delete_note 1 locked_store)))
    = Some "Meeting Notes"
  ∧ delete_doc 1 locked_store = (Raise (OSError DocsDir "1.txt"), locked_store)
  ∧ (meta_id <$> docs (_load_metadata (snd (delete_doc 1 locked_store)))) = [1]
  ∧ (doc_title <$> get_doc 1 (snd (delete_doc 1 locked_store))) = Some "Handbook"
  ∧ fst (delete_note 1 locked_uploads_store)
    = Raise (OSError NotesUploadsDir "1_cafebabe.pdf")
  ∧ notes_dir (snd (delete_note 1 locked_uploads_store)) !! "1.txt" = None
  ∧ metadata_file (snd (delete_note 1 locked_uploads_store))
    = metadata_file locked_uploads_store
  ∧ fst (delete_doc 1 locked_uploads_store)
    = Raise (OSError DocsUploadsDir "1_deadbeef.pdf")
  ∧ docs_dir (snd (delete_doc 1 locked_uploads_store)) !! "1.txt" = None
  ∧ metadata_file (snd (delete_doc 1 locked_uploads_store))
    = metadata_file locked_uploads_store
  ∧ fst (delete_note_attachment 1 "1_cafebabe.pdf" locked_uploads_store) = true
  ∧ (meta_attachments <$>
     notes (_load_metadata
              (snd (delete_note_attachment 1 "1_cafebabe.pdf" locked_uploads_store))))
    = [Some []].
Proof. repeat split; by vm_compute. Qed.

(** ** Unique identifiers *)

Section UniqueIds.

Variable secure_filename : string → string.

Lemma ids_insert_same (metas : list Meta) i m m' :
  metas !! i = Some m → meta_id m' = meta_id m →
  meta_id <$> <[i := m']> metas = meta_id <$> metas.
Proof.
  intros Hi Hid. rewrite list_fmap_insert. apply list_insert_id.
  by rewrite list_lookup_fmap, Hi, Hid.
Qed.

Lemma ids_created (metas : list Meta) m :
  NoDup (meta_id <$> metas) → (∀ x, x ∈ metas → meta_id x < meta_id m) →
  NoDup (meta_id <$> (metas ++ [m])%list).
Proof.
  intros Hnodup Hfresh. rewrite fmap_app. apply NoDup_app. split; [done|]. split.
  - intros k Hk Hin. apply list_elem_of_singleton in Hin as ->.
    apply list_elem_of_fmap in Hk as (x & Hid & Hx). specialize (Hfresh x Hx). lia.
  - apply NoDup_singleton.
Qed.

Lemma ids_deleted (metas : list Meta) i :
  NoDup (meta_id <$> metas) → NoDup (meta_id <$> delete i metas).
Proof.
  intros Hnodup. eapply sublist_NoDup; [exact Hnodup|].
  apply fmap_sublist, sublist_delete.
Qed.

Lemma apply_fields_id title content category w files m :
  meta_id (apply_fields title content category w files m).1.1 = meta_id m.
Proof. unfold apply_fields. by destruct title, category, content. Qed.

(** No method on notes makes two notes share an identifier. *)
Lemma note_step_keeps_ids_unique op w :
  NoDup (meta_id <$> notes (_load_metadata w)) →
  NoDup (meta_id <$> notes (_load_metadata (note_step secure_filename op w))).
Proof.
  intros Hnodup. destruct op; cbn [note_step doc_step]; try done.
  - destruct (create_note_spec title content category user_id w) as [_ ->]. simpl.
    apply ids_created; [done|]. intros x Hx. apply (next_id_above note w x Hx).
  - unfold increment_note_view_count.
    destruct (find_by_id _ _) as [[i m]|] eqn:Hfind; [|done].
    apply find_by_id_first in Hfind as (Hi & _). simpl.
    by rewrite (ids_insert_same _ _ m).
  - unfold update_note.
    destruct (find_by_id _ _) as [[i m]|] eqn:Hfind; [|done].
    apply find_by_id_first in Hfind as (Hi & _).
    pose proof (apply_fields_id title content category w (notes_dir w) m) as Hid.
    destruct (apply_fields _ _ _ _ _ _) as [[m' files] updated]. simpl in Hid.
    destruct updated; [|done]. simpl.
    rewrite (ids_insert_same _ _ m); [done..|]. by destruct user_id.
  - unfold delete_note.
    destruct (find_by_id _ _) as [[i m]|] eqn:Hfind; [|done].
    apply find_by_id_first in Hfind.
    destruct (remove_if_exists _ _ _); [|done]. simpl.
    destruct (remove_attachments _ _ _) as [uploads [name|]]; [done|]. simpl.
    rewrite (list_remove_first_at _ _ _ _ Hfind). by apply ids_deleted.
  - unfold add_note_attachment, check_storage_available.
    destruct (_ >? _); [done|]. simpl.
    destruct (find_by_id _ _) as [[i m]|] eqn:Hfind; [|done].
    apply find_by_id_first in Hfind as (Hi & _).
    destruct (String.eqb _ _); [done|]. simpl.
    by rewrite (ids_insert_same _ _ m).
  - unfold delete_note_attachment.
    destruct (locate_attachment _ _ _) as [[[i m] a]|] eqn:Hloc; [|done].
    apply locate_attachment_Some in Hloc as (Hi & _). simpl.
    by rewrite (ids_insert_same _ _ m).
Qed.

(** Nor does a method on documents for the documents. *)
Lemma doc_step_keeps_ids_unique op w :
  NoDup (meta_id <$> docs (_load_metadata w)) →
  NoDup (meta_id <$> docs (_load_metadata (doc_step secure_filename op w))).
Proof.
  intros Hnodup. destruct op; cbn [note_step doc_step]; try done.
  - destruct (create_doc_spec title content category user_id w) as [_ ->]. simpl.
    apply ids_created; [done|]. intros x Hx. apply (next_id_above doc w x Hx).
  - unfold update_doc.
    destruct (find_by_id _ _) as [[i m]|] eqn:Hfind; [|done].
    apply find_by_id_first in Hfind as (Hi & _).
    pose proof (apply_fields_id title content category w (docs_dir w) m) as Hid.
    destruct (apply_fields _ _ _ _ _ _) as [[m' files] updated]. simpl in Hid.
    destruct updated; [|done]. simpl.
    by rewrite (ids_insert_same _ _ m).
  - unfold delete_doc.
    destruct (find_by_id _ _) as [[i m]|] eqn:Hfind; [|done].
    apply find_by_id_first in Hfind.
    destruct (remove_if_exists _ _ _); [|done]. simpl.
    destruct (remove_attachments _ _ _) as [uploads [name|]]; [done|]. simpl.
    rewrite (list_remove_first_at _ _ _ _ Hfind). by apply ids_deleted.
  - unfold add_doc_attachment.
    destruct (find_by_id _ _) as [[i m]|] eqn:Hfind; [|done].
    apply find_by_id_first in Hfind as (Hi & _).
    destruct (String.eqb _ _); [done|]. simpl.
    by rewrite (ids_insert_same _ _ m).
  - unfold delete_doc_attachment.
    destruct (locate_attachment _ _ _) as [[[i m] a]|] eqn:Hloc; [|done].
    apply locate_attachment_Some in Hloc as (Hi & _).
    destruct (remove_if_exists _ _ _); [|done]. simpl.
    by rewrite (ids_insert_same _ _ m).
Qed.

End UniqueIds.

(** ** Listings *)

Section Substrings.

Lemma prefix_spec needle hay :
  String.prefix needle hay = true ↔ ∃ after, hay = needle ++ after.
Proof.
  revert hay. induction needle as [|c needle IH]; intros [|c' hay]; simpl.
  - split; [by exists ""|done].
  - split; [by exists (String c' hay)|done].
  - split; [done|]. by intros [after ?].
  - destruct (ascii_dec c c') as [->|Hne].
    + rewrite IH. split; intros [after Hafter]; exists after; [by rewrite Hafter|].
      by injection Hafter.
    + split; [done|]. intros [after Hafter]. by injection Hafter.
Qed.

Lemma str_in_spec needle hay : str_in needle hay = true ↔ contains needle hay.
Proof.
  unfold contains. induction hay as [|c hay IH]; cbn [str_in].
  - rewrite orb_false_r, prefix_spec. split.
    + intros [after ->]. by exists "", after.
    + intros ([|c before] & after & Heq); [by exists after|done].
  - rewrite orb_true_iff, IH, prefix_spec. split.
    + intros [[after Heq]|(before & after & ->)].
      * by exists "", after.
      * by exists (String c before), after.
    + intros ([|c' before] & after & Heq).
      * left. by exists after.
      * right. exists before, after. by injection Heq.
Qed.

Lemma contains_empty hay : contains "" hay.
Proof. by exists "", hay. Qed.

End Substrings.

Section Filters.

Lemma category_skips_spec category m :
  category_skips category m = false ↔ no_category_filter category ∨ meta_category m = category.
Proof.
  unfold category_skips, no_category_filter, truthy.
  destruct category as [c|]; simpl; [|by split; [left; left|]].
  destruct (String.eqb_spec c "") as [->|Hempty]; simpl.
  { split; [by left; right; left|done]. }
  destruct (bool_decide_reflect (Some c = Some "all")) as [Hall|Hall]; simpl.
  { split; [by left; right; right|done]. }
  destruct (bool_decide_reflect (meta_category m = Some c)) as [Hcat|Hcat]; simpl.
  { split; [by right|done]. }
  split; [done|]. intros [[?|[?|?]]|?]; congruence.
Qed.

Lemma search_skips_spec lower search_query title content :
  search_skips lower search_query title content = false ↔
  query_matches lower search_query title content.
Proof.
  unfold search_skips, query_matches. destruct search_query as [q|]; [|done].
  destruct (String.eqb_spec q "") as [->|Hempty]; simpl.
  { split; [by left|done]. }
  rewrite <- !str_in_spec.
  destruct (str_in (lower q) (lower title)), (str_in (lower q) (lower content)); simpl;
    split; try done; try (intros _; right; by (left + right)).
  by intros [?|[?|?]].
Qed.

Lemma collect_notes_selection lower files category search_query metas :
  ∃ kept,
    selection (listed lower files category search_query) metas kept
    ∧ collect_notes lower files category search_query metas
      = (λ m, Note_of m (content_of files m)) <$> kept.
Proof.
  induction metas as [|m metas (kept & Hsel & IH)]; [exists []; split; [constructor|done]|].
  simpl. destruct (category_skips category m) eqn:Hcat.
  { exists kept. split; [|done]. apply selection_skip; [|done].
    intros [Hok _]. apply category_skips_spec in Hok. congruence. }
  apply category_skips_spec in Hcat.
  destruct (read_text (meta_filename m) files) as [content|] eqn:Hread.
  - destruct (search_skips lower search_query (meta_title m) content) eqn:Hq.
    + exists kept. split; [|done]. apply selection_skip; [|done].
      intros (_ & content' & Hread' & Hmatch). rewrite Hread in Hread'.
      injection Hread' as <-. apply search_skips_spec in Hmatch. congruence.
    + apply search_skips_spec in Hq. exists (m :: kept). split.
      * apply selection_keep; [|done]. split; [done|]. by exists content.
      * rewrite fmap_cons, IH. unfold content_of. by rewrite Hread.
  - exists kept. split; [|done]. apply selection_skip; [|done].
    intros (_ & content' & Hread' & _). congruence.
Qed.

Lemma collect_docs_selection lower files category search_query metas :
  ∃ kept,
    selection (listed lower files category search_query) metas kept
    ∧ collect_docs lower files category search_query metas
      = (λ m, Document_of m (content_of files m)) <$> kept.
Proof.
  induction metas as [|m metas (kept & Hsel & IH)]; [exists []; split; [constructor|done]|].
  simpl. destruct (category_skips category m) eqn:Hcat.
  { exists kept. split; [|done]. apply selection_skip; [|done].
    intros [Hok _]. apply category_skips_spec in Hok. congruence. }
  apply category_skips_spec in Hcat.
  destruct (read_text (meta_filename m) files) as [content|] eqn:Hread.
  - destruct (search_skips lower search_query (meta_title m) content) eqn:Hq.
    + exists kept. split; [|done]. apply selection_skip; [|done].
      intros (_ & content' & Hread' & Hmatch). rewrite Hread in Hread'.
      injection Hread' as <-. apply search_skips_spec in Hmatch. congruence.
    + apply search_skips_spec in Hq. exists (m :: kept). split.
      * apply selection_keep; [|done]. split; [done|]. by exists content.
      * rewrite fmap_cons, IH. unfold content_of. by rewrite Hread.
  - exists kept. split; [|done]. apply selection_skip; [|done].
    intros (_ & content' & Hread' & _). congruence.
Qed.

End Filters.

Section Sorting.

Context {A : Type} (key : A → Z).

Lemma insert_desc_perm x l : insert_desc key x l ≡ₚ x :: l.
Proof.
  induction l as [|y l IH]; simpl; [done|].
  destruct (key y <=? key x); [done|]. rewrite IH. apply Permutation_swap.
Qed.

Lemma insert_desc_sorted x l :
  StronglySorted (λ a b, key b ≤ key a) l →
  StronglySorted (λ a b, key b ≤ key a) (insert_desc key x l).
Proof.
  induction l as [|y l IH]; intros Hsorted; simpl.
  - repeat constructor.
  - apply StronglySorted_inv in Hsorted as [Hl Hy].
    destruct (key y <=? key x) eqn:Hle.
    + apply Z.leb_le in Hle. constructor; [by constructor|].
      constructor; [done|]. eapply Forall_impl; [exact Hy|]. simpl. lia.
    + apply Z.leb_gt in Hle. constructor; [by apply IH|].
      rewrite (insert_desc_perm x l). constructor; [lia|done].
Qed.

Lemma insert_desc_stable x l t :
  filter (λ a, key a = t) (insert_desc key x l) = filter (λ a, key a = t) (x :: l).
Proof.
  induction l as [|y l IH]; simpl; [done|].
  destruct (key y <=? key x) eqn:Hle; [done|]. apply Z.leb_gt in Hle.
  rewrite (filter_cons _ y), IH, !filter_cons.
  destruct (decide (key y = t)), (decide (key x = t)); try done. lia.
Qed.

Lemma sort_desc_stably_sorted l : stably_sorted_desc key l (sort_desc key l).
Proof.
  unfold stably_sorted_desc.
  induction l as [|x l (Hperm & Hsorted & Hstable)]; simpl.
  - split; [done|]. split; [constructor|done].
  - split; [by rewrite insert_desc_perm, Hperm|].
    split; [by apply insert_desc_sorted|].
    intros t. by rewrite insert_desc_stable, !filter_cons, Hstable.
Qed.

End Sorting.

Section ClaimedListing.

Lemma selection_but_of_selection {A} (P Q open : A → Prop) l kept :
  (∀ x, open x ∨ (P x ↔ Q x)) → selection Q l kept → selection_but P open l kept.
Proof.
  intros Hagree. induction 1 as [|x l kept Hx Hsel IH|x l kept Hx Hsel IH].
  - constructor.
  - destruct (Hagree x) as [Hopen|Hiff].
    + by apply selection_but_open_keep.
    + apply selection_but_keep; [by apply Hiff|done].
  - destruct (Hagree x) as [Hopen|Hiff].
    + by apply selection_but_open_skip.
    + apply selection_but_skip; [|done]. intros HP. by apply Hx, Hiff.
Qed.

Lemma to_be_listed_is_listed lower files category search_query m :
  category_defaulted category m
  ∨ (to_be_listed lower files category search_query m ↔
     listed lower files category search_query m).
Proof.
  unfold category_defaulted, to_be_listed, listed, category_of, no_category_filter.
  destruct (meta_category m) as [c|] eqn:Hcat; simpl; [by right|].
  destruct (decide (category = Some "general")) as [->|Hne]; [by left|]. right.
  split; intros [[Hnone|Heq] Hrest]; (split; [|done]).
  - by left.
  - congruence.
  - by left.
  - left. by left.
Qed.

End ClaimedListing.

(** C5.  [get_all_notes] and [get_all_docs] return, for every state of the
    store and all arguments, one object for each record of their kind that
    has a content file, whose category is the one asked for (no category,
    the empty string and ["all"] ask for none) and whose title or file text
    contains the search query without regard to letter case; the objects
    carry the text of their files and come by decreasing ['updated_at'],
    those with equal ['updated_at'] in the order of the index.  Nothing is
    said of a record without category of its own when the category
    ["general"] is asked for. *)
Theorem listing_selects_and_sorts (category search_query : option string) (w : World) :
  (∃ kept,
     selection_but (to_be_listed (str_lower w) (notes_dir w) category search_query)
       (category_defaulted category) (notes (_load_metadata w)) kept
     ∧ stably_sorted_desc note_updated_at
         ((λ m, Note_of m (content_of (notes_dir w) m)) <$> kept)
         (get_all_notes category search_query w))
  ∧ (∃ kept,
     selection_but (to_be_listed (str_lower w) (docs_dir w) category search_query)
       (category_defaulted category) (docs (_load_metadata w)) kept
     ∧ stably_sorted_desc doc_updated_at
         ((λ m, Document_of m (content_of (docs_dir w) m)) <$> kept)
         (get_all_docs category search_query w)).
Proof.
  split.
  - destruct (collect_notes_selection (str_lower w) (notes_dir w) category search_query
                (notes (_load_metadata w))) as (kept & Hsel & Hcollect).
    exists kept. split.
    + eapply selection_but_of_selection; [|exact Hsel].
      intros m. apply to_be_listed_is_listed.
    + unfold get_all_notes. rewrite Hcollect. apply sort_desc_stably_sorted.
  - destruct (collect_docs_selection (str_lower w) (docs_dir w) category search_query
                (docs (_load_metadata w))) as (kept & Hsel & Hcollect).
    exists kept. split.
    + eapply selection_but_of_selection; [|exact Hsel].
      intros m. apply to_be_listed_is_listed.
    + unfold get_all_docs. rewrite Hcollect. apply sort_desc_stably_sorted.
Qed.

(** A listing asked for the empty category returns every note, although
    no note has the empty string as its category: the condition
    [category and ...] of the loop is false for the empty string. *)
Lemma listing_as_stated_fails_on_empty_category :
  get_all_notes (Some "") None store2
  = [Note_of (mkMeta 2 "Shopping" "2.txt" (Some "personal") None (Some []) (Some 0) 20
                (Some 25) None) "Milk, eggs";
     Note_of (mkMeta 1 "Meeting Notes" "1.txt" (Some "work") None (Some []) (Some 3) 10
                (Some 10) None) "Discuss Q1 roadmap"]
  ∧ ¬ ∃ kept,
        selection (listed_as_stated (str_lower store2) (notes_dir store2) (Some "") None)
          (notes (_load_metadata store2)) kept
        ∧ stably_sorted_desc note_updated_at
            ((λ m, Note_of m (content_of (notes_dir store2) m)) <$> kept)
            (get_all_notes (Some "") None store2).
Proof.
  split; [by vm_compute|].
  intros (kept & Hsel & Hperm & _).
  assert (kept = []) as ->.
  { simpl in Hsel.
    inversion Hsel as [|x l k [[?|[?|?]] _] Hrest|x l k _ Hrest]; subst; try discriminate.
    inversion Hrest as [|x l k' [[?|[?|?]] _] Hrest'|x l k' _ Hrest']; subst;
      try discriminate.
    by inversion Hrest'. }
  apply Permutation_length in Hperm. vm_compute in Hperm. discriminate.
Qed.

(** * Further properties *)

(** ** Uploads and the storage total *)

Section Uploads.

Variable secure_filename : string → string.

Lemma dir_size_insert_fresh {V} (size : V → Z) (files : gmap string V) name v :
  files !! name = None →
  dir_size size (<[name := v]> files) = dir_size size files + size v.
Proof.
  intros Hfresh. unfold dir_size. rewrite map_fold_insert_L; [done| |done].
  intros. lia.
Qed.

Lemma dir_size_delete {V} (size : V → Z) (files : gmap string V) name v :
  files !! name = Some v →
  dir_size size (delete name files) = dir_size size files - size v.
Proof.
  intros Hname. unfold dir_size.
  rewrite (map_fold_delete_L _ _ name v files); [lia| |done].
  intros. lia.
Qed.

End Uploads.

(** X1.  An upload that [add_note_attachment] accepts, for a note that
    exists and under a stored name not yet in use, is stored with its size,
    is recorded last among the attachments of the first note with the
    identifier, raises the storage total by exactly the size of the upload,
    and leaves the total within the limit of 2 GiB. *)
Theorem accepted_note_upload_stays_within_quota
    (secure_filename : string → string) (note_id : Z) (uploaded_file : Upload) (w : World)
    (i : nat) (m : Meta) :
  let stored := next_stored_name secure_filename note_id uploaded_file w in
  let result := add_note_attachment secure_filename note_id uploaded_file w in
  first_with_id note_id (notes (_load_metadata w)) i m →
  secure_filename (upload_filename uploaded_file) ≠ "" →
  get_total_storage_size w + upload_size uploaded_file ≤ default_max_storage →
  notes_uploads_dir w !! stored = None →
  fst result = (true, MsgUploaded)
  ∧ notes_uploads_dir (snd result) !! stored = Some (upload_size uploaded_file)
  ∧ (∃ m', notes (_load_metadata (snd result)) !! i = Some m'
           ∧ meta_attachments m'
             = Some (default [] (meta_attachments m)
                     ++ [next_attachment secure_filename note_id uploaded_file w])%list
           ∧ meta_updated_at m' = Some (clock w (S (ticks w))))
  ∧ get_total_storage_size (snd result)
    = get_total_storage_size w + upload_size uploaded_file
  ∧ get_total_storage_size (snd result) ≤ default_max_storage.
Proof.
  intros stored result Hfirst Hname Hroom Hfresh. subst result.
  pose proof Hfirst as (Hi & _). apply find_by_id_first in Hfirst.
  assert (Htotal :
    get_total_storage_size
      (snd (add_note_attachment secure_filename note_id uploaded_file w))
    = get_total_storage_size w + upload_size uploaded_file
    ∧ fst (add_note_attachment secure_filename note_id uploaded_file w) = (true, MsgUploaded)
    ∧ notes_uploads_dir (snd (add_note_attachment secure_filename note_id uploaded_file w))
      = <[stored := upload_size uploaded_file]> (notes_uploads_dir w)
    ∧ notes (_load_metadata (snd (add_note_attachment secure_filename note_id
                                    uploaded_file w)))
      = <[i := set_updated_at (clock w (S (ticks w)))
                 (append_attachment
                    (next_attachment secure_filename note_id uploaded_file w) m)]>
          (notes (_load_metadata w))).
  { unfold add_note_attachment, check_storage_available.
    destruct (_ >? _) eqn:Hgt.
    { rewrite Z.gtb_ltb in Hgt. apply Z.ltb_lt in Hgt. lia. }
    simpl. rewrite Hfirst.
    destruct (String.eqb_spec (secure_filename (upload_filename uploaded_file)) "");
      [done|].
    simpl. unfold get_total_storage_size. simpl.
    fold stored. rewrite (dir_size_insert_fresh id _ _ _ Hfresh). simpl.
    split; [lia|done]. }
  destruct Htotal as (Htotal & Hres & Huploads & Hnotes).
  split; [done|]. split; [by rewrite Huploads, lookup_insert_eq|]. split.
  - rewrite Hnotes. eexists. split.
    + apply list_lookup_insert_eq. by eapply lookup_lt_Some.
    + done.
  - split; [done|lia].
Qed.

Lemma accepted_note_upload_stays_within_quota_witness :
  fst (add_note_attachment (λ name, name) 1 (mkUpload "minutes.txt" 5) nearly_full_store)
  = (true, MsgUploaded)
  ∧ get_total_storage_size
      (snd (add_note_attachment (λ name, name) 1 (mkUpload "minutes.txt" 5)
              nearly_full_store))
    = default_max_storage - 5.
Proof.
  destruct (accepted_note_upload_stays_within_quota (λ name, name) 1
              (mkUpload "minutes.txt" 5) nearly_full_store 0%nat
              (mkMeta 1 "Meeting Notes" "1.txt" (Some "work") None (Some [])
                 (Some 0) 10 (Some 10) None))
    as (Hres & _ & _ & Htotal & _).
  - repeat split. intros j y _ Hj. lia.
  - discriminate.
  - by vm_compute.
  - by vm_compute.
  - split; [exact Hres|]. rewrite Htotal. by vm_compute.
Defined.

(** X2.  An upload that [add_note_attachment] or [add_doc_attachment]
    refuses, for whichever reason (the quota, an unknown identifier, a file
    name that [secure_filename] empties), leaves the state exactly as it
    was: no file is written, the index is not saved, neither the clock nor
    the random source is consulted. *)
Theorem refused_upload_changes_nothing
    (secure_filename : string → string) (item_id : Z) (uploaded_file : Upload) (w : World) :
  (fst (fst (add_note_attachment secure_filename item_id uploaded_file w)) = false →
   snd (add_note_attachment secure_filename item_id uploaded_file w) = w)
  ∧ (fst (add_doc_attachment secure_filename item_id uploaded_file w) = false →
     snd (add_doc_attachment secure_filename item_id uploaded_file w) = w).
Proof.
  split.
  - unfold add_note_attachment, check_storage_available.
    destruct (_ >? _); [done|]. simpl.
    destruct (find_by_id _ _) as [[i m]|]; [|done].
    by destruct (String.eqb _ _).
  - unfold add_doc_attachment.
    destruct (find_by_id _ _) as [[i m]|]; [|done].
    by destruct (String.eqb _ _).
Qed.

Lemma refused_upload_changes_nothing_witness :
  snd (add_note_attachment (λ _, "") 1 (mkUpload "../.." 5) nearly_full_store)
  = nearly_full_store
  ∧ snd (add_doc_attachment (λ name, name) 7 (mkUpload "minutes.txt" 5) nearly_full_store)
    = nearly_full_store.
Proof.
  split.
  - apply (proj1 (refused_upload_changes_nothing (λ _, "") 1 (mkUpload "../.." 5)
                    nearly_full_store)).
    by vm_compute.
  - apply (proj2 (refused_upload_changes_nothing (λ name, name) 7
                    (mkUpload "minutes.txt" 5) nearly_full_store)).
    by vm_compute.
Defined.

(** ** Unknown identifiers *)

(** X3.  A method called for an identifier that no record of its kind
    carries leaves the state exactly as it was, whatever the method and its
    other arguments. *)
Theorem unknown_id_changes_nothing
    (secure_filename : string → string) (item_id : Z) (w : World) :
  (∀ op, note_op_id op = Some item_id →
         (∀ m, m ∈ notes (_load_metadata w) → meta_id m ≠ item_id) →
         note_step secure_filename op w = w)
  ∧ (∀ op, doc_op_id op = Some item_id →
           (∀ m, m ∈ docs (_load_metadata w) → meta_id m ≠ item_id) →
           doc_step secure_filename op w = w).
Proof.
  split; intros op Hop Habsent; pose proof Habsent as Hfind;
    apply find_by_id_absent in Hfind;
    destruct op; simplify_eq/=; try done.
  - unfold increment_note_view_count. by rewrite Hfind.
  - unfold update_note. by rewrite Hfind.
  - by rewrite delete_note_absent.
  - unfold add_note_attachment, check_storage_available.
    destruct (_ >? _); [done|]. simpl. by rewrite Hfind.
  - unfold delete_note_attachment.
    by rewrite (proj2 (locate_attachment_None _ _ _))
      by (intros m Hm Hid; by destruct (Habsent m Hm)).
  - unfold update_doc. by rewrite Hfind.
  - by rewrite delete_doc_absent.
  - unfold add_doc_attachment. by rewrite Hfind.
  - unfold delete_doc_attachment.
    by rewrite (proj2 (locate_attachment_None _ _ _))
      by (intros m Hm Hid; by destruct (Habsent m Hm)).
Qed.

Lemma unknown_id_changes_nothing_witness :
  note_step (λ name, name) (DeleteNote 9) store2 = store2
  ∧ doc_step (λ name, name) (UpdateDoc 9 (Some "Rules") None None) store2 = store2.
Proof.
  destruct (unknown_id_changes_nothing (λ name, name) 9 store2) as [Hnotes Hdocs].
  split.
  - apply Hnotes; [reflexivity|]. intros m Hm.
    apply elem_of_cons in Hm as [->|Hm]; [done|].
    apply list_elem_of_singleton in Hm as ->. done.
  - apply Hdocs; [reflexivity|]. intros m Hm.
    apply list_elem_of_singleton in Hm as ->. done.
Defined.

(** ** Content of a created item *)

(** X4.  A content without carriage return, given to [create_note] or
    [create_doc] on a platform whose line separator is a line feed or a
    carriage return and a line feed, is the content of the object returned,
    character for character. *)
Theorem created_content_is_read_back
    (title content category : string) (user_id : option Z) (w : World) :
  linesep w = String LF EmptyString ∨ linesep w = String CR (String LF EmptyString) →
  has_char CR content = false →
  note_content <$> fst (create_note title content category user_id w) = Some content
  ∧ doc_content <$> fst (create_doc title content category user_id w) = Some content.
Proof.
  intros Hsep Hcr.
  destruct (create_note_spec title content category user_id w) as [-> _].
  destruct (create_doc_spec title content category user_id w) as [-> _].
  simpl. by rewrite newlines_round_trip.
Qed.

Lemma created_content_is_read_back_witness :
  note_content <$>
    fst (create_note "Todo" (String "a" (String LF "b")) "general" None store0)
  = Some (String "a" (String LF "b")).
Proof.
  apply (created_content_is_read_back "Todo" (String "a" (String LF "b")) "general" None
           store0).
  - left. reflexivity.
  - reflexivity.
Defined.

(** ** Identifiers over runs of calls *)

Section Runs.

Variable secure_filename : string → string.

Lemma note_step_keeps_docs op w :
  docs (_load_metadata (note_step secure_filename op w)) = docs (_load_metadata w).
Proof.
  destruct op; simpl; try reflexivity.
  all: cbv [create_note increment_note_view_count update_note delete_note
            add_note_attachment delete_note_attachment check_storage_available
            utcnow uuid4_hex8].
  all: step_frame.
Qed.

Lemma doc_step_keeps_notes op w :
  notes (_load_metadata (doc_step secure_filename op w)) = notes (_load_metadata w).
Proof.
  destruct op; simpl; try reflexivity.
  all: cbv [create_doc update_doc delete_doc add_doc_attachment delete_doc_attachment
            utcnow uuid4_hex8].
  all: step_frame.
Qed.

End Runs.

(** X5.  Whatever methods are called one after the other, on notes and on
    documents, with whatever arguments and whether they return or raise, a
    store in which no two notes and no two documents share an identifier
    stays such a store. *)
Theorem identifiers_stay_unique
    (secure_filename : string → string) (calls : list Call) (w : World) :
  NoDup (meta_id <$> notes (_load_metadata w)) →
  NoDup (meta_id <$> docs (_load_metadata w)) →
  NoDup (meta_id <$> notes (_load_metadata (run_calls secure_filename calls w)))
  ∧ NoDup (meta_id <$> docs (_load_metadata (run_calls secure_filename calls w))).
Proof.
  revert w. induction calls as [|[op|op] calls IH]; intros w Hnotes Hdocs; [done|..];
    cbn [run_calls]; apply IH.
  - by apply note_step_keeps_ids_unique.
  - by rewrite note_step_keeps_docs.
  - by rewrite doc_step_keeps_notes.
  - by apply doc_step_keeps_ids_unique.
Qed.

Lemma identifiers_stay_unique_witness :
  NoDup (meta_id <$> notes (_load_metadata (run_calls (λ name, name) calls1 store0)))
  ∧ meta_id <$> notes (_load_metadata (run_calls (λ name, name) calls1 store0)) = [2; 3].
Proof.
  split; [|by vm_compute].
  apply (identifiers_stay_unique (λ name, name) calls1 store0); apply NoDup_nil_2.
Defined.

(** ** Reads *)

Section Reads.

Lemma get_note_in_spec files note_id metas n :
  get_note_in files note_id metas = Some n ↔
  ∃ i m content,
    metas !! i = Some m ∧ meta_id m = note_id
    ∧ read_text (meta_filename m) files = Some content
    ∧ n = Note_of m content
    ∧ ∀ j y, (j < i)%nat → metas !! j = Some y → meta_id y = note_id →
             read_text (meta_filename y) files = None.
Proof.
  induction metas as [|m0 metas IH]; simpl.
  { split; [done|]. by intros (i & m & content & Hi & _). }
  assert (Hlater :
    get_note_in files note_id metas = Some n →
    (meta_id m0 = note_id → read_text (meta_filename m0) files = None) →
    ∃ i m content,
      (m0 :: metas) !! i = Some m ∧ meta_id m = note_id
      ∧ read_text (meta_filename m) files = Some content
      ∧ n = Note_of m content
      ∧ ∀ j y, (j < i)%nat → (m0 :: metas) !! j = Some y → meta_id y = note_id →
               read_text (meta_filename y) files = None).
  { intros (i & m & content & Hi & Hid & Hread & Hn & Hbefore)%IH Hm0.
    exists (S i), m, content. repeat split; try done.
    intros [|j] y Hj Hy Hyid; simpl in Hy.
    - injection Hy as <-. by apply Hm0.
    - apply (Hbefore j y); [lia|done..]. }
  assert (Hback :
    ∀ i m content,
      (m0 :: metas) !! S i = Some m → meta_id m = note_id →
      read_text (meta_filename m) files = Some content →
      n = Note_of m content →
      (∀ j y, (j < S i)%nat → (m0 :: metas) !! j = Some y → meta_id y = note_id →
              read_text (meta_filename y) files = None) →
      get_note_in files note_id metas = Some n).
  { intros i m content Hi Hid Hread Hn Hbefore. apply IH.
    exists i, m, content. repeat split; try done.
    intros j y Hj Hy Hyid. apply (Hbefore (S j) y); [lia|done..]. }
  destruct (decide (meta_id m0 = note_id)) as [Hid0|Hid0].
  - destruct (read_text (meta_filename m0) files) as [content0|] eqn:Hread0.
    + split.
      * intros [= <-]. exists 0%nat, m0, content0. repeat split; try done.
        intros j y Hj. lia.
      * intros ([|i] & m & content & Hi & Hid & Hread & Hn & Hbefore).
        -- simpl in Hi. injection Hi as <-. congruence.
        -- specialize (Hbefore 0%nat m0 ltac:(lia) eq_refl Hid0). congruence.
    + split; [intros Hget; by apply Hlater|].
      intros ([|i] & m & content & Hi & Hid & Hread & Hn & Hbefore).
      * simpl in Hi. injection Hi as <-. congruence.
      * by eapply Hback.
  - split; [intros Hget; by apply Hlater|].
    intros ([|i] & m & content & Hi & Hid & Hread & Hn & Hbefore).
    + simpl in Hi. injection Hi as <-. congruence.
    + by eapply Hback.
Qed.

Lemma get_doc_in_spec files doc_id metas d :
  get_doc_in files doc_id metas = Some d ↔
  ∃ i m content,
    metas !! i = Some m ∧ meta_id m = doc_id
    ∧ read_text (meta_filename m) files = Some content
    ∧ d = Document_of m content
    ∧ ∀ j y, (j < i)%nat → metas !! j = Some y → meta_id y = doc_id →
             read_text (meta_filename y) files = None.
Proof.
  induction metas as [|m0 metas IH]; simpl.
  { split; [done|]. by intros (i & m & content & Hi & _). }
  assert (Hlater :
    get_doc_in files doc_id metas = Some d →
    (meta_id m0 = doc_id → read_text (meta_filename m0) files = None) →
    ∃ i m content,
      (m0 :: metas) !! i = Some m ∧ meta_id m = doc_id
      ∧ read_text (meta_filename m) files = Some content
      ∧ d = Document_of m content
      ∧ ∀ j y, (j < i)%nat → (m0 :: metas) !! j = Some y → meta_id y = doc_id →
               read_text (meta_filename y) files = None).
  { intros (i & m & content & Hi & Hid & Hread & Hn & Hbefore)%IH Hm0.
    exists (S i), m, content. repeat split; try done.
    intros [|j] y Hj Hy Hyid; simpl in Hy.
    - injection Hy as <-. by apply Hm0.
    - apply (Hbefore j y); [lia|done..]. }
  assert (Hback :
    ∀ i m content,
      (m0 :: metas) !! S i = Some m → meta_id m = doc_id →
      read_text (meta_filename m) files = Some content →
      d = Document_of m content →
      (∀ j y, (j < S i)%nat → (m0 :: metas) !! j = Some y → meta_id y = doc_id →
              read_text (meta_filename y) files = None) →
      get_doc_in files doc_id metas = Some d).
  { intros i m content Hi Hid Hread Hn Hbefore. apply IH.
    exists i, m, content. repeat split; try done.
    intros j y Hj Hy Hyid. apply (Hbefore (S j) y); [lia|done..]. }
  destruct (decide (meta_id m0 = doc_id)) as [Hid0|Hid0].
  - destruct (read_text (meta_filename m0) files) as [content0|] eqn:Hread0.
    + split.
      * intros [= <-]. exists 0%nat, m0, content0. repeat split; try done.
        intros j y Hj. lia.
      * intros ([|i] & m & content & Hi & Hid & Hread & Hn & Hbefore).
        -- simpl in Hi. injection Hi as <-. congruence.
        -- specialize (Hbefore 0%nat m0 ltac:(lia) eq_refl Hid0). congruence.
    + split; [intros Hget; by apply Hlater|].
      intros ([|i] & m & content & Hi & Hid & Hread & Hn & Hbefore).
      * simpl in Hi. injection Hi as <-. congruence.
      * by eapply Hback.
  - split; [intros Hget; by apply Hlater|].
    intros ([|i] & m & content & Hi & Hid & Hread & Hn & Hbefore).
    + simpl in Hi. injection Hi as <-. congruence.
    + by eapply Hback.
Qed.

End Reads.

(** X6.  [get_note] and [get_doc] return an object exactly when some
    record of the kind carries the identifier and has its content file: the
    object is built from the first such record and the text of its file.
    Records with the identifier whose file is missing are passed over, and
    when every one of them lacks its file the result is [None], not an
    error. *)
Theorem get_reads_first_record_with_a_file (item_id : Z) (w : World) :
  (∀ n, get_note item_id w = Some n ↔
        ∃ i m content,
          notes (_load_metadata w) !! i = Some m ∧ meta_id m = item_id
          ∧ read_text (meta_filename m) (notes_dir w) = Some content
          ∧ n = Note_of m content
          ∧ ∀ j y, (j < i)%nat → notes (_load_metadata w) !! j = Some y →
                   meta_id y = item_id → notes_dir w !! meta_filename y = None)
  ∧ (∀ d, get_doc item_id w = Some d ↔
          ∃ i m content,
            docs (_load_metadata w) !! i = Some m ∧ meta_id m = item_id
            ∧ read_text (meta_filename m) (docs_dir w) = Some content
            ∧ d = Document_of m content
            ∧ ∀ j y, (j < i)%nat → docs (_load_metadata w) !! j = Some y →
                     meta_id y = item_id → docs_dir w !! meta_filename y = None).
Proof.
  assert (Hnone : ∀ name (files : gmap string string),
            read_text name files = None ↔ files !! name = None).
  { intros name files. unfold read_text. by destruct (files !! name). }
  split.
  - intros n. unfold get_note. rewrite get_note_in_spec.
    split; intros (i & m & content & Hi & Hid & Hread & Hn & Hbefore);
      exists i, m, content; repeat split; try done;
      intros j y Hj Hy Hyid; apply Hnone; by apply (Hbefore j y).
  - intros d. unfold get_doc. rewrite get_doc_in_spec.
    split; intros (i & m & content & Hi & Hid & Hread & Hn & Hbefore);
      exists i, m, content; repeat split; try done;
      intros j y Hj Hy Hyid; apply Hnone; by apply (Hbefore j y).
Qed.

(** ** Listings and reads together *)

Section ListingMembers.

Lemma selection_elem {A} (P : A → Prop) l kept :
  selection P l kept → ∀ x, x ∈ kept ↔ x ∈ l ∧ P x.
Proof.
  induction 1 as [|y l kept Hy Hsel IH|y l kept Hy Hsel IH]; intros x.
  - split; [by intros ?%elem_of_nil|by intros [?%elem_of_nil _]].
  - rewrite !elem_of_cons, IH. split.
    + intros [->|[Hx HP]]; [by split; [left|]|by split; [right|]].
    + intros [[->|Hx] HP]; [by left|by right].
  - rewrite elem_of_cons, IH. split.
    + intros [Hx HP]. by split; [right|].
    + intros [[->|Hx] HP]; [done|by split].
Qed.

Lemma sort_desc_elem {A} (key : A → Z) l x : x ∈ sort_desc key l ↔ x ∈ l.
Proof. by rewrite (proj1 (sort_desc_stably_sorted key l)). Qed.

Lemma get_all_notes_elem category search_query w n :
  n ∈ get_all_notes category search_query w ↔
  ∃ m, m ∈ notes (_load_metadata w)
       ∧ listed (str_lower w) (notes_dir w) category search_query m
       ∧ n = Note_of m (content_of (notes_dir w) m).
Proof.
  unfold get_all_notes. rewrite sort_desc_elem.
  destruct (collect_notes_selection (str_lower w) (notes_dir w) category search_query
              (notes (_load_metadata w))) as (kept & Hsel & ->).
  rewrite list_elem_of_fmap. split.
  - intros (m & -> & Hm). apply (selection_elem _ _ _ Hsel) in Hm as [Hm Hlisted].
    by exists m.
  - intros (m & Hm & Hlisted & ->). exists m. split; [done|].
    by apply (selection_elem _ _ _ Hsel).
Qed.

Lemma get_all_docs_elem category search_query w d :
  d ∈ get_all_docs category search_query w ↔
  ∃ m, m ∈ docs (_load_metadata w)
       ∧ listed (str_lower w) (docs_dir w) category search_query m
       ∧ d = Document_of m (content_of (docs_dir w) m).
Proof.
  unfold get_all_docs. rewrite sort_desc_elem.
  destruct (collect_docs_selection (str_lower w) (docs_dir w) category search_query
              (docs (_load_metadata w))) as (kept & Hsel & ->).
  rewrite list_elem_of_fmap. split.
  - intros (m & -> & Hm). apply (selection_elem _ _ _ Hsel) in Hm as [Hm Hlisted].
    by exists m.
  - intros (m & Hm & Hlisted & ->). exists m. split; [done|].
    by apply (selection_elem _ _ _ Hsel).
Qed.

Lemma listed_without_filter lower files category search_query m :
  listed lower files category search_query m → listed lower files None None m.
Proof.
  intros (_ & content & Hread & _). split; [by left; left|]. by exists content.
Qed.

Lemma unique_record_is_first (metas : list Meta) i m :
  NoDup (meta_id <$> metas) → metas !! i = Some m →
  ∀ j y, metas !! j = Some y → meta_id y = meta_id m → j = i.
Proof.
  intros Hnodup Hi j y Hj Hid.
  apply (NoDup_lookup _ j i (meta_id m) Hnodup); rewrite list_lookup_fmap.
  - by rewrite Hj, <- Hid.
  - by rewrite Hi.
Qed.

End ListingMembers.

(** X7.  In a store whose identifiers are unique within each kind, every
    object a listing returns, whatever the category and the search query,
    is the object that the read of its identifier returns; and every
    object a read returns is in the listing that filters nothing. *)
Theorem listing_and_read_agree (w : World) :
  NoDup (meta_id <$> notes (_load_metadata w)) →
  NoDup (meta_id <$> docs (_load_metadata w)) →
  (∀ category search_query n,
     n ∈ get_all_notes category search_query w → get_note (note_id n) w = Some n)
  ∧ (∀ item_id n, get_note item_id w = Some n → n ∈ get_all_notes None None w)
  ∧ (∀ category search_query d,
       d ∈ get_all_docs category search_query w → get_doc (doc_id d) w = Some d)
  ∧ (∀ item_id d, get_doc item_id w = Some d → d ∈ get_all_docs None None w).
Proof.
  intros Hnotes Hdocs. repeat split.
  - intros category search_query n (m & Hm & Hlisted & ->)%get_all_notes_elem.
    destruct Hlisted as (_ & content & Hread & _).
    apply list_elem_of_lookup in Hm as [i Hi].
    unfold get_note. apply get_note_in_spec. exists i, m, content.
    unfold content_of. rewrite Hread. repeat split; try done.
    intros j y Hj Hy Hyid.
    pose proof (unique_record_is_first _ _ _ Hnotes Hi j y Hy Hyid). lia.
  - intros id n (i & m & content & Hi & Hid & Hread & -> & _)%get_note_in_spec.
    apply get_all_notes_elem. exists m. split; [by eapply list_elem_of_lookup_2|].
    split; [split; [by left; left|by exists content]|].
    unfold content_of. by rewrite Hread.
  - intros category search_query d (m & Hm & Hlisted & ->)%get_all_docs_elem.
    destruct Hlisted as (_ & content & Hread & _).
    apply list_elem_of_lookup in Hm as [i Hi].
    unfold get_doc. apply get_doc_in_spec. exists i, m, content.
    unfold content_of. rewrite Hread. repeat split; try done.
    intros j y Hj Hy Hyid.
    pose proof (unique_record_is_first _ _ _ Hdocs Hi j y Hy Hyid). lia.
  - intros id d (i & m & content & Hi & Hid & Hread & -> & _)%get_doc_in_spec.
    apply get_all_docs_elem. exists m. split; [by eapply list_elem_of_lookup_2|].
    split; [split; [by left; left|by exists content]|].
    unfold content_of. by rewrite Hread.
Qed.

Lemma listing_and_read_agree_witness :
  get_note 2 store2
  = Some (Note_of (mkMeta 2 "Shopping" "2.txt" (Some "personal") None (Some []) (Some 0) 20
                     (Some 25) None) "Milk, eggs").
Proof.
  destruct (listing_and_read_agree store2) as (Hlisted & _).
  - apply (bool_decide_unpack _). by vm_compute.
  - apply (bool_decide_unpack _). by vm_compute.
  - apply (Hlisted (Some "personal") (Some "MILK")
             (Note_of (mkMeta 2 "Shopping" "2.txt" (Some "personal") None (Some [])
                         (Some 0) 20 (Some 25) None) "Milk, eggs")).
    assert (get_all_notes (Some "personal") (Some "MILK") store2
            = [Note_of (mkMeta 2 "Shopping" "2.txt" (Some "personal") None (Some [])
                          (Some 0) 20 (Some 25) None) "Milk, eggs"]) as ->
      by (by vm_compute).
    left.
Defined.

(** X8.  A category or a search query can only take objects out of a
    listing: whatever [get_all_notes] or [get_all_docs] returns with them is
    also returned by the listing without any filter. *)
Theorem filters_only_narrow (category search_query : option string) (w : World) :
  (∀ n, n ∈ get_all_notes category search_query w → n ∈ get_all_notes None None w)
  ∧ (∀ d, d ∈ get_all_docs category search_query w → d ∈ get_all_docs None None w).
Proof.
  split.
  - intros n (m & Hm & Hlisted & ->)%get_all_notes_elem. apply get_all_notes_elem.
    exists m. split; [done|]. split; [|done]. by eapply listed_without_filter.
  - intros d (m & Hm & Hlisted & ->)%get_all_docs_elem. apply get_all_docs_elem.
    exists m. split; [done|]. split; [|done]. by eapply listed_without_filter.
Qed.

Lemma filters_only_narrow_witness :
  Note_of (mkMeta 1 "Meeting Notes" "1.txt" (Some "work") None (Some []) (Some 3) 10
             (Some 10) None) "Discuss Q1 roadmap"
  ∈ get_all_notes None None store2.
Proof.
  apply (proj1 (filters_only_narrow (Some "work") (Some "roadmap") store2)).
  assert (get_all_notes (Some "work") (Some "roadmap") store2
          = [Note_of (mkMeta 1 "Meeting Notes" "1.txt" (Some "work") None (Some [])
                        (Some 3) 10 (Some 10) None) "Discuss Q1 roadmap"]) as ->
    by (by vm_compute).
  left.
Defined.

(** ** An update followed by a read *)

(** X9.  After [update_note] or [update_doc] is given a content for an
    identifier that a record carries, the read of that identifier returns
    the first such record as updated (the title and category supplied or
    else kept, ['updated_at'] the reading of the clock, ['created_at'] and
    the attachments as before) with the content as it is read back from the
    rewritten file; this holds even when the content file was missing
    before the update. *)
Theorem update_with_content_then_read
    (item_id : Z) (title category : option string) (content : string) (user_id : option Z)
    (w : World) :
  let text := read_newlines (write_newlines (linesep w) content) in
  (∀ i m, first_with_id item_id (notes (_load_metadata w)) i m →
     ∃ n, get_note item_id (snd (update_note item_id title (Some content) category user_id w))
          = Some n
          ∧ note_content n = text
          ∧ note_title n = default (meta_title m) title
          ∧ note_category n = default (default "general" (meta_category m)) category
          ∧ note_updated_at n = clock w (ticks w)
          ∧ note_created_at n = meta_created_at m
          ∧ note_attachments n = default [] (meta_attachments m)
          ∧ note_view_count n = default 0 (meta_view_count m))
  ∧ (∀ i m, first_with_id item_id (docs (_load_metadata w)) i m →
     ∃ d, get_doc item_id (snd (update_doc item_id title (Some content) category w))
          = Some d
          ∧ doc_content d = text
          ∧ doc_title d = default (meta_title m) title
          ∧ doc_category d = default (default "general" (meta_category m)) category
          ∧ doc_updated_at d = clock w (ticks w)
          ∧ doc_created_at d = meta_created_at m
          ∧ doc_attachments d = default [] (meta_attachments m)).
Proof.
  simpl. split; intros i m Hfirst; pose proof Hfirst as (Hi & Hid & Hbefore);
    apply find_by_id_first in Hfirst.
  - unfold update_note. rewrite Hfirst.
    destruct (apply_fields_supplied title (Some content) category w (notes_dir w) m)
      as (m1 & files' & Happly & Hfiles & Hm1); [right; by left|].
    rewrite Happly. simpl in Hfiles. subst files'.
    destruct (Hm1 (clock w (ticks w)))
      as [(Hupd & Htitle & Hcat & Hmid & Hname & _ & Hatts & Hviews & Hcreated) _].
    set (m2 := match user_id with
               | Some u => set_updated_by u (set_updated_at (clock w (ticks w)) m1)
               | None => set_updated_at (clock w (ticks w)) m1
               end).
    assert (Hm2 : meta_id m2 = item_id ∧ meta_filename m2 = meta_filename m
                  ∧ meta_title m2 = default (meta_title m) title
                  ∧ meta_category m2
                    = match category with Some c => Some c | None => meta_category m end
                  ∧ meta_updated_at m2 = Some (clock w (ticks w))
                  ∧ meta_created_at m2 = meta_created_at m
                  ∧ meta_attachments m2 = meta_attachments m
                  ∧ meta_view_count m2 = meta_view_count m).
    { subst m2. destruct user_id; simpl in *; repeat split; congruence. }
    destruct Hm2 as (Hid2 & Hname2 & Htitle2 & Hcat2 & Hupd2 & Hcreated2 & Hatts2 & Hviews2).
    exists (Note_of m2 (read_newlines (write_newlines (linesep w) content))).
    split.
    + unfold get_note. apply get_note_in_spec. simpl.
      exists i, m2, (read_newlines (write_newlines (linesep w) content)).
      split; [apply list_lookup_insert_eq; by eapply lookup_lt_Some|].
      split; [done|]. split.
      { unfold read_text. by rewrite Hname2, lookup_insert_eq. }
      split; [done|]. intros j y Hj Hy Hyid.
      rewrite list_lookup_insert_ne in Hy by lia. by destruct (Hbefore j y Hy Hj).
    + unfold Note_of. simpl.
      rewrite Htitle2, Hcat2, Hupd2, Hcreated2, Hatts2, Hviews2.
      repeat split. by destruct category.
  - unfold update_doc. rewrite Hfirst.
    destruct (apply_fields_supplied title (Some content) category w (docs_dir w) m)
      as (m1 & files' & Happly & Hfiles & Hm1); [right; by left|].
    rewrite Happly. simpl in Hfiles. subst files'.
    destruct (Hm1 (clock w (ticks w)))
      as [(Hupd & Htitle & Hcat & Hmid & Hname & _ & Hatts & Hviews & Hcreated) _].
    exists (Document_of (set_updated_at (clock w (ticks w)) m1)
              (read_newlines (write_newlines (linesep w) content))).
    split.
    + unfold get_doc. apply get_doc_in_spec. simpl.
      exists i, (set_updated_at (clock w (ticks w)) m1),
        (read_newlines (write_newlines (linesep w) content)).
      split; [apply list_lookup_insert_eq; by eapply lookup_lt_Some|].
      split; [congruence|]. split.
      { unfold read_text. by rewrite Hname, lookup_insert_eq. }
      split; [done|]. intros j y Hj Hy Hyid.
      rewrite list_lookup_insert_ne in Hy by lia. by destruct (Hbefore j y Hy Hj).
    + unfold Document_of. rewrite Htitle, Hcat, Hupd, Hcreated, Hatts.
      repeat split. by destruct category.
Qed.

Lemma update_with_content_then_read_witness :
  get_note 1 store_missing_file = None
  ∧ ∃ n, get_note 1 (snd (update_note 1 None (Some "New agenda") None (Some 5)
                            store_missing_file)) = Some n
         ∧ note_content n = "New agenda"
         ∧ note_title n = "Meeting Notes".
Proof.
  split; [reflexivity|].
  destruct (proj1 (update_with_content_then_read 1 None None "New agenda" (Some 5)
                     store_missing_file) 0%nat
              (mkMeta 1 "Meeting Notes" "1.txt" (Some "work") None (Some [])
                 (Some 3) 10 (Some 10) None))
    as (n & Hget & Hcontent & Htitle & _).
  - repeat split. intros j y _ Hj. lia.
  - exists n. split; [exact Hget|]. split; [exact Hcontent|exact Htitle].
Defined.

(** ** Removals that fail *)

Section FailedRemovals.

Lemma remove_if_exists_raises {V} (fails : string → bool) name (files : gmap string V) :
  remove_if_exists fails name files = None → fails name = true.
Proof.
  unfold remove_if_exists. destruct (files !! name); [|done]. by destruct (fails name).
Qed.

Lemma remove_attachments_raises fails attachments : ∀ files files' name,
  remove_attachments fails attachments files = (files', Some name) → fails name = true.
Proof.
  induction attachments as [|a attachments IH]; intros files files' name; simpl; [done|].
  destruct (remove_if_exists fails (att_filename a) files) as [files1|] eqn:Hremove.
  - apply IH.
  - intros [= _ <-]. by eapply remove_if_exists_raises.
Qed.

End FailedRemovals.

(** X10.  [delete_note], [delete_doc] and [delete_doc_attachment] raise
    only the error of an [os.remove] that failed on the file named, and
    when they do the metadata file is what it was: the record, or the
    attachment entry, is still in the index.  [delete_doc_attachment]
    changes nothing at all in that case. *)
Theorem failed_removal_keeps_the_index
    (item_id : Z) (attachment_filename : string) (w : World) (d : Dir) (name : string) :
  (fst (delete_note item_id w) = Raise (OSError d name) →
   remove_fails w d name = true
   ∧ metadata_file (snd (delete_note item_id w)) = metadata_file w)
  ∧ (fst (delete_doc item_id w) = Raise (OSError d name) →
     remove_fails w d name = true
     ∧ metadata_file (snd (delete_doc item_id w)) = metadata_file w)
  ∧ (fst (delete_doc_attachment item_id attachment_filename w) = Raise (OSError d name) →
     remove_fails w d name = true
     ∧ snd (delete_doc_attachment item_id attachment_filename w) = w).
Proof.
  split; [|split].
  - unfold delete_note.
    destruct (find_by_id _ _) as [[i m]|]; [|done].
    destruct (remove_if_exists _ _ (notes_dir w)) as [files|] eqn:Hfile.
    + simpl.
      destruct (remove_attachments _ _ _) as [uploads [failed|]] eqn:Hatts; [|done].
      simpl. intros [= <- <-]. split; [|done].
      by eapply remove_attachments_raises.
    + simpl. intros [= <- <-]. split; [|done]. by eapply remove_if_exists_raises.
  - unfold delete_doc.
    destruct (find_by_id _ _) as [[i m]|]; [|done].
    destruct (remove_if_exists _ _ (docs_dir w)) as [files|] eqn:Hfile.
    + simpl.
      destruct (remove_attachments _ _ _) as [uploads [failed|]] eqn:Hatts; [|done].
      simpl. intros [= <- <-]. split; [|done].
      by eapply remove_attachments_raises.
    + simpl. intros [= <- <-]. split; [|done]. by eapply remove_if_exists_raises.
  - unfold delete_doc_attachment.
    destruct (locate_attachment _ _ _) as [[[i m] a]|]; [|done].
    destruct (remove_if_exists _ _ _) as [uploads|] eqn:Hfile; [done|].
    simpl. intros [= <- <-]. split; [|done]. by eapply remove_if_exists_raises.
Qed.

Lemma failed_removal_keeps_the_index_witness :
  fst (delete_note 1 locked_store) = Raise (OSError NotesDir "1.txt")
  ∧ metadata_file (snd (delete_note 1 locked_store)) = metadata_file locked_store.
Proof.
  assert (Hraise : fst (delete_note 1 locked_store) = Raise (OSError NotesDir "1.txt"))
    by (by vm_compute).
  split; [exact Hraise|].
  exact (proj2 (proj1 (failed_removal_keeps_the_index 1 "" locked_store NotesDir "1.txt")
                  Hraise)).
Defined.

(** ** A view counted, then read *)

(** X11.  In a store whose note identifiers are unique, a note that
    [get_note] returns is returned again after
    [increment_note_view_count] of its identifier with a view count one
    higher and every other attribute, the content included, unchanged. *)
Theorem view_count_read_after_increment (item_id : Z) (w : World) (n : Note) :
  NoDup (meta_id <$> notes (_load_metadata w)) →
  get_note item_id w = Some n →
  fst (increment_note_view_count item_id w) = true
  ∧ get_note item_id (snd (increment_note_view_count item_id w))
    = Some (mkNote (note_id n) (note_title n) (note_content n) (note_category n)
              (note_user_id n) (note_attachments n) (note_view_count n + 1)
              (note_created_at n) (note_updated_at n) (note_updated_by n)).
Proof.
  intros Hnodup (i & m & content & Hi & Hid & Hread & -> & _)%get_note_in_spec.
  assert (Hfirst : first_with_id item_id (notes (_load_metadata w)) i m).
  { repeat split; [done..|]. intros j y Hy Hj Hyid.
    assert (j = i); [|lia].
    apply (unique_record_is_first _ _ _ Hnodup Hi j y Hy). congruence. }
  destruct Hfirst as (_ & _ & Hbefore).
  assert (Hfind : find_by_id item_id (notes (_load_metadata w)) = Some (i, m)).
  { apply find_by_id_first. by repeat split. }
  unfold increment_note_view_count. rewrite Hfind. simpl. split; [done|].
  unfold get_note. apply get_note_in_spec. simpl.
  exists i, (set_view_count (default 0 (meta_view_count m) + 1) m), content.
  split; [apply list_lookup_insert_eq; by eapply lookup_lt_Some|].
  split; [done|]. split; [done|]. split; [done|].
  intros j y Hj Hy Hyid.
  rewrite list_lookup_insert_ne in Hy by lia. by destruct (Hbefore j y Hy Hj).
Qed.

Lemma view_count_read_after_increment_witness :
  note_view_count <$> get_note 1 (snd (increment_note_view_count 1 store2)) = Some 4.
Proof.
  destruct (view_count_read_after_increment 1 store2
              (Note_of (mkMeta 1 "Meeting Notes" "1.txt" (Some "work") None (Some [])
                          (Some 3) 10 (Some 10) None) "Discuss Q1 roadmap"))
    as [_ ->].
  - apply (bool_decide_unpack _). by vm_compute.
  - reflexivity.
  - reflexivity.
Defined.

(** ** Storage freed by a removed attachment *)

(** X12.  When [delete_note_attachment] returns [True], the storage total
    goes down by exactly the size of the attachment's file if the file was
    there and could be removed, and stays what it was if the file was
    already gone or could not be removed. *)
Theorem removed_attachment_frees_its_bytes
    (item_id : Z) (attachment_filename : string) (w : World) :
  let w' := snd (delete_note_attachment item_id attachment_filename w) in
  fst (delete_note_attachment item_id attachment_filename w) = true →
  match notes_uploads_dir w !! attachment_filename with
  | Some size =>
      if remove_fails w NotesUploadsDir attachment_filename
      then get_total_storage_size w' = get_total_storage_size w
           ∧ notes_uploads_dir w' !! attachment_filename = Some size
      else get_total_storage_size w' = get_total_storage_size w - size
           ∧ notes_uploads_dir w' !! attachment_filename = None
  | None => get_total_storage_size w' = get_total_storage_size w
  end.
Proof.
  simpl. unfold delete_note_attachment.
  destruct (locate_attachment _ _ _) as [[[i m] a]|]; [|done].
  intros _. unfold remove_if_exists.
  destruct (notes_uploads_dir w !! attachment_filename) as [size|] eqn:Hfile; [|done].
  destruct (remove_fails w NotesUploadsDir attachment_filename); [done|].
  simpl. split; [|apply lookup_delete_eq].
  unfold get_total_storage_size. simpl.
  rewrite (dir_size_delete id _ _ _ Hfile). simpl. lia.
Qed.

Lemma removed_attachment_frees_its_bytes_witness :
  get_total_storage_size
    (snd (delete_note_attachment 1 "1_cafebabe.pdf" store_with_attachments))
  = get_total_storage_size store_with_attachments - 20.
Proof.
  pose proof (removed_attachment_frees_its_bytes 1 "1_cafebabe.pdf"
                store_with_attachments eq_refl) as Hfreed.
  exact (proj1 Hfreed).
Defined.

(** ** Category listings *)

Section Categories.

Lemma compare_lt_trans a b c :
  String.compare a b = Lt → String.compare b c = Lt → String.compare a c = Lt.
Proof.
  intros Hab Hbc. apply OrderedTypeEx.String_as_OT.cmp_lt.
  eapply OrderedTypeEx.String_as_OT.lt_trans;
    by apply OrderedTypeEx.String_as_OT.cmp_lt.
Qed.

Lemma insert_category_elem c sorted x :
  x ∈ insert_category c sorted ↔ x = c ∨ x ∈ sorted.
Proof.
  induction sorted as [|d sorted IH]; simpl.
  - rewrite list_elem_of_singleton. split; [by left|]. by intros [?|?%elem_of_nil].
  - destruct (String.compare c d) eqn:Hcmp.
    + apply String.compare_eq_iff in Hcmp as ->. rewrite elem_of_cons.
      split; [by right|]. by intros [->|?]; [left|].
    + by rewrite elem_of_cons.
    + rewrite !elem_of_cons, IH. split.
      * intros [->|[->|Hx]]; [right; by left|by left|right; by right].
      * intros [->|[->|Hx]]; [right; by left|by left|right; by right].
Qed.

Lemma insert_category_sorted c sorted :
  StronglySorted (λ a b : string, String.compare a b = Lt) sorted →
  StronglySorted (λ a b : string, String.compare a b = Lt) (insert_category c sorted).
Proof.
  induction sorted as [|d sorted IH]; intros Hsorted; simpl.
  - repeat constructor.
  - apply StronglySorted_inv in Hsorted as [Hrest Hd].
    destruct (String.compare c d) eqn:Hcmp.
    + by constructor.
    + constructor; [by constructor|]. constructor; [done|].
      eapply Forall_impl; [exact Hd|]. intros x Hx. by eapply compare_lt_trans.
    + constructor; [by apply IH|].
      apply Forall_forall. intros x [->|Hx]%insert_category_elem.
      * rewrite String.compare_antisym, Hcmp. done.
      * rewrite Forall_forall in Hd. by apply Hd.
Qed.

Lemma categories_of_spec metas :
  (∀ c, c ∈ categories_of metas ↔
        ∃ m, m ∈ metas ∧ default "general" (meta_category m) = c)
  ∧ StronglySorted (λ a b : string, String.compare a b = Lt) (categories_of metas).
Proof.
  induction metas as [|m metas [IHelem IHsorted]]; simpl.
  - split; [|constructor]. intros c. split; [by intros ?%elem_of_nil|].
    by intros (m & ?%elem_of_nil & _).
  - split; [|by apply insert_category_sorted].
    intros c. rewrite insert_category_elem, IHelem. split.
    + intros [->|(x & Hx & Hc)]; [exists m; by split; [left|]|].
      exists x. by split; [right|].
    + intros (x & [->|Hx]%elem_of_cons & Hc); [by left|]. right. by exists x.
Qed.

End Categories.

(** X13.  [get_note_categories] and [get_doc_categories] return the
    categories of the records of their kind, a record without category
    counting as ["general"]: every such category is in the list, nothing
    else is, and the list is in strictly ascending order, so that no
    category comes twice. *)
Theorem categories_are_listed_once_in_order (w : World) :
  ((∀ c, c ∈ get_note_categories w ↔
         ∃ m, m ∈ notes (_load_metadata w) ∧ default "general" (meta_category m) = c)
   ∧ StronglySorted (λ a b, String.compare a b = Lt) (get_note_categories w))
  ∧ ((∀ c, c ∈ get_doc_categories w ↔
           ∃ m, m ∈ docs (_load_metadata w) ∧ default "general" (meta_category m) = c)
     ∧ StronglySorted (λ a b, String.compare a b = Lt) (get_doc_categories w)).
Proof. split; apply categories_of_spec. Qed.

(** ** A creation over an unreadable index *)

(** X14.  When the metadata file is missing or cannot be parsed,
    [create_note] numbers the new note 1, writes its content over whatever
    [1.txt] held, and saves an index that holds this note alone and no
    document: what the unreadable file recorded is not recovered. *)
Theorem create_over_unreadable_index_starts_again
    (title content category : string) (user_id : option Z) (w : World) :
  unreadable (metadata_file w) →
  note_id <$> fst (create_note title content category user_id w) = Some 1
  ∧ notes_dir (snd (create_note title content category user_id w)) !! "1.txt"
    = Some (write_newlines (linesep w) content)
  ∧ metadata_file (snd (create_note title content category user_id w))
    = JsonOf {| notes := [mkMeta 1 title "1.txt" (Some category) user_id (Some []) (Some 0)
                            (clock w (ticks w)) (Some (clock w (S (ticks w)))) None];
                docs := [] |}.
Proof.
  intros Hbad.
  assert (Hload : _load_metadata w = empty_index).
  { unfold _load_metadata. by destruct (metadata_file w). }
  assert (Hnext : get_next_id note w = 1).
  { unfold get_next_id. by rewrite Hload. }
  destruct (create_note_spec title content category user_id w) as [-> _].
  split; [simpl; by rewrite Hnext|].
  unfold create_note. rewrite Hnext. simpl.
  split; [apply lookup_insert_eq|].
  unfold _save_metadata, with_metadata_file. simpl.
  change (_load_metadata _) with (_load_metadata w). by rewrite Hload.
Qed.

Lemma create_over_unreadable_index_starts_again_witness :
  notes_dir corrupt_store !! "1.txt" = Some "Discuss Q1 roadmap"
  ∧ notes_dir (snd (create_note "Shopping" "Milk, eggs" "personal" None corrupt_store))
    !! "1.txt" = Some "Milk, eggs".
Proof.
  split; [reflexivity|].
  exact (proj1 (proj2 (create_over_unreadable_index_starts_again
                         "Shopping" "Milk, eggs" "personal" None corrupt_store I))).
Defined.

(** ** Construction *)

(** X15.  Constructing the store never changes what a load of the index
    returns nor any file beside the metadata file, leaves a metadata file
    in place, leaves an existing metadata file as it is even when it cannot
    be parsed, and doing it twice is doing it once. *)
Theorem construction_keeps_the_index (w : World) :
  _load_metadata (__init__ w) = _load_metadata w
  ∧ same_outside_index w (__init__ w)
  ∧ metadata_file (__init__ w) ≠ NoFile
  ∧ (metadata_file w ≠ NoFile → __init__ w = w)
  ∧ __init__ (__init__ w) = __init__ w.
Proof.
  unfold __init__, _load_metadata.
  destruct (metadata_file w) eqn:Hfile; simpl; rewrite ?Hfile; by repeat split.
Qed.

Example get_note_categories_of_mixed_records :
  get_note_categories store_categories = ["Work"; "general"; "work"].
Proof. by vm_compute. Qed.

Lemma construction_keeps_the_index_witness :
  __init__ corrupt_store = corrupt_store
  ∧ metadata_file (__init__ store0) = JsonOf empty_index.
Proof.
  split; [|reflexivity].
  apply (proj1 (proj2 (proj2 (proj2 (construction_keeps_the_index corrupt_store))))).
  discriminate.
Defined.

(** ** Letter case of a search query *)

Section QueryCase.




End QueryCase.



(** ** Configuration *)

Section Configuration.

Lemma replace_first_at_start old new s :
  String.prefix old s = true →
  replace_first old new s = new ++ str_drop (String.length old) s.
Proof. intros Hprefix. destruct s; cbn [replace_first]; by rewrite Hprefix. Qed.

End Configuration.

(** X17.  The database URI of the configuration never starts with
    [postgres://]: a [DATABASE_URL] with that scheme is rewritten to
    [postgresql://] followed by the rest of the URL, any other non-empty
    URL is taken as it is, and without a URL, or with an empty one, the URI
    is the SQLite file under the data directory. *)
Theorem database_uri_never_has_postgres_scheme
    (DATABASE_URL : option string) (database_path : string) :
  String.prefix "postgres://" (SQLALCHEMY_DATABASE_URI DATABASE_URL database_path) = false
  ∧ (∀ rest, DATABASE_URL = Some ("postgres://" ++ rest) →
       SQLALCHEMY_DATABASE_URI DATABASE_URL database_path = "postgresql://" ++ rest)
  ∧ (∀ url, DATABASE_URL = Some url → url ≠ "" →
       String.prefix "postgres://" url = false →
       SQLALCHEMY_DATABASE_URI DATABASE_URL database_path = url)
  ∧ (DATABASE_URL = None ∨ DATABASE_URL = Some "" →
       SQLALCHEMY_DATABASE_URI DATABASE_URL database_path = "sqlite:///" ++ database_path).
Proof.
  assert (Hpg : ∀ rest, replace_first "postgres://" "postgresql://" ("postgres://" ++ rest)
                        = "postgresql://" ++ rest).
  { intros rest. rewrite replace_first_at_start; [reflexivity|].
    apply prefix_spec. by exists rest. }
  unfold SQLALCHEMY_DATABASE_URI, truthy, default. repeat split.
  - destruct DATABASE_URL as [url|]; [|done]. cbn [from_option]. unfold id.
    destruct (String.eqb_spec url "") as [->|Hne]; [done|]. cbn [negb andb].
    destruct (String.prefix "postgres://" url) eqn:Hprefix.
    + apply prefix_spec in Hprefix as [rest ->]. by rewrite Hpg.
    + by destruct (String.eqb_spec url "").
  - intros rest ->. cbn [from_option]. unfold id.
    assert (String.prefix "postgres://" ("postgres://" ++ rest) = true) as ->
      by (apply prefix_spec; by exists rest).
    by rewrite Hpg.
  - intros url -> Hne Hprefix. cbn [from_option]. unfold id. rewrite Hprefix.
    destruct (String.eqb_spec url ""); [done|]. cbn [negb andb].
    by destruct (String.eqb_spec url "").
  - by intros [-> | ->].
Qed.

Lemma database_uri_never_has_postgres_scheme_witness :
  SQLALCHEMY_DATABASE_URI (Some "postgres://user:pw@db.internal:5432/app") "/srv/data/database.db"
  = "postgresql://user:pw@db.internal:5432/app"
  ∧ SQLALCHEMY_DATABASE_URI (Some "mysql://db/app") "/srv/data/database.db" = "mysql://db/app".
Proof.
  destruct (database_uri_never_has_postgres_scheme
              (Some "postgres://user:pw@db.internal:5432/app") "/srv/data/database.db")
    as (_ & Hrewrite & _).
  destruct (database_uri_never_has_postgres_scheme
              (Some "mysql://db/app") "/srv/data/database.db")
    as (_ & _ & Hkeep & _).
  split.
  - apply (Hrewrite "user:pw@db.internal:5432/app"). reflexivity.
  - apply (Hkeep "mysql://db/app"); [reflexivity|discriminate|reflexivity].
Defined.

(** X18.  [get_config] never fails: it gives the production
    configuration, the only one with [DEBUG] off, exactly for the name
    ["production"], the testing configuration exactly for ["testing"], and
    the development configuration for every other name, misspelt ones
    included; the name is the argument or, without one, the variable
    [FLASK_ENV], or ["development"]. *)
Theorem get_config_falls_back_to_development (env FLASK_ENV : option string) :
  let name :=
    match env with
    | Some name => name
    | None => default "development" FLASK_ENV
    end in
  (get_config env FLASK_ENV = ProductionConfig ↔ name = "production")
  ∧ (get_config env FLASK_ENV = TestingConfig ↔ name = "testing")
  ∧ (DEBUG (get_config env FLASK_ENV) = false ↔ name = "production")
  ∧ (get_config env FLASK_ENV = DevelopmentConfig ↔
     name ≠ "production" ∧ name ≠ "testing").
Proof.
  simpl. unfold get_config.
  set (name := match env with Some name => name | None => default "development" FLASK_ENV end).
  assert (Hcases :
    (name = "production" ∧ config !! name = Some ProductionConfig)
    ∨ (name = "testing" ∧ config !! name = Some TestingConfig)
    ∨ (name ≠ "production" ∧ name ≠ "testing"
       ∧ default (config !!! "default") (config !! name) = DevelopmentConfig)).
  { destruct (decide (name = "production")) as [->|Hprod]; [by left|].
    destruct (decide (name = "testing")) as [->|Htest]; [right; by left|].
    right; right. split; [done|]. split; [done|]. unfold config.
    destruct (decide (name = "development")) as [->|Hdev]; [done|].
    destruct (decide (name = "default")) as [->|Hdef]; [done|].
    rewrite !lookup_insert_ne by done. by rewrite lookup_singleton_ne. }
  clearbody name.
  destruct Hcases as [[-> ->]|[[-> ->]|(Hprod & Htest & ->)]]; simpl;
    repeat split; try done; by intros [? ?].
Qed.

(** ** Names of content files *)

Section FileNames.

Variable secure_filename : string → string.

Lemma str_of_int_inj a b : str_of_int a = str_of_int b → a = b.
Proof.
  unfold str_of_int. intros Heq.
  assert (Hparse : ∀ z, NilZero.int_of_string (NilZero.string_of_int (Z.to_int z))
                        = Some (Z.to_int z)).
  { intros z. apply NilZero.isi; destruct z; simpl; try done;
      intros [= Hnil]; by apply DecimalPos.Unsigned.to_uint_nonnil in Hnil. }
  pose proof (Hparse a) as Ha. rewrite Heq, Hparse in Ha. injection Ha as Ha.
  by rewrite <- (DecimalZ.of_to a), <- (DecimalZ.of_to b), Ha.
Qed.

Lemma append_inj_l a b s : a ++ s = b ++ s → a = b.
Proof.
  assert (Hlen : ∀ x y : string, String.length (x ++ y)
                                 = (String.length x + String.length y)%nat).
  { induction x as [|c x IH]; intros y; simpl; [done|]. by rewrite IH. }
  revert b. induction a as [|c a IH]; intros [|c' b] Heq; simpl in Heq.
  - done.
  - apply (f_equal String.length) in Heq. simpl in Heq. rewrite !Hlen in Heq.
    simpl in Heq. lia.
  - apply (f_equal String.length) in Heq. simpl in Heq. rewrite !Hlen in Heq.
    simpl in Heq. lia.
  - injection Heq as -> Heq. f_equal. by apply IH.
Qed.

Lemma file_name_inj a b : str_of_int a ++ ".txt" = str_of_int b ++ ".txt" → a = b.
Proof. intros Heq%append_inj_l. by apply str_of_int_inj. Qed.

Lemma named_by_id_insert (metas : list Meta) i m m' :
  named_by_id metas → metas !! i = Some m →
  meta_id m' = meta_id m → meta_filename m' = meta_filename m →
  named_by_id (<[i := m']> metas).
Proof.
  intros Hnamed Hi Hid Hname x Hx.
  apply list_elem_of_lookup in Hx as [j Hj].
  destruct (decide (i = j)) as [->|Hne].
  - rewrite list_lookup_insert_eq in Hj by (by eapply lookup_lt_Some).
    injection Hj as <-. rewrite Hname, Hid. apply Hnamed.
    by eapply list_elem_of_lookup_2.
  - rewrite list_lookup_insert_ne in Hj by done. apply Hnamed.
    by eapply list_elem_of_lookup_2.
Qed.

Lemma named_by_id_delete (metas : list Meta) i :
  named_by_id metas → named_by_id (delete i metas).
Proof.
  intros Hnamed x Hx. apply Hnamed. eapply elem_of_sublist; [exact Hx|].
  apply sublist_delete.
Qed.

Lemma named_by_id_app (metas : list Meta) m :
  named_by_id metas → meta_filename m = str_of_int (meta_id m) ++ ".txt" →
  named_by_id (metas ++ [m])%list.
Proof.
  intros Hnamed Hm x [Hx|Hx%list_elem_of_singleton]%elem_of_app; [by apply Hnamed|].
  by subst.
Qed.

Lemma apply_fields_filename title content category w files m :
  meta_filename (apply_fields title content category w files m).1.1 = meta_filename m.
Proof. unfold apply_fields. by destruct title, category, content. Qed.

Lemma note_step_keeps_names op w :
  named_by_id (notes (_load_metadata w)) →
  named_by_id (notes (_load_metadata (note_step secure_filename op w))).
Proof.
  intros Hnamed. destruct op; cbn [note_step]; try done.
  - destruct (create_note_spec title content category user_id w) as [_ ->]. simpl.
    by apply named_by_id_app.
  - unfold increment_note_view_count.
    destruct (find_by_id _ _) as [[i m]|] eqn:Hfind; [|done].
    apply find_by_id_first in Hfind as (Hi & _). simpl.
    by apply (named_by_id_insert _ _ m).
  - unfold update_note.
    destruct (find_by_id _ _) as [[i m]|] eqn:Hfind; [|done].
    apply find_by_id_first in Hfind as (Hi & _).
    pose proof (apply_fields_id title content category w (notes_dir w) m) as Hid.
    pose proof (apply_fields_filename title content category w (notes_dir w) m) as Hname.
    destruct (apply_fields _ _ _ _ _ _) as [[m' files] updated]. simpl in Hid, Hname.
    destruct updated; [|done]. simpl.
    apply (named_by_id_insert _ _ m); [done..| |]; by destruct user_id.
  - unfold delete_note.
    destruct (find_by_id _ _) as [[i m]|] eqn:Hfind; [|done].
    apply find_by_id_first in Hfind.
    destruct (remove_if_exists _ _ _); [|done]. simpl.
    destruct (remove_attachments _ _ _) as [uploads [name|]]; [done|]. simpl.
    rewrite (list_remove_first_at _ _ _ _ Hfind). by apply named_by_id_delete.
  - unfold add_note_attachment, check_storage_available.
    destruct (_ >? _); [done|]. simpl.
    destruct (find_by_id _ _) as [[i m]|] eqn:Hfind; [|done].
    apply find_by_id_first in Hfind as (Hi & _).
    destruct (String.eqb _ _); [done|]. simpl.
    by apply (named_by_id_insert _ _ m).
  - unfold delete_note_attachment.
    destruct (locate_attachment _ _ _) as [[[i m] a]|] eqn:Hloc; [|done].
    apply locate_attachment_Some in Hloc as (Hi & _). simpl.
    by apply (named_by_id_insert _ _ m).
Qed.

Lemma doc_step_keeps_names op w :
  named_by_id (docs (_load_metadata w)) →
  named_by_id (docs (_load_metadata (doc_step secure_filename op w))).
Proof.
  intros Hnamed. destruct op; cbn [doc_step]; try done.
  - destruct (create_doc_spec title content category user_id w) as [_ ->]. simpl.
    by apply named_by_id_app.
  - unfold update_doc.
    destruct (find_by_id _ _) as [[i m]|] eqn:Hfind; [|done].
    apply find_by_id_first in Hfind as (Hi & _).
    pose proof (apply_fields_id title content category w (docs_dir w) m) as Hid.
    pose proof (apply_fields_filename title content category w (docs_dir w) m) as Hname.
    destruct (apply_fields _ _ _ _ _ _) as [[m' files] updated]. simpl in Hid, Hname.
    destruct updated; [|done]. simpl.
    by apply (named_by_id_insert _ _ m).
  - unfold delete_doc.
    destruct (find_by_id _ _) as [[i m]|] eqn:Hfind; [|done].
    apply find_by_id_first in Hfind.
    destruct (remove_if_exists _ _ _); [|done]. simpl.
    destruct (remove_attachments _ _ _) as [uploads [name|]]; [done|]. simpl.
    rewrite (list_remove_first_at _ _ _ _ Hfind). by apply named_by_id_delete.
  - unfold add_doc_attachment.
    destruct (find_by_id _ _) as [[i m]|] eqn:Hfind; [|done].
    apply find_by_id_first in Hfind as (Hi & _).
    destruct (String.eqb _ _); [done|]. simpl.
    by apply (named_by_id_insert _ _ m).
  - unfold delete_doc_attachment.
    destruct (locate_attachment _ _ _) as [[[i m] a]|] eqn:Hloc; [|done].
    apply locate_attachment_Some in Hloc as (Hi & _).
    destruct (remove_if_exists _ _ _); [|done]. simpl.
    by apply (named_by_id_insert _ _ m).
Qed.

End FileNames.

(** X19.  Whatever methods are called one after the other, a store in
    which the content file of every record is named [<id>.txt] after the
    record's identifier stays such a store: no method renames a content
    file or points a record at another one. *)
Theorem content_files_stay_named_by_id
    (secure_filename : string → string) (calls : list Call) (w : World) :
  named_by_id (notes (_load_metadata w)) →
  named_by_id (docs (_load_metadata w)) →
  named_by_id (notes (_load_metadata (run_calls secure_filename calls w)))
  ∧ named_by_id (docs (_load_metadata (run_calls secure_filename calls w))).
Proof.
  revert w. induction calls as [|[op|op] calls IH]; intros w Hnotes Hdocs; [done|..];
    cbn [run_calls]; apply IH.
  - by apply note_step_keeps_names.
  - by rewrite note_step_keeps_docs.
  - by rewrite doc_step_keeps_notes.
  - by apply doc_step_keeps_names.
Qed.

Lemma content_files_stay_named_by_id_witness :
  named_by_id (notes (_load_metadata (run_calls (λ name, name) calls1 store0)))
  ∧ meta_filename <$> notes (_load_metadata (run_calls (λ name, name) calls1 store0))
    = ["2.txt"; "3.txt"].
Proof.
  split; [|by vm_compute].
  apply (content_files_stay_named_by_id (λ name, name) calls1 store0);
    by intros m Hm%elem_of_nil.
Defined.

(** ** Calls for one note and reads of another *)

Section OtherNotes.

Variable secure_filename : string → string.

Lemma get_note_in_same_files files files' item_id metas :
  (∀ m, m ∈ metas → meta_id m = item_id →
        files' !! meta_filename m = files !! meta_filename m) →
  get_note_in files' item_id metas = get_note_in files item_id metas.
Proof.
  induction metas as [|m metas IH]; intros Hfiles; [done|]. simpl.
  rewrite IH by (intros x Hx; apply Hfiles; by right).
  destruct (decide (meta_id m = item_id)) as [Hid|_]; [|done].
  unfold read_text. by rewrite (Hfiles m) by (done || left).
Qed.

Lemma get_note_in_insert_other files item_id metas : ∀ i m m',
  metas !! i = Some m → meta_id m ≠ item_id → meta_id m' ≠ item_id →
  get_note_in files item_id (<[i := m']> metas) = get_note_in files item_id metas.
Proof.
  induction metas as [|m0 metas IH]; intros [|i] m m' Hi Hm Hm'; try done; simpl in *.
  - injection Hi as ->. by rewrite !decide_False.
  - by rewrite (IH i m m').
Qed.

Lemma get_note_in_delete_other files item_id metas : ∀ i m,
  metas !! i = Some m → meta_id m ≠ item_id →
  get_note_in files item_id (delete i metas) = get_note_in files item_id metas.
Proof.
  induction metas as [|m0 metas IH]; intros [|i] m Hi Hm; try done; simpl in *.
  - injection Hi as ->. by rewrite decide_False.
  - by rewrite (IH i m).
Qed.

Lemma get_note_in_app_other files item_id metas rest :
  (∀ x, x ∈ rest → meta_id x ≠ item_id) →
  get_note_in files item_id (metas ++ rest)%list = get_note_in files item_id metas.
Proof.
  intros Hrest. induction metas as [|m metas IH]; simpl.
  - by apply get_note_in_absent.
  - by rewrite IH.
Qed.

Lemma other_file_untouched (metas : list Meta) (files : gmap string string) m other text x :
  named_by_id metas → m ∈ metas → meta_id m ≠ other →
  x ∈ metas → meta_id x = other →
  <[meta_filename m := text]> files !! meta_filename x = files !! meta_filename x.
Proof.
  intros Hnamed Hm Hne Hx Hid. apply lookup_insert_ne.
  rewrite (Hnamed m Hm), (Hnamed x Hx). intros Heq%file_name_inj. congruence.
Qed.

Lemma other_file_kept (metas : list Meta) (files : gmap string string) m other x :
  named_by_id metas → m ∈ metas → meta_id m ≠ other →
  x ∈ metas → meta_id x = other →
  delete (meta_filename m) files !! meta_filename x = files !! meta_filename x.
Proof.
  intros Hnamed Hm Hne Hx Hid. apply lookup_delete_ne.
  rewrite (Hnamed m Hm), (Hnamed x Hx). intros Heq%file_name_inj. congruence.
Qed.

Lemma note_step_keeps_other_notes op w other :
  named_by_id (notes (_load_metadata w)) →
  note_op_target op w ≠ Some other →
  get_note other (note_step secure_filename op w) = get_note other w.
Proof.
  intros Hnamed Htarget.
  destruct op as [title content category user_id | nid | category search_query | nid
                 | nid title content category user_id | nid | nid uploaded_file
                 | nid attachment_filename | ]; cbn [note_step]; try done.
  - assert (Hnext : get_next_id note w ≠ other) by (intros <-; by apply Htarget).
    unfold create_note, get_note at 1. simpl.
    rewrite get_note_in_app_other
      by (intros x ->%list_elem_of_singleton; exact Hnext).
    apply get_note_in_same_files. intros m Hm Hid. unfold write_text.
    apply lookup_insert_ne. rewrite (Hnamed m Hm), Hid.
    intros Heq%file_name_inj. congruence.
  - assert (Hne : nid ≠ other) by (intros ->; by apply Htarget).
    unfold increment_note_view_count.
    destruct (find_by_id _ _) as [[i m]|] eqn:Hfind; [|done].
    apply find_by_id_first in Hfind as (Hi & Hid & _). unfold get_note. simpl.
    apply (get_note_in_insert_other _ _ _ i m); [done|simpl; congruence..].
  - assert (Hne : nid ≠ other) by (intros ->; by apply Htarget).
    unfold update_note.
    destruct (find_by_id _ _) as [[i m]|] eqn:Hfind; [|done].
    apply find_by_id_first in Hfind as (Hi & Hid & _).
    pose proof (apply_fields_id title content category w (notes_dir w) m) as Hid'.
    assert (Hfiles : ∀ x, x ∈ notes (_load_metadata w) → meta_id x = other →
              (apply_fields title content category w (notes_dir w) m).1.2
                !! meta_filename x = notes_dir w !! meta_filename x).
    { intros x Hx Hxid. unfold apply_fields.
      destruct title, category, content; simpl; try done; unfold write_text;
        apply (other_file_untouched (notes (_load_metadata w)) _ m other); try done;
        try (by eapply list_elem_of_lookup_2); congruence. }
    destruct (apply_fields _ _ _ _ _ _) as [[m' files] updated]. simpl in Hid', Hfiles.
    destruct updated; [|done]. unfold get_note. simpl.
    rewrite (get_note_in_insert_other _ _ _ i m);
      [by apply get_note_in_same_files|done|congruence|].
    destruct user_id; simpl; congruence.
  - assert (Hne : nid ≠ other) by (intros ->; by apply Htarget).
    unfold delete_note.
    destruct (find_by_id _ _) as [[i m]|] eqn:Hfind; [|done].
    apply find_by_id_first in Hfind. pose proof Hfind as (Hi & Hid & _).
    assert (Hm : m ∈ notes (_load_metadata w)) by (by eapply list_elem_of_lookup_2).
    unfold remove_if_exists at 1.
    destruct (notes_dir w !! meta_filename m) eqn:Hfile;
      [destruct (remove_fails w NotesDir (meta_filename m)); [done|]|]; simpl;
      destruct (remove_attachments _ _ _) as [uploads [name|]]; unfold get_note; simpl;
      rewrite ?(list_remove_first_at _ _ _ _ Hfind),
        ?(get_note_in_delete_other _ _ _ i m) by (done || congruence); try done;
      apply get_note_in_same_files; intros x Hx Hxid;
      apply (other_file_kept (notes (_load_metadata w)) _ m other); try done; congruence.
  - assert (Hne : nid ≠ other) by (intros ->; by apply Htarget).
    unfold add_note_attachment, check_storage_available.
    destruct (_ >? _); [done|]. simpl.
    destruct (find_by_id _ _) as [[i m]|] eqn:Hfind; [|done].
    apply find_by_id_first in Hfind as (Hi & Hid & _).
    destruct (String.eqb _ _); [done|]. unfold get_note. simpl.
    apply (get_note_in_insert_other _ _ _ i m); [done|simpl; congruence..].
  - assert (Hne : nid ≠ other) by (intros ->; by apply Htarget).
    unfold delete_note_attachment.
    destruct (locate_attachment _ _ _) as [[[i m] a]|] eqn:Hloc; [|done].
    apply locate_attachment_Some in Hloc as (Hi & Hid & _).
    unfold get_note. simpl.
    assert (Hdir : ∀ w0, notes_dir
              match remove_if_exists (remove_fails w NotesUploadsDir) attachment_filename
                      (notes_uploads_dir w) with
              | Some uploads => with_notes_uploads_dir uploads w0
              | None => w0
              end = notes_dir w0).
    { intros w0. by destruct (remove_if_exists _ _ _). }
    rewrite Hdir.
    apply (get_note_in_insert_other _ _ _ i m); [done|simpl; congruence..].
Qed.

End OtherNotes.

Section OtherDocs.

Variable secure_filename : string → string.

Lemma get_doc_in_same_files files files' item_id metas :
  (∀ m, m ∈ metas → meta_id m = item_id →
        files' !! meta_filename m = files !! meta_filename m) →
  get_doc_in files' item_id metas = get_doc_in files item_id metas.
Proof.
  induction metas as [|m metas IH]; intros Hfiles; [done|]. simpl.
  rewrite IH by (intros x Hx; apply Hfiles; by right).
  destruct (decide (meta_id m = item_id)) as [Hid|_]; [|done].
  unfold read_text. by rewrite (Hfiles m) by (done || left).
Qed.

Lemma get_doc_in_insert_other files item_id metas : ∀ i m m',
  metas !! i = Some m → meta_id m ≠ item_id → meta_id m' ≠ item_id →
  get_doc_in files item_id (<[i := m']> metas) = get_doc_in files item_id metas.
Proof.
  induction metas as [|m0 metas IH]; intros [|i] m m' Hi Hm Hm'; try done; simpl in *.
  - injection Hi as ->. by rewrite !decide_False.
  - by rewrite (IH i m m').
Qed.

Lemma get_doc_in_delete_other files item_id metas : ∀ i m,
  metas !! i = Some m → meta_id m ≠ item_id →
  get_doc_in files item_id (delete i metas) = get_doc_in files item_id metas.
Proof.
  induction metas as [|m0 metas IH]; intros [|i] m Hi Hm; try done; simpl in *.
  - injection Hi as ->. by rewrite decide_False.
  - by rewrite (IH i m).
Qed.

Lemma get_doc_in_app_other files item_id metas rest :
  (∀ x, x ∈ rest → meta_id x ≠ item_id) →
  get_doc_in files item_id (metas ++ rest)%list = get_doc_in files item_id metas.
Proof.
  intros Hrest. induction metas as [|m metas IH]; simpl.
  - by apply get_doc_in_absent.
  - by rewrite IH.
Qed.

Lemma doc_step_keeps_other_docs op w other :
  named_by_id (docs (_load_metadata w)) →
  doc_op_target op w ≠ Some other →
  get_doc other (doc_step secure_filename op w) = get_doc other w.
Proof.
  intros Hnamed Htarget.
  destruct op as [title content category user_id | did | category search_query
                 | did title content category | did | did uploaded_file
                 | did attachment_filename | ]; cbn [doc_step]; try done.
  - assert (Hnext : get_next_id doc w ≠ other) by (intros <-; by apply Htarget).
    unfold create_doc, get_doc at 1. simpl.
    rewrite get_doc_in_app_other
      by (intros x ->%list_elem_of_singleton; exact Hnext).
    apply get_doc_in_same_files. intros m Hm Hid. unfold write_text.
    apply lookup_insert_ne. rewrite (Hnamed m Hm), Hid.
    intros Heq%file_name_inj. congruence.
  - assert (Hne : did ≠ other) by (intros ->; by apply Htarget).
    unfold update_doc.
    destruct (find_by_id _ _) as [[i m]|] eqn:Hfind; [|done].
    apply find_by_id_first in Hfind as (Hi & Hid & _).
    pose proof (apply_fields_id title content category w (docs_dir w) m) as Hid'.
    assert (Hfiles : ∀ x, x ∈ docs (_load_metadata w) → meta_id x = other →
              (apply_fields title content category w (docs_dir w) m).1.2
                !! meta_filename x = docs_dir w !! meta_filename x).
    { intros x Hx Hxid. unfold apply_fields.
      destruct title, category, content; simpl; try done; unfold write_text;
        apply (other_file_untouched (docs (_load_metadata w)) _ m other); try done;
        try (by eapply list_elem_of_lookup_2); congruence. }
    destruct (apply_fields _ _ _ _ _ _) as [[m' files] updated]. simpl in Hid', Hfiles.
    destruct updated; [|done]. unfold get_doc. simpl.
    rewrite (get_doc_in_insert_other _ _ _ i m);
      [by apply get_doc_in_same_files|done|congruence|].
    simpl; congruence.
  - assert (Hne : did ≠ other) by (intros ->; by apply Htarget).
    unfold delete_doc.
    destruct (find_by_id _ _) as [[i m]|] eqn:Hfind; [|done].
    apply find_by_id_first in Hfind. pose proof Hfind as (Hi & Hid & _).
    assert (Hm : m ∈ docs (_load_metadata w)) by (by eapply list_elem_of_lookup_2).
    unfold remove_if_exists at 1.
    destruct (docs_dir w !! meta_filename m) eqn:Hfile;
      [destruct (remove_fails w DocsDir (meta_filename m)); [done|]|]; simpl;
      destruct (remove_attachments _ _ _) as [uploads [name|]]; unfold get_doc; simpl;
      rewrite ?(list_remove_first_at _ _ _ _ Hfind),
        ?(get_doc_in_delete_other _ _ _ i m) by (done || congruence); try done;
      apply get_doc_in_same_files; intros x Hx Hxid;
      apply (other_file_kept (docs (_load_metadata w)) _ m other); try done; congruence.
  - assert (Hne : did ≠ other) by (intros ->; by apply Htarget).
    unfold add_doc_attachment.
    destruct (find_by_id _ _) as [[i m]|] eqn:Hfind; [|done].
    apply find_by_id_first in Hfind as (Hi & Hid & _).
    destruct (String.eqb _ _); [done|]. unfold get_doc. simpl.
    apply (get_doc_in_insert_other _ _ _ i m); [done|simpl; congruence..].
  - assert (Hne : did ≠ other) by (intros ->; by apply Htarget).
    unfold delete_doc_attachment.
    destruct (locate_attachment _ _ _) as [[[i m] a]|] eqn:Hloc; [|done].
    apply locate_attachment_Some in Hloc as (Hi & Hid & _).
    destruct (remove_if_exists _ _ _); [|done]. unfold get_doc. simpl.
    apply (get_doc_in_insert_other _ _ _ i m); [done|simpl; congruence..].
Qed.

End OtherDocs.

(** X20.  In a store whose content files are named after the identifiers
    of their records, a method called for one note, or creating one, never
    changes what [get_note] returns for another identifier, whether the
    call returns or raises; the same holds for documents and [get_doc]. *)
Theorem calls_leave_other_items_alone
    (secure_filename : string → string) (other : Z) (w : World) :
  (∀ op, named_by_id (notes (_load_metadata w)) →
         note_op_target op w ≠ Some other →
         get_note other (note_step secure_filename op w) = get_note other w)
  ∧ (∀ op, named_by_id (docs (_load_metadata w)) →
           doc_op_target op w ≠ Some other →
           get_doc other (doc_step secure_filename op w) = get_doc other w).
Proof.
  split; intros op Hnamed Htarget.
  - by apply note_step_keeps_other_notes.
  - by apply doc_step_keeps_other_docs.
Qed.

Lemma calls_leave_other_items_alone_witness :
  get_note 2 (note_step (λ name, name)
                (UpdateNote 1 (Some "Agenda") (Some "Budget") None None) store2)
  = get_note 2 store2.
Proof.
  apply (proj1 (calls_leave_other_items_alone (λ name, name) 2 store2)).
  - intros m Hm.
    apply elem_of_cons in Hm as [->|Hm]; [reflexivity|].
    apply list_elem_of_singleton in Hm as ->. reflexivity.
  - discriminate.
Defined.

(** ** Creations and deletions seen by the listings *)

Section ListedAfter.

Lemma delete_note_done item_id w :
  fst (delete_note item_id w) = Ok true →
  ∃ i m,
    first_with_id item_id (notes (_load_metadata w)) i m
    ∧ notes (_load_metadata (snd (delete_note item_id w)))
      = delete i (notes (_load_metadata w))
    ∧ notes_dir (snd (delete_note item_id w))
      = delete (meta_filename m) (notes_dir w)
    ∧ str_lower (snd (delete_note item_id w)) = str_lower w.
Proof.
  unfold delete_note.
  destruct (find_by_id _ _) as [[i m]|] eqn:Hfind; [|done].
  apply find_by_id_first in Hfind. unfold remove_if_exists.
  destruct (notes_dir w !! meta_filename m) eqn:Hfile;
    [destruct (remove_fails w NotesDir (meta_filename m)); [done|]|]; simpl;
    destruct (remove_attachments _ _ _) as [uploads [name|]]; try done; simpl;
    intros _; exists i, m; rewrite (list_remove_first_at _ _ _ _ Hfind);
    (split; [exact Hfind|]); (split; [done|]); (split; [|done]); try done.
  by rewrite delete_id.
Qed.

Lemma delete_doc_done item_id w :
  fst (delete_doc item_id w) = Ok true →
  ∃ i m,
    first_with_id item_id (docs (_load_metadata w)) i m
    ∧ docs (_load_metadata (snd (delete_doc item_id w)))
      = delete i (docs (_load_metadata w))
    ∧ docs_dir (snd (delete_doc item_id w))
      = delete (meta_filename m) (docs_dir w)
    ∧ str_lower (snd (delete_doc item_id w)) = str_lower w.
Proof.
  unfold delete_doc.
  destruct (find_by_id _ _) as [[i m]|] eqn:Hfind; [|done].
  apply find_by_id_first in Hfind. unfold remove_if_exists.
  destruct (docs_dir w !! meta_filename m) eqn:Hfile;
    [destruct (remove_fails w DocsDir (meta_filename m)); [done|]|]; simpl;
    destruct (remove_attachments _ _ _) as [uploads [name|]]; try done; simpl;
    intros _; exists i, m; rewrite (list_remove_first_at _ _ _ _ Hfind);
    (split; [exact Hfind|]); (split; [done|]); (split; [|done]); try done.
  by rewrite delete_id.
Qed.

Lemma elem_of_delete_other (metas : list Meta) i m x :
  metas !! i = Some m → x ∈ metas → meta_id x ≠ meta_id m → x ∈ delete i metas.
Proof.
  intros Hi [j Hj]%list_elem_of_lookup Hne.
  assert (j ≠ i) by (intros ->; congruence).
  destruct (decide (j < i)%nat).
  - apply (list_elem_of_lookup_2 _ j). by rewrite list_lookup_delete_lt.
  - apply (list_elem_of_lookup_2 _ (pred j)). rewrite list_lookup_delete_ge by lia.
    by replace (S (pred j)) with j by lia.
Qed.

Lemma listed_same_file lower files files' category search_query m :
  files' !! meta_filename m = files !! meta_filename m →
  listed lower files' category search_query m ↔ listed lower files category search_query m.
Proof. intros Hfile. unfold listed, read_text. by rewrite Hfile. Qed.

Lemma content_of_same_file files files' m :
  files' !! meta_filename m = files !! meta_filename m →
  content_of files' m = content_of files m.
Proof. intros Hfile. unfold content_of, read_text. by rewrite Hfile. Qed.

End ListedAfter.

(** X21.  In a store whose identifiers are unique within the kind and
    whose content files are named after them, a deletion that returns
    [True] takes exactly the deleted item out of every listing: for every
    category and search query the listing afterwards holds the objects it
    held before, except the one with the deleted identifier. *)
Theorem deletion_takes_one_item_out_of_listings
    (item_id : Z) (category search_query : option string) (w : World) :
  (NoDup (meta_id <$> notes (_load_metadata w)) →
   named_by_id (notes (_load_metadata w)) →
   fst (delete_note item_id w) = Ok true →
   ∀ n, n ∈ get_all_notes category search_query (snd (delete_note item_id w)) ↔
        n ∈ get_all_notes category search_query w ∧ note_id n ≠ item_id)
  ∧ (NoDup (meta_id <$> docs (_load_metadata w)) →
     named_by_id (docs (_load_metadata w)) →
     fst (delete_doc item_id w) = Ok true →
     ∀ d, d ∈ get_all_docs category search_query (snd (delete_doc item_id w)) ↔
          d ∈ get_all_docs category search_query w ∧ doc_id d ≠ item_id).
Proof.
  split; intros Hnodup Hnamed Hdone.
  - destruct (delete_note_done _ _ Hdone) as (i & m & Hfirst & Hnotes & Hdir & Hlower).
    pose proof Hfirst as (Hi & Hid & _).
    assert (Hm : m ∈ notes (_load_metadata w)) by (by eapply list_elem_of_lookup_2).
    assert (Hfile : ∀ x, x ∈ notes (_load_metadata w) → meta_id x ≠ item_id →
              notes_dir (snd (delete_note item_id w)) !! meta_filename x
              = notes_dir w !! meta_filename x).
    { intros x Hx Hxid. rewrite Hdir.
      apply (other_file_kept (notes (_load_metadata w)) _ m (meta_id x)); try done.
      congruence. }
    intros n. rewrite !get_all_notes_elem, Hnotes, Hlower. split.
    + intros (x & Hx & Hlisted & ->).
      pose proof (unique_id_deleted _ _ _ _ Hfirst Hnodup x Hx) as Hxid.
      assert (Hx' : x ∈ notes (_load_metadata w))
        by (eapply elem_of_sublist; [exact Hx|apply sublist_delete]).
      split; [|done]. exists x. split; [done|].
      split; [by apply (listed_same_file _ _ _ _ _ _ (Hfile x Hx' Hxid))|].
      f_equal. by apply content_of_same_file, Hfile.
    + intros [(x & Hx & Hlisted & ->) Hxid]. simpl in Hxid. exists x.
      split; [apply (elem_of_delete_other _ _ m); [done..|congruence]|].
      split; [by apply (listed_same_file _ _ _ _ _ _ (Hfile x Hx Hxid))|].
      f_equal. symmetry. by apply content_of_same_file, Hfile.
  - destruct (delete_doc_done _ _ Hdone) as (i & m & Hfirst & Hdocs & Hdir & Hlower).
    pose proof Hfirst as (Hi & Hid & _).
    assert (Hm : m ∈ docs (_load_metadata w)) by (by eapply list_elem_of_lookup_2).
    assert (Hfile : ∀ x, x ∈ docs (_load_metadata w) → meta_id x ≠ item_id →
              docs_dir (snd (delete_doc item_id w)) !! meta_filename x
              = docs_dir w !! meta_filename x).
    { intros x Hx Hxid. rewrite Hdir.
      apply (other_file_kept (docs (_load_metadata w)) _ m (meta_id x)); try done.
      congruence. }
    intros d. rewrite !get_all_docs_elem, Hdocs, Hlower. split.
    + intros (x & Hx & Hlisted & ->).
      pose proof (unique_id_deleted _ _ _ _ Hfirst Hnodup x Hx) as Hxid.
      assert (Hx' : x ∈ docs (_load_metadata w))
        by (eapply elem_of_sublist; [exact Hx|apply sublist_delete]).
      split; [|done]. exists x. split; [done|].
      split; [by apply (listed_same_file _ _ _ _ _ _ (Hfile x Hx' Hxid))|].
      f_equal. by apply content_of_same_file, Hfile.
    + intros [(x & Hx & Hlisted & ->) Hxid]. simpl in Hxid. exists x.
      split; [apply (elem_of_delete_other _ _ m); [done..|congruence]|].
      split; [by apply (listed_same_file _ _ _ _ _ _ (Hfile x Hx Hxid))|].
      f_equal. symmetry. by apply content_of_same_file, Hfile.
Qed.

(** X22.  The note that [create_note] returns is, in the state the call
    leaves, in the listing that filters nothing and in the listing of the
    category it was created with, whatever that category is; likewise for
    [create_doc]. *)
Theorem created_item_is_listed
    (title content category : string) (user_id : option Z) (w : World) :
  (∃ n, fst (create_note title content category user_id w) = Some n
        ∧ n ∈ get_all_notes None None (snd (create_note title content category user_id w))
        ∧ n ∈ get_all_notes (Some category) None
                (snd (create_note title content category user_id w)))
  ∧ (∃ d, fst (create_doc title content category user_id w) = Some d
          ∧ d ∈ get_all_docs None None (snd (create_doc title content category user_id w))
          ∧ d ∈ get_all_docs (Some category) None
                  (snd (create_doc title content category user_id w))).
Proof.
  split.
  - destruct (create_note_spec title content category user_id w) as [Hres Hload].
    eexists. split; [exact Hres|].
    assert (Hread : read_text (meta_filename (created_note_meta title category user_id w))
                      (notes_dir (snd (create_note title content category user_id w)))
                    = Some (read_newlines (write_newlines (linesep w) content))).
    { unfold create_note. simpl. apply read_text_written. }
    split; apply get_all_notes_elem; rewrite Hload;
      exists (created_note_meta title category user_id w);
      (split; [apply elem_of_app; right; by left|]);
      (split; [|unfold content_of; by rewrite Hread]);
      (split; [|eexists; by split]).
    + by left; left.
    + by right.
  - destruct (create_doc_spec title content category user_id w) as [Hres Hload].
    eexists. split; [exact Hres|].
    assert (Hread : read_text (meta_filename (created_doc_meta title category user_id w))
                      (docs_dir (snd (create_doc title content category user_id w)))
                    = Some (read_newlines (write_newlines (linesep w) content))).
    { unfold create_doc. simpl. apply read_text_written. }
    split; apply get_all_docs_elem; rewrite Hload;
      exists (created_doc_meta title category user_id w);
      (split; [apply elem_of_app; right; by left|]);
      (split; [|unfold content_of; by rewrite Hread]);
      (split; [|eexists; by split]).
    + by left; left.
    + by right.
Qed.

Lemma deletion_takes_one_item_out_of_listings_witness :
  Note_of (mkMeta 2 "Shopping" "2.txt" (Some "personal") None (Some []) (Some 0) 20
             (Some 25) None) "Milk, eggs"
  ∈ get_all_notes None None (snd (delete_note 1 store_with_attachments)).
Proof.
  apply (proj1 (deletion_takes_one_item_out_of_listings 1 None None
                  store_with_attachments)).
  - apply (bool_decide_unpack _). by vm_compute.
  - intros m Hm.
    apply elem_of_cons in Hm as [->|Hm]; [reflexivity|].
    apply list_elem_of_singleton in Hm as ->. reflexivity.
  - by vm_compute.
  - split; [|discriminate].
    assert (get_all_notes None None store_with_attachments
            = [Note_of (mkMeta 2 "Shopping" "2.txt" (Some "personal") None (Some [])
                          (Some 0) 20 (Some 25) None) "Milk, eggs";
               Note_of (mkMeta 1 "Meeting Notes" "1.txt" (Some "work") None
                          (Some [mkAttachment "1_cafebabe.pdf" "agenda.pdf" 12;
                                 mkAttachment "1_0badf00d.png" "chart.png" 14])
                          (Some 0) 10 (Some 14) None) "abc"]) as ->
      by (by vm_compute).
    left.
Defined.

Lemma delete_note_attachment_spec_witness :
  fst (delete_note_attachment 1 "1_cafebabe.pdf" locked_store) = true
  ∧ fst (delete_note_attachment 1 "1_0badf00d.png" locked_store) = false.
Proof.
  destruct (delete_note_attachment_spec 1 "1_cafebabe.pdf" locked_store)
    as (_ & _ & Hfound).
  destruct (delete_note_attachment_spec 1 "1_0badf00d.png" locked_store)
    as (Habsent & _).
  split.
  - apply (Hfound 0%nat
             (mkMeta 1 "Meeting Notes" "1.txt" (Some "work") None
                (Some [mkAttachment "1_cafebabe.pdf" "agenda.pdf" 12])
                (Some 0) 10 (Some 12) None)
             (mkAttachment "1_cafebabe.pdf" "agenda.pdf" 12)).
    reflexivity.
  - apply Habsent. intros m Hm _ a Ha.
    apply list_elem_of_singleton in Hm as ->. simpl in Ha.
    apply list_elem_of_singleton in Ha as ->. discriminate.
Defined.

(** ** A record without category *)

(** X27.  A note whose record has no ['category'] key is read by
    [get_note] with the category ["general"] and is listed when no
    category is asked for, but a listing asked for the category
    ["general"] leaves it out: the loop compares the key as the record
    has it, and the default is applied only when the object is built. *)
Theorem defaulted_category_is_not_filtered_on :
  (note_category <$> get_note 2 store_categories) = Some "general"
  ∧ (note_id <$> get_all_notes None None store_categories) = [4; 3; 2; 1]
  ∧ (note_category <$> get_all_notes None None store_categories)
    = ["work"; "Work"; "general"; "work"]
  ∧ get_all_notes (Some "general") None store_categories = [].
Proof. repeat split; by vm_compute. Qed.
